(** * TradeForge: the position-tracking and P&L accounting engine

    A shallow embedding of [utils.py] ([TradingCalculator]) and of the ledger
    operations of [data.py] ([DatabaseManager]), with the properties of the
    specification stated over it.

    Numbers.  Python floats are idealised as exact rationals ([Qc], the
    canonical rationals, so that equal amounts are equal terms): rounding is
    outside the model, everything else (guards, order of evaluation, which
    divisions can raise) follows the source.  Division of Python scalars raises
    [ZeroDivisionError] on a zero divisor and is modelled by [pydiv].  NaN
    enters through the empty cells of an imported file only, and is followed
    as far as the ledger.

    Sorting.  [sort_values('date')] is pandas' default sort, which is not
    stable: the routine is a parameter ([SortKind]) and the properties hold
    for every kind of sort. *)

From Stdlib Require Import ZArith QArith Qcanon Lia.
From stdpp Require Import base option strings list numbers gmap sorting.

Local Open Scope Z_scope.
Local Open Scope Qc_scope.

(** ** Exceptions and fallible computations *)

Inductive exn :=
| ZeroDivisionError
| KeyError (key : string)
| ValueError (what : string)
| IntegrityError (what : string).

Inductive result (A : Type) :=
| Ok (a : A)
| Raise (e : exn).
Arguments Ok {A} a.
Arguments Raise {A} e.

Global Instance result_ret : MRet result := λ A a, Ok a.
Global Instance result_bind : MBind result := λ A B f m,
  match m with
  | Ok a => f a
  | Raise e => Raise e
  end.

(** The computation returns normally (no exception). *)
Definition returns {A} (m : result A) : Prop := ∃ a, m = Ok a.

(** ** Python values and arithmetic *)

(** The decimal literal [n / d], e.g. [dec 25 100] for [0.25]. *)
Definition dec (n : Z) (d : positive) : Qc := Q2Qc (n # d).

(** [a / b] on Python scalars. *)
Definition pydiv (a b : Qc) : result Qc :=
  if decide (b = 0) then Raise ZeroDivisionError else Ok (a / b).

(** Python's [max(a, b)] and [min(a, b)]: the first argument wins ties. *)
Definition pymax (a b : Qc) : Qc := if decide (a < b) then b else a.
Definition pymin (a b : Qc) : Qc := if decide (b < a) then b else a.

(** [int(x)]: truncation towards zero. *)
Definition pyint (x : Qc) : Z := Z.quot (Qnum (this x)) (Z.pos (Qden (this x))).

(** [abs(x)]. *)
Definition pyabs (x : Qc) : Qc := if decide (x < 0) then - x else x.

(** The values found in the dictionaries the calculator returns.
    [PySharpe m v] stands for the float [m / sqrt v * sqrt 252]: the two
    square roots are irrational, the value is carried by its rational
    parts. *)
Inductive pyval :=
| PyInt (n : Z)
| PyFloat (x : Qc)
| PyInf
| PyNaN
| PySharpe (mean var : Qc).

(** [d.get(key, default)]. *)
Definition dict_get {V} (m : gmap string V) (key : string) (dflt : V) : V :=
  default dflt (m !! key).

(** [d[key]]. *)
Definition dict_item {V} (m : gmap string V) (key : string) : result V :=
  match m !! key with
  | Some v => Ok v
  | None => Raise (KeyError key)
  end.

(** ** Data model *)

(** [datetime]: compared field by field, most significant first. *)
Record datetime := mkDate {
  year : Z; month : Z; day : Z; hour : Z; minute : Z; second : Z
}.

Global Instance datetime_eq_dec : EqDecision datetime.
Proof. solve_decision. Defined.

Definition datetime_key (d : datetime) : list Z :=
  [year d; month d; day d; hour d; minute d; second d].

Fixpoint lex_leb (a b : list Z) : bool :=
  match a, b with
  | x :: a', y :: b' =>
      if decide (x < y)%Z then true
      else if decide (y < x)%Z then false
      else lex_leb a' b'
  | _, _ => true
  end.

Definition date_leb (a b : datetime) : bool :=
  lex_leb (datetime_key a) (datetime_key b).

(** The option columns of the [trades] table; all nullable. *)
Record OptionDetails := mkOption {
  option_type : option string;
  strike_price : option Qc;
  expiration_date : option datetime;
  premium : option Qc;
  strategy : option string
}.

Definition no_option : OptionDetails := mkOption None None None None None.

(** The [Trade] model class: one record of the [trades] table. *)
Record Trade := mkTrade {
  id : Z;
  date : datetime;
  ticker : string;
  asset_type : string;
  trade_type : string;
  price : Qc;
  quantity : Qc;
  fees : Qc;
  notes : string;
  details : OptionDetails;
  total_cost : Qc;
  realized_pnl : Qc;
  unrealized_pnl : Qc;
  currency : string;
  market : string
}.

Definition with_realized_pnl (v : Qc) (t : Trade) : Trade :=
  mkTrade (id t) (date t) (ticker t) (asset_type t) (trade_type t)
          (price t) (quantity t) (fees t) (notes t) (details t) (total_cost t)
          v (unrealized_pnl t) (currency t) (market t).

Definition with_unrealized_pnl (v : Qc) (t : Trade) : Trade :=
  mkTrade (id t) (date t) (ticker t) (asset_type t) (trade_type t)
          (price t) (quantity t) (fees t) (notes t) (details t) (total_cost t)
          (realized_pnl t) v (currency t) (market t).

(** One row of a DataFrame of trades: the index label and the columns, as
    [iterrows()] yields them.  A DataFrame is the list of its rows, as
    [get_trades] builds it from the list of its records: without a record
    the frame has no row and no column. *)
Record Row := mkRow {
  idx : Z;
  trade : Trade
}.

Abbreviation DataFrame := (list Row).

(** ** DataFrame and Series primitives *)

(** [df.loc[i, col] = v]: every row labelled [i] gets the column updated.
    (Every label written by the replay is a label of the frame, so pandas'
    enlargement on a missing label does not arise.) *)
Definition loc_set (i : Z) (f : Trade → Trade) (df : DataFrame) : DataFrame :=
  (λ r, if decide (idx r = i) then mkRow (idx r) (f (trade r)) else r) <$> df.

(** [df.loc[i]] on a frame whose labels are unique: the row labelled [i]. *)
Definition loc (df : DataFrame) (i : Z) : option Row :=
  head (filter (λ r, idx r = i) df).

(** [df[df['ticker'] == t]]. *)
Definition ticker_rows (t : string) (df : DataFrame) : DataFrame :=
  filter (λ r, ticker (trade r) = t) df.

(** [Series.unique()]: the distinct values in order of first appearance. *)
Fixpoint unique_from {A} `{EqDecision A} (seen l : list A) : list A :=
  match l with
  | [] => []
  | x :: l' =>
      if decide (x ∈ seen) then unique_from seen l'
      else x :: unique_from (x :: seen) l'
  end.

Definition unique {A} `{EqDecision A} (l : list A) : list A := unique_from [] l.

(** [sort_values('date')]: the rows in ascending order of date.  pandas
    sorts with [kind='quicksort'] unless told otherwise, and that kind is not
    stable: where rows of the frame have the same date, which of them comes
    first is up to the sorting routine.  The routine is therefore taken as a
    parameter, known by what every kind guarantees: the result holds the
    rows of the frame, in ascending order of date, and their arrangement is
    decided by the date column alone (pandas sorts the positions by the
    values of the column and takes the rows in that order). *)
Definition date_le (a b : Row) : Prop :=
  date_leb (date (trade a)) (date (trade b)) = true.

Class SortKind := {
  sort_values : DataFrame → DataFrame;
  sort_values_perm : ∀ df, sort_values df ≡ₚ df;
  sort_values_sorted : ∀ df, Sorted date_le (sort_values df);
  sort_values_by_date : ∀ (f : Row → Row) df,
    (∀ r, date (trade (f r)) = date (trade r)) →
    sort_values (f <$> df) = f <$> sort_values df
}.

(** One kind of sort, [kind='stable']: rows with equal dates keep their
    frame order. *)
Fixpoint insert_by_date (r : Row) (l : list Row) : list Row :=
  match l with
  | [] => [r]
  | x :: l' =>
      if date_leb (date (trade r)) (date (trade x)) then r :: l
      else x :: insert_by_date r l'
  end.

Definition stable_sort_values (df : DataFrame) : DataFrame :=
  foldr insert_by_date [] df.

(** [Series.sum()]. *)
Definition sum_list (l : list Qc) : Qc := foldr Qcplus 0 l.

(** [Series.mean()], [Series.max()], [Series.min()]: NaN on an empty
    series. *)
Definition series_mean (l : list Qc) : pyval :=
  match l with
  | [] => PyNaN
  | _ => PyFloat (sum_list l / Qc_of_Z (Z.of_nat (length l)))
  end.

Definition series_max (l : list Qc) : pyval :=
  match l with
  | [] => PyNaN
  | x :: l' => PyFloat (fold_left pymax l' x)
  end.

Definition series_min (l : list Qc) : pyval :=
  match l with
  | [] => PyNaN
  | x :: l' => PyFloat (fold_left pymin l' x)
  end.

(** [Series.cumsum()]. *)
Fixpoint cumsum_from (acc : Qc) (l : list Qc) : list Qc :=
  match l with
  | [] => []
  | x :: l' => (acc + x) :: cumsum_from (acc + x) l'
  end.

Definition cumsum (l : list Qc) : list Qc := cumsum_from 0 l.

(** [Series.expanding().max()]. *)
Fixpoint expanding_max_from (m : Qc) (l : list Qc) : list Qc :=
  match l with
  | [] => []
  | x :: l' => pymax m x :: expanding_max_from (pymax m x) l'
  end.

Definition expanding_max (l : list Qc) : list Qc :=
  match l with
  | [] => []
  | x :: l' => x :: expanding_max_from x l'
  end.

(** [a - b] on two series of the same index. *)
Definition series_sub (a b : list Qc) : list Qc := zip_with Qcminus a b.

(** [Series.pct_change().dropna()] on a series without zeros (the only
    use is on the rows with [realized_pnl != 0]). *)
Fixpoint pct_change (l : list Qc) : list Qc :=
  match l with
  | x :: (y :: _) as l' => (y / x - 1) :: pct_change l'
  | _ => []
  end.

(** The sample variance behind [Series.std()] (ddof = 1). *)
Definition sample_var (l : list Qc) : Qc :=
  let n := Qc_of_Z (Z.of_nat (length l)) in
  let mean := sum_list l / n in
  sum_list ((λ x, (x - mean) * (x - mean)) <$> l) / (n - 1).

(** [returns.mean() / returns.std() * np.sqrt(252) if returns.std() != 0
    else 0]: the standard deviation of fewer than two returns is NaN, which
    is not equal to 0. *)
Definition sharpe_of (returns : list Qc) : pyval :=
  match returns with
  | [] | [_] => PyNaN
  | _ =>
      if decide (sample_var returns = 0) then PyInt 0
      else PySharpe (sum_list returns / Qc_of_Z (Z.of_nat (length returns)))
                    (sample_var returns)
  end.

(** [date.dt.to_period('M')]. *)
Definition to_period (r : Row) : Z * Z := (year (date (trade r)), month (date (trade r))).

(** [groupby('month')['realized_pnl'].sum()]; only its maximum and minimum
    are used. *)
Definition monthly_pnl (df : DataFrame) : list Qc :=
  (λ p, sum_list ((realized_pnl ∘ trade) <$> filter (λ r, to_period r = p) df))
    <$> unique (to_period <$> df).

(** ** [TradingCalculator.calculate_pnl] *)

(** The three loop variables [position], [total_cost], [realized_pnl]. *)
Record Position := mkPosition {
  position : Qc;
  cost : Qc;
  realized : Qc
}.

Definition flat : Position := mkPosition 0 0 0.

Definition is_buy (trade : Trade) : bool :=
  bool_decide (trade_type trade = "Buy"%string).

(** The body of the inner loop up to the write-back, for one row. *)
Definition step (st : Position) (trade : Trade) : result Position :=
  if is_buy trade then
    Ok (mkPosition (position st + quantity trade)
                   (cost st + total_cost trade)
                   (realized st))
  else if decide (0 < position st) then
    avg_cost ← (if decide (0 < position st)
                then pydiv (cost st) (position st) else Ok 0);
    let trade_pnl := (price trade - avg_cost) * quantity trade - fees trade in
    let realized' := realized st + trade_pnl in
    let position' := position st - quantity trade in
    total_cost' ← (if decide (0 < position')
                   then f ← pydiv position' (position' + quantity trade);
                        Ok (cost st * f)
                   else Ok 0);
    Ok (mkPosition position' total_cost' realized')
  else Ok st.

(** The inner loop over [ticker_trades.iterrows()], writing into [df]. *)
Fixpoint replay (rows : list Row) (st : Position) (df : DataFrame)
  : result DataFrame :=
  match rows with
  | [] => Ok df
  | r :: rest =>
      st' ← step st (trade r);
      let df1 := loc_set (idx r) (with_realized_pnl (realized st')) df in
      let df2 := loc_set (idx r) (with_unrealized_pnl 0) df1 in
      replay rest st' df2
  end.

(** The outer loop over [df['ticker'].unique()]. *)
Fixpoint replay_tickers {kind : SortKind} (tickers : list string) (df : DataFrame)
  : result DataFrame :=
  match tickers with
  | [] => Ok df
  | t :: rest =>
      let ticker_trades := sort_values (ticker_rows t df) in
      df' ← replay ticker_trades flat df;
      replay_tickers rest df'
  end.

(** A frame without rows is the frame [pd.DataFrame([])] that [get_trades]
    builds for an empty ledger: it has no columns, and [df['ticker']] raises
    [KeyError]. *)
Definition calculate_pnl {kind : SortKind} (trades_df : DataFrame)
  : result DataFrame :=
  let df := trades_df in
  match df with
  | [] => Raise (KeyError "ticker")
  | _ => replay_tickers (unique ((ticker ∘ trade) <$> df)) df
  end.

(** ** The replay as a pure function

    [step] never raises: both divisions are guarded.  [advance] is the state
    after one row and [trade_pnl] the close-out contribution of the row (the
    source's local [trade_pnl]; nothing is contributed by a Buy or by a Sell
    that finds no open position). *)

Definition trade_pnl (st : Position) (trade : Trade) : Qc :=
  if is_buy trade then 0
  else if decide (0 < position st)
       then (price trade - cost st / position st) * quantity trade - fees trade
       else 0.

Definition advance (st : Position) (r : Row) : Position :=
  if is_buy (trade r) then
    mkPosition (position st + quantity (trade r))
               (cost st + total_cost (trade r))
               (realized st)
  else if decide (0 < position st) then
    let position' := position st - quantity (trade r) in
    mkPosition position'
               (if decide (0 < position')
                then cost st * (position' / (position' + quantity (trade r)))
                else 0)
               (realized st + trade_pnl st (trade r))
  else st.

Definition run (rows : list Row) (st : Position) : Position :=
  fold_left advance rows st.

(** The close-out contributions of the rows of one instrument, in replay
    order. *)
Fixpoint contributions (rows : list Row) (st : Position) : list Qc :=
  match rows with
  | [] => []
  | r :: rest => trade_pnl st (trade r) :: contributions rest (advance st r)
  end.

(** The writes [df.loc[idx, 'realized_pnl'] = realized_pnl] of one inner
    loop, in order. *)
Fixpoint writes (rows : list Row) (st : Position) : list (Z * Qc) :=
  match rows with
  | [] => []
  | r :: rest =>
      let st' := advance st r in
      (idx r, realized st') :: writes rest st'
  end.

Definition stamp (v : Qc) (r : Row) : Row :=
  mkRow (idx r) (with_unrealized_pnl 0 (with_realized_pnl v (trade r))).

Definition apply_writes (W : list (Z * Qc)) (df : DataFrame) : DataFrame :=
  fold_left (λ df w, loc_set w.1 (with_unrealized_pnl 0)
                       (loc_set w.1 (with_realized_pnl w.2) df)) W df.

(** The value a label holds after a sequence of writes, if it was written. *)
Fixpoint last_write (i : Z) (W : list (Z * Qc)) : option Qc :=
  match W with
  | [] => None
  | w :: W' =>
      match last_write i W' with
      | Some v => Some v
      | None => if decide (w.1 = i) then Some w.2 else None
      end
  end.

Definition written (W : list (Z * Qc)) (r : Row) : Row :=
  from_option (λ v, stamp v r) r (last_write (idx r) W).

(** All writes of [calculate_pnl], ticker by ticker. *)
Definition all_writes {kind : SortKind} (tickers : list string) (df : DataFrame)
  : list (Z * Qc) :=
  tickers ≫= λ t, writes (sort_values (ticker_rows t df)) flat.

(** A row with its two derived columns blanked: what the replay reads. *)
Definition inputs (r : Row) : Row := stamp 0 r.

(** ** [TradingCalculator.calculate_metrics] *)

Definition realized_col (df : DataFrame) : list Qc := (realized_pnl ∘ trade) <$> df.
Definition unrealized_col (df : DataFrame) : list Qc := (unrealized_pnl ∘ trade) <$> df.
Definition total_cost_col (df : DataFrame) : list Qc := (total_cost ∘ trade) <$> df.

(** [drawdown = cumulative_pnl - running_max] *)
Definition drawdown (df : DataFrame) : list Qc :=
  let cumulative_pnl := cumsum (realized_col df) in
  let running_max := expanding_max cumulative_pnl in
  series_sub cumulative_pnl running_max.

(** The win/loss block: [(win_rate, avg_win, avg_loss, profit_factor)].
    The two means and the ratio of sums are pandas operations whose divisors
    are tested to be non-zero in the same expression. *)
Definition win_loss (trades_df : DataFrame)
  : result (pyval * pyval * pyval * pyval) :=
  let realized_trades :=
    filter (λ r, realized_pnl (trade r) ≠ 0) trades_df in
  match realized_trades with
  | _ :: _ =>
      let winning_trades :=
        filter (λ r, 0 < realized_pnl (trade r)) realized_trades in
      let losing_trades :=
        filter (λ r, realized_pnl (trade r) < 0) realized_trades in
      ratio ← pydiv (Qc_of_Z (Z.of_nat (length winning_trades)))
                    (Qc_of_Z (Z.of_nat (length realized_trades)));
      let win_rate := PyFloat (ratio * Qc_of_Z 100) in
      let avg_win :=
        if decide (0 < length winning_trades)%nat
        then series_mean (realized_col winning_trades) else PyInt 0 in
      let avg_loss :=
        if decide (0 < length losing_trades)%nat
        then series_mean (realized_col losing_trades) else PyInt 0 in
      let profit_factor :=
        if decide ((0 < length losing_trades)%nat
                   ∧ sum_list (realized_col losing_trades) ≠ 0)
        then PyFloat (pyabs (sum_list (realized_col winning_trades)
                             / sum_list (realized_col losing_trades)))
        else PyInf in
      Ok (win_rate, avg_win, avg_loss, profit_factor)
  | [] => Ok (PyInt 0, PyInt 0, PyInt 0, PyInt 0)
  end.

(** The Sharpe block. *)
Definition sharpe_ratio (trades_df : DataFrame) : pyval :=
  let realized_trades :=
    filter (λ r, realized_pnl (trade r) ≠ 0) trades_df in
  if decide (1 < length realized_trades)%nat
  then sharpe_of (pct_change (realized_col realized_trades))
  else PyInt 0.

(** The returned dictionary.  (The [month] column the source adds to its
    argument on the way is not part of the row model.) *)
Definition calculate_metrics (trades_df : DataFrame)
  : result (gmap string pyval) :=
  match trades_df with
  | [] => Ok ∅
  | _ =>
      let total_trades := Z.of_nat (length trades_df) in
      let total_pnl :=
        sum_list (realized_col trades_df) + sum_list (unrealized_col trades_df) in
      '(win_rate, avg_win, avg_loss, profit_factor) ← win_loss trades_df;
      let max_drawdown := series_min (drawdown trades_df) in
      let largest_win := series_max (realized_col trades_df) in
      let largest_loss := series_min (realized_col trades_df) in
      let best_month := series_max (monthly_pnl trades_df) in
      let worst_month := series_min (monthly_pnl trades_df) in
      Ok (list_to_map
            [ ("total_trades"%string, PyInt total_trades);
              ("total_pnl"%string, PyFloat total_pnl);
              ("win_rate"%string, win_rate);
              ("avg_win"%string, avg_win);
              ("avg_loss"%string, avg_loss);
              ("profit_factor"%string, profit_factor);
              ("max_drawdown"%string, max_drawdown);
              ("sharpe_ratio"%string, sharpe_ratio trades_df);
              ("largest_win"%string, largest_win);
              ("largest_loss"%string, largest_loss);
              ("best_month"%string, best_month);
              ("worst_month"%string, worst_month);
              ("total_volume"%string, PyFloat (sum_list (total_cost_col trades_df)));
              ("avg_trade_size"%string, series_mean (total_cost_col trades_df)) ])
  end.

(** ** [TradingCalculator.calculate_risk_metrics] *)

(** The Kelly block: the guard tests [avg_loss], the divisor is [avg_win]. *)
Definition kelly_percentage (win_rate avg_win avg_loss : Qc) : result Qc :=
  if decide (avg_loss ≠ 0) then
    kelly_pct ← pydiv (win_rate * avg_win - (1 - win_rate) * pyabs avg_loss)
                      avg_win;
    Ok (pymax 0 (pymin kelly_pct (dec 25 100)))
  else Ok 0.

Definition calculate_risk_metrics (account_value : Qc)
    (trade_data : gmap string Qc) : result (gmap string pyval) :=
  let one_percent_risk := account_value * dec 1 100 in
  let stop_loss_pct := dict_get trade_data "stop_loss_pct" (dec 2 100) in
  p ← dict_item trade_data "price";
  let risk_per_share := p * stop_loss_pct in
  max_shares ← (if decide (0 < risk_per_share)
                then q ← pydiv one_percent_risk risk_per_share; Ok (pyint q)
                else Ok 0%Z);
  let win_rate := dict_get trade_data "win_rate" (dec 5 10) in
  let avg_win := dict_get trade_data "avg_win" 0 in
  let avg_loss := dict_get trade_data "avg_loss" 0 in
  kelly_pct ← kelly_percentage win_rate avg_win avg_loss;
  p' ← dict_item trade_data "price";
  size ← pydiv (account_value * kelly_pct) p';
  Ok (list_to_map
        [ ("one_percent_risk"%string, PyFloat one_percent_risk);
          ("max_shares_1pct"%string, PyInt max_shares);
          ("kelly_percentage"%string, PyFloat kelly_pct);
          ("recommended_position_size"%string,
            PyInt (Z.min max_shares (pyint size))) ]).

(** ** [DatabaseManager]: the ledger

    The session is modelled by state passing: every operation takes the
    [trades] table (in rowid order) and returns its outcome together with the
    table afterwards; an exception goes with the rolled-back, unchanged
    table. *)

Abbreviation Ledger := (list Trade).

(** The dictionary [add_trade] receives, keys at their column types;
    [None] is an absent optional key. *)
Record TradeData := mkTradeData {
  td_date : datetime;
  td_ticker : string;
  td_asset_type : string;
  td_trade_type : string;
  td_price : Qc;
  td_quantity : Qc;
  td_fees : option Qc;
  td_notes : option string;
  td_details : OptionDetails
}.

(** [s.endswith(suffix)]. *)
Definition ends_with (suffix s : string) : bool :=
  String.prefix (String.rev suffix) (String.rev s).

(** The id SQLite gives to an inserted row: one more than the largest id in
    the table. *)
Definition next_id (l : Ledger) : Z :=
  match id <$> l with
  | [] => 1
  | x :: xs => 1 + fold_left Z.max xs x
  end.

Definition add_trade (l : Ledger) (trade_data : TradeData)
  : result Z * Ledger :=
  let total_cost :=
    td_price trade_data * td_quantity trade_data
    + default 0 (td_fees trade_data) in
  let currency :=
    if ends_with ".HK" (td_ticker trade_data) then "HKD"%string else "USD"%string in
  let market :=
    if ends_with ".HK" (td_ticker trade_data) then "HK"%string else "US"%string in
  let trade :=
    mkTrade (next_id l) (td_date trade_data) (td_ticker trade_data)
            (td_asset_type trade_data) (td_trade_type trade_data)
            (td_price trade_data) (td_quantity trade_data)
            (default 0 (td_fees trade_data))
            (default ""%string (td_notes trade_data))
            (td_details trade_data) total_cost 0 0 currency market in
  (Ok (id trade), l ++ [trade]).

(** [order_by(Trade.date.desc())]; equal dates in table order. *)
Fixpoint insert_by_date_desc (t : Trade) (l : list Trade) : list Trade :=
  match l with
  | [] => [t]
  | x :: l' =>
      if date_leb (date x) (date t) then t :: l
      else x :: insert_by_date_desc t l'
  end.

Definition order_by_date_desc (l : Ledger) : list Trade :=
  foldr insert_by_date_desc [] l.

(** [if limit: query = query.limit(limit)]; a negative LIMIT is no limit. *)
Definition apply_limit (limit : option Z) (l : list Trade) : list Trade :=
  match limit with
  | Some n => if decide (0 < n)%Z then take (Z.to_nat n) l else l
  | None => l
  end.

(** [pd.DataFrame(data)]: the rows under the labels 0, 1, 2, ... *)
Definition range_index (l : list Trade) : DataFrame :=
  imap (λ i t, mkRow (Z.of_nat i) t) l.

Definition get_trades (l : Ledger) (limit : option Z) : DataFrame :=
  range_index (apply_limit limit (order_by_date_desc l)).

(** One item of the dictionary [update_trade] receives: an attribute of
    [Trade] with a value of its column type, or a key that is no attribute. *)
Inductive assignment :=
| SetId (v : Z)
| SetDate (v : datetime)
| SetTicker (v : string)
| SetAssetType (v : string)
| SetTradeType (v : string)
| SetPrice (v : Qc)
| SetQuantity (v : Qc)
| SetFees (v : Qc)
| SetNotes (v : string)
| SetDetails (v : OptionDetails)
| SetTotalCost (v : Qc)
| SetRealizedPnl (v : Qc)
| SetUnrealizedPnl (v : Qc)
| SetCurrency (v : string)
| SetMarket (v : string)
| NoAttribute (key : string).

(** [if hasattr(trade, key): setattr(trade, key, value)] *)
Definition setattr_trade (t : Trade) (a : assignment) : Trade :=
  match a with
  | SetId v =>
      mkTrade v (date t) (ticker t) (asset_type t) (trade_type t)
        (price t) (quantity t) (fees t) (notes t) (details t) (total_cost t)
        (realized_pnl t) (unrealized_pnl t) (currency t) (market t)
  | SetDate v =>
      mkTrade (id t) v (ticker t) (asset_type t) (trade_type t) (price t)
        (quantity t) (fees t) (notes t) (details t) (total_cost t)
        (realized_pnl t) (unrealized_pnl t) (currency t) (market t)
  | SetTicker v =>
      mkTrade (id t) (date t) v (asset_type t) (trade_type t) (price t)
        (quantity t) (fees t) (notes t) (details t) (total_cost t)
        (realized_pnl t) (unrealized_pnl t) (currency t) (market t)
  | SetAssetType v =>
      mkTrade (id t) (date t) (ticker t) v (trade_type t) (price t)
        (quantity t) (fees t) (notes t) (details t) (total_cost t)
        (realized_pnl t) (unrealized_pnl t) (currency t) (market t)
  | SetTradeType v =>
      mkTrade (id t) (date t) (ticker t) (asset_type t) v (price t)
        (quantity t) (fees t) (notes t) (details t) (total_cost t)
        (realized_pnl t) (unrealized_pnl t) (currency t) (market t)
  | SetPrice v =>
      mkTrade (id t) (date t) (ticker t) (asset_type t) (trade_type t) v
        (quantity t) (fees t) (notes t) (details t) (total_cost t)
        (realized_pnl t) (unrealized_pnl t) (currency t) (market t)
  | SetQuantity v =>
      mkTrade (id t) (date t) (ticker t) (asset_type t) (trade_type t)
        (price t) v (fees t) (notes t) (details t) (total_cost t)
        (realized_pnl t) (unrealized_pnl t) (currency t) (market t)
  | SetFees v =>
      mkTrade (id t) (date t) (ticker t) (asset_type t) (trade_type t)
        (price t) (quantity t) v (notes t) (details t) (total_cost t)
        (realized_pnl t) (unrealized_pnl t) (currency t) (market t)
  | SetNotes v =>
      mkTrade (id t) (date t) (ticker t) (asset_type t) (trade_type t)
        (price t) (quantity t) (fees t) v (details t) (total_cost t)
        (realized_pnl t) (unrealized_pnl t) (currency t) (market t)
  | SetDetails v =>
      mkTrade (id t) (date t) (ticker t) (asset_type t) (trade_type t)
        (price t) (quantity t) (fees t) (notes t) v (total_cost t)
        (realized_pnl t) (unrealized_pnl t) (currency t) (market t)
  | SetTotalCost v =>
      mkTrade (id t) (date t) (ticker t) (asset_type t) (trade_type t)
        (price t) (quantity t) (fees t) (notes t) (details t) v
        (realized_pnl t) (unrealized_pnl t) (currency t) (market t)
  | SetRealizedPnl v => with_realized_pnl v t
  | SetUnrealizedPnl v => with_unrealized_pnl v t
  | SetCurrency v =>
      mkTrade (id t) (date t) (ticker t) (asset_type t) (trade_type t)
        (price t) (quantity t) (fees t) (notes t) (details t) (total_cost t)
        (realized_pnl t) (unrealized_pnl t) v (market t)
  | SetMarket v =>
      mkTrade (id t) (date t) (ticker t) (asset_type t) (trade_type t)
        (price t) (quantity t) (fees t) (notes t) (details t) (total_cost t)
        (realized_pnl t) (unrealized_pnl t) (currency t) v
  | NoAttribute _ => t
  end.

(** [session.query(Trade).filter(Trade.id == trade_id).first()] *)
Definition find_trade (l : Ledger) (trade_id : Z) : option Trade :=
  head (filter (λ t, id t = trade_id) l).

(** The commit fails on the primary key when the id was set to one that
    another record holds. *)
Definition update_trade (l : Ledger) (trade_id : Z)
    (trade_data : list assignment) : result bool * Ledger :=
  match find_trade l trade_id with
  | None => (Ok false, l)
  | Some trade =>
      let trade1 := fold_left setattr_trade trade_data trade in
      let trade2 :=
        setattr_trade trade1
          (SetTotalCost (price trade1 * quantity trade1 + fees trade1)) in
      if decide (id trade2 ∈ id <$> filter (λ t, id t ≠ trade_id) l)
      then (Raise (IntegrityError "trades.id"), l)
      else (Ok true, (λ t, if decide (id t = trade_id) then trade2 else t) <$> l)
  end.

Definition delete_trade (l : Ledger) (trade_id : Z) : result bool * Ledger :=
  match find_trade l trade_id with
  | None => (Ok false, l)
  | Some trade => (Ok true, filter (λ t, id t ≠ trade_id) l)
  end.

Definition reset_database (l : Ledger) : Ledger := [].

(** *** [import_from_csv] *)

(** A cell of the frame [pd.read_csv] builds from the file.  An empty cell
    is NaN: [str] makes "nan" of it, [float] NaN and [pd.to_datetime] NaT,
    none of them raising, and [pd.notna] is false.  Any other cell is known
    by what the three conversions make of it; [float] and [pd.to_datetime]
    raise where the cell has no such reading. *)
Inductive cell :=
| NA
| Value (s : string) (x : option Qc) (d : option datetime).

Abbreviation CsvRow := (gmap string cell).

(** A Python float: a number of the model, or NaN. *)
Inductive pyfloat :=
| Finite (x : Qc)
| NaN.

(** [str(c)] *)
Definition as_text (c : cell) : string :=
  match c with
  | NA => "nan"
  | Value s _ _ => s
  end.

(** [float(c)] *)
Definition to_float (c : cell) : result pyfloat :=
  match c with
  | NA => Ok NaN
  | Value _ (Some x) _ => Ok (Finite x)
  | Value _ None _ => Raise (ValueError "float")
  end.

(** [pd.to_datetime(c)]; [None] is NaT. *)
Definition to_datetime (c : cell) : result (option datetime) :=
  match c with
  | NA => Ok None
  | Value _ _ (Some d) => Ok (Some d)
  | Value _ _ None => Raise (ValueError "to_datetime")
  end.

(** [pd.notna(c)] *)
Definition notna (c : cell) : bool :=
  match c with
  | NA => false
  | Value _ _ _ => true
  end.

(** A cell handed as it is to a nullable column: NaN is stored as NULL. *)
Definition as_string (c : cell) : option string :=
  match c with
  | NA => None
  | Value s _ _ => Some s
  end.

Definition as_float (c : cell) : option Qc :=
  match c with
  | NA => None
  | Value _ x _ => x
  end.

(** The dictionary [trade_data] built from one row: its date may be NaT and
    its numbers NaN. *)
Record RowData := mkRowData {
  rd_date : option datetime;
  rd_ticker : string;
  rd_asset_type : string;
  rd_trade_type : string;
  rd_price : pyfloat;
  rd_quantity : pyfloat;
  rd_fees : pyfloat;
  rd_notes : string;
  rd_details : OptionDetails
}.

(** The dictionary built from one row, in the order of its entries. *)
Definition parse_row (row : CsvRow) : result RowData :=
  c_date ← dict_item row "date";
  d ← to_datetime c_date;
  c_ticker ← dict_item row "ticker";
  let asset := default "Stock"%string (as_text <$> row !! "asset_type") in
  c_type ← dict_item row "trade_type";
  c_price ← dict_item row "price";
  p ← to_float c_price;
  c_quantity ← dict_item row "quantity";
  q ← to_float c_quantity;
  f ← match row !! "fees" with
      | Some c => to_float c
      | None => Ok (Finite 0)
      end;
  let n := default ""%string (as_text <$> row !! "notes") in
  expiry ← match row !! "expiration_date" with
           | Some c => if notna c then to_datetime c else Ok None
           | None => Ok None
           end;
  Ok (mkRowData d (as_text c_ticker) asset (as_text c_type) p q f n
        (mkOption (row !! "option_type" ≫= as_string)
                  (row !! "strike_price" ≫= as_float)
                  expiry
                  (row !! "premium" ≫= as_float)
                  (row !! "strategy" ≫= as_string))).

(** The dictionary as [add_trade] is modelled to take it: with a date and
    with numbers for price, quantity and fees. *)
Definition trade_data_of (rd : RowData) : option TradeData :=
  match rd_date rd, rd_price rd, rd_quantity rd, rd_fees rd with
  | Some d, Finite p, Finite q, Finite f =>
      Some (mkTradeData d (rd_ticker rd) (rd_asset_type rd) (rd_trade_type rd)
                        p q (Some f) (Some (rd_notes rd)) (rd_details rd))
  | _, _, _, _ => None
  end.

(** The [price] and [quantity] columns are [nullable=False], and SQLite
    takes NaN for NULL. *)
Definition not_null_violated (rd : RowData) : bool :=
  match rd_price rd, rd_quantity rd with
  | Finite _, Finite _ => false
  | _, _ => true
  end.

(** The body of the loop for one row: counts and table afterwards.

    With NaN for price or quantity the INSERT of [add_trade] violates NOT
    NULL: [add_trade] rolls back and raises, and the row is counted as
    failed.  With price and quantity in order and NaN for fees, the record
    is stored with NULL for fees and total_cost; such a record (and one
    dated NaT) is none of the model, where these columns hold numbers and
    dates: the import has no outcome here, [None]. *)
Definition import_row (acc : Z * Z * Ledger) (row : CsvRow)
  : option (Z * Z * Ledger) :=
  let '(successful, failed, l) := acc in
  match parse_row row with
  | Ok rd =>
      match trade_data_of rd with
      | Some trade_data =>
          match add_trade l trade_data with
          | (Ok _, l') => Some ((successful + 1)%Z, failed, l')
          | (Raise _, l') => Some (successful, (failed + 1)%Z, l')
          end
      | None =>
          if not_null_violated rd then Some (successful, (failed + 1)%Z, l)
          else None
      end
  | Raise _ => Some (successful, (failed + 1)%Z, l)
  end.

Fixpoint import_rows (acc : Z * Z * Ledger) (rows : list CsvRow)
  : option (Z * Z * Ledger) :=
  match rows with
  | [] => Some acc
  | row :: rest => acc' ← import_row acc row; import_rows acc' rest
  end.

(** [file] is what [pd.read_csv] makes of the path: [None] when it raises. *)
Definition import_from_csv (l : Ledger) (file : option (list CsvRow))
  : option (Z * Z * Ledger) :=
  match file with
  | Some rows => import_rows (0%Z, 0%Z, l) rows
  | None => Some (0%Z, 0%Z, l)
  end.

(** ** The specification's aggregates, for comparison *)

(** "The final cumulative realized_pnl per instrument", summed over the
    instruments: per instrument the value on its chronologically last row. *)
Definition spec_final_realized {kind : SortKind} (df : DataFrame) : Qc :=
  sum_list
    ((λ t, from_option (realized_pnl ∘ trade) 0
             (last (sort_values (ticker_rows t df))))
       <$> unique ((ticker ∘ trade) <$> df)).

Definition spec_total_pnl {kind : SortKind} (df : DataFrame) : Qc :=
  spec_final_realized df + sum_list (unrealized_col df).

(** "Cumulative realized P&L ordered by timestamp across all instruments
    combined ... [max_drawdown] = minimum drawdown value across the series,
    0 if series empty." *)
Definition spec_max_drawdown {kind : SortKind} (df : DataFrame) : pyval :=
  match df with
  | [] => PyFloat 0
  | _ => series_min (drawdown (sort_values df))
  end.

(** The drawdown series, point by point: the cumulative realized P&L of the
    first [k + 1] rows, and the largest cumulative value reached so far. *)
Definition prefix_sum (l : list Qc) (k : nat) : Qc := sum_list (take (S k) l).

Definition running_max_at (l : list Qc) (k : nat) (M : Qc) : Prop :=
  (∃ j, (j ≤ k)%nat ∧ M = prefix_sum l j)
  ∧ ∀ j, (j ≤ k)%nat → prefix_sum l j ≤ M.

(** ** Concrete trades used in the examples *)

Definition jan (n : Z) : datetime := mkDate 2024 1 n 9 30 0.

(** A stock trade as [add_trade] stores it, before any replay. *)
Definition stock (i : Z) (dt : datetime) (tk ty : string) (p q f : Z) : Trade :=
  mkTrade i dt tk "Stock" ty (Qc_of_Z p) (Qc_of_Z q) (Qc_of_Z f) ""
          no_option (Qc_of_Z p * Qc_of_Z q + Qc_of_Z f) 0 0 "USD" "US".

(** Scenario A: Buy 10 at 100, then Sell 10 at 120, no fees. *)
Definition scenario_A : Ledger :=
  [ stock 1 (jan 2) "ACME" "Buy" 100 10 0;
    stock 2 (jan 3) "ACME" "Sell" 120 10 0 ].

(** Scenario B: Buy 10 at 100, Sell 5 at 90, Sell 5 at 110, no fees. *)
Definition scenario_B : Ledger :=
  [ stock 1 (jan 2) "ACME" "Buy" 100 10 0;
    stock 2 (jan 3) "ACME" "Sell" 90 5 0;
    stock 3 (jan 4) "ACME" "Sell" 110 5 0 ].

(** A round trip followed by a new Buy of the same instrument. *)
Definition buy_after_sell : Ledger :=
  scenario_A ++ [ stock 3 (jan 5) "ACME" "Buy" 100 1 0 ].

(** A Buy of 5, an over-sized Sell of 10 that leaves the position at -5, and
    one more Sell. *)
Definition oversold : Ledger :=
  [ stock 1 (jan 2) "ACME" "Buy" 100 5 0;
    stock 2 (jan 3) "ACME" "Sell" 110 10 0;
    stock 3 (jan 4) "ACME" "Sell" 120 3 0 ].

(** Two instruments, interleaved, and the same rows with the instruments
    shuffled against each other. *)
Definition two_instruments : DataFrame :=
  [ mkRow 0 (stock 1 (jan 2) "ACME" "Buy" 100 10 0);
    mkRow 1 (stock 2 (jan 2) "INIT" "Buy" 50 4 1);
    mkRow 2 (stock 3 (jan 3) "ACME" "Sell" 120 10 0);
    mkRow 3 (stock 4 (jan 4) "INIT" "Sell" 40 4 1) ].

Definition two_instruments_shuffled : DataFrame :=
  [ mkRow 1 (stock 2 (jan 2) "INIT" "Buy" 50 4 1);
    mkRow 0 (stock 1 (jan 2) "ACME" "Buy" 100 10 0);
    mkRow 3 (stock 4 (jan 4) "INIT" "Sell" 40 4 1);
    mkRow 2 (stock 3 (jan 3) "ACME" "Sell" 120 10 0) ].

(** Two records with persisted realized P&L: +100 on the earlier one, -50 on
    the later one. *)
Definition gain_then_loss : Ledger :=
  [ with_realized_pnl (Qc_of_Z 100) (stock 1 (jan 2) "ACME" "Sell" 120 10 0);
    with_realized_pnl (Qc_of_Z (-50)) (stock 2 (jan 3) "ACME" "Sell" 90 5 0) ].

(** [{'price': 100.0, 'avg_loss': 50.0}]: no winning trade on record. *)
Definition no_wins : gmap string Qc :=
  list_to_map [ ("price"%string, Qc_of_Z 100); ("avg_loss"%string, Qc_of_Z 50) ].

(** A CSV row with the five required columns. *)
Definition text (s : string) : cell := Value s None None.
Definition number (n : Z) : cell := Value "" (Some (Qc_of_Z n)) None.
Definition timestamp (dt : datetime) : cell := Value "" None (Some dt).

Definition csv_row (dt : datetime) (tk ty : string) (p q : Z) : CsvRow :=
  list_to_map
    [ ("date"%string, timestamp dt); ("ticker"%string, text tk);
      ("trade_type"%string, text ty); ("price"%string, number p);
      ("quantity"%string, number q) ].

(** Scenario E: five rows, the third with a negative quantity. *)
Definition scenario_E : list CsvRow :=
  [ csv_row (jan 2) "ACME" "Buy" 100 10;
    csv_row (jan 3) "ACME" "Sell" 120 4;
    csv_row (jan 4) "ACME" "Sell" 110 (-5);
    csv_row (jan 5) "INIT" "Buy" 50 4;
    csv_row (jan 6) "INIT" "Sell" 60 4 ].

Definition parsed (dt : datetime) (tk ty : string) (p q : Z) : TradeData :=
  mkTradeData dt tk "Stock" ty (Qc_of_Z p) (Qc_of_Z q) (Some 0) (Some ""%string)
              no_option.

(** What Scenario A must come to on a frame whose row labelled [sell] is the
    Sell. *)
Definition scenario_A_outcome {kind : SortKind} (df : DataFrame) (sell : Z) : Prop :=
  ∃ out r m,
    calculate_pnl df = Ok out
    ∧ loc out sell = Some r
    ∧ trade_type (trade r) = "Sell"%string
    ∧ realized_pnl (trade r) = Qc_of_Z 200
    ∧ calculate_metrics out = Ok m
    ∧ m !! "win_rate"%string = Some (PyFloat (Qc_of_Z 100))
    ∧ m !! "profit_factor"%string = Some PyInf.

(** ** [TradingCalculator.calculate_unrealized_pnl]

    [get_live_price] asks a market-data service; it enters as a function from
    tickers to the price it returns, [None] when it fails. *)

(** [df.loc[df['ticker'] == t, 'unrealized_pnl'] = v] *)
Definition mask_set_unrealized (t : string) (v : Qc) (df : DataFrame)
  : DataFrame :=
  (λ r, if decide (ticker (trade r) = t)
        then mkRow (idx r) (with_unrealized_pnl v (trade r)) else r) <$> df.

(** [rows[rows['trade_type'] == ty]] *)
Definition of_type (ty : string) (rows : list Row) : list Row :=
  filter (λ r, trade_type (trade r) = ty) rows.

Definition quantity_col (df : DataFrame) : list Qc := (quantity ∘ trade) <$> df.

(** The body of the loop for one ticker.  The average cost is a pandas
    division: on a zero divisor it yields an infinity or NaN instead of
    raising.  Such a value cannot be held by a row of the model; the result
    is [None] when one is written to the frame. *)
Definition unrealized_ticker {kind : SortKind} (get_live_price : string → option Qc)
    (df : DataFrame) (t : string) : option DataFrame :=
  let ticker_trades := sort_values (ticker_rows t df) in
  let position :=
    sum_list (quantity_col (of_type "Buy" ticker_trades))
    - sum_list (quantity_col (of_type "Sell" ticker_trades)) in
  if decide (0 < position) then
    let buy_trades := of_type "Buy" ticker_trades in
    let total_cost := sum_list (total_cost_col buy_trades) in
    let bought := sum_list (quantity_col buy_trades) in
    match get_live_price t with
    | Some live_price =>
        if decide (live_price = 0) then Some df
        else if decide (bought = 0) then None
        else
          let avg_cost := total_cost / bought in
          let unrealized_pnl := (live_price - avg_cost) * position in
          Some (mask_set_unrealized t unrealized_pnl df)
    | None => Some df
    end
  else Some df.

Fixpoint unrealized_tickers {kind : SortKind} (get_live_price : string → option Qc)
    (tickers : list string) (df : DataFrame) : option DataFrame :=
  match tickers with
  | [] => Some df
  | t :: rest =>
      df' ← unrealized_ticker get_live_price df t;
      unrealized_tickers get_live_price rest df'
  end.

(** As for [calculate_pnl], [df['ticker']] raises on the frame without rows,
    which has no columns. *)
Definition calculate_unrealized_pnl {kind : SortKind}
    (get_live_price : string → option Qc) (trades_df : DataFrame)
  : result (option DataFrame) :=
  let df := trades_df in
  match df with
  | [] => Raise (KeyError "ticker")
  | _ =>
      Ok (unrealized_tickers get_live_price (unique ((ticker ∘ trade) <$> df))
            df)
  end.

(** What the loop writes for a ticker, as a function of the frame. *)
Definition open_position (df : DataFrame) (t : string) : Qc :=
  sum_list (quantity_col (of_type "Buy" (ticker_rows t df)))
  - sum_list (quantity_col (of_type "Sell" (ticker_rows t df))).

Definition average_buy_cost (df : DataFrame) (t : string) : Qc :=
  sum_list (total_cost_col (of_type "Buy" (ticker_rows t df)))
  / sum_list (quantity_col (of_type "Buy" (ticker_rows t df))).

(** The value written on the rows of a ticker, if one is written: the
    position is long and a non-zero price is quoted. *)
Definition valuation (get_live_price : string → option Qc) (df : DataFrame)
    (t : string) : option Qc :=
  if decide (0 < open_position df t) then
    match get_live_price t with
    | Some live_price =>
        if decide (live_price = 0) then None
        else Some ((live_price - average_buy_cost df t) * open_position df t)
    | None => None
    end
  else None.

Definition revalue (v : option Qc) (r : Row) : Row :=
  match v with
  | Some x => mkRow (idx r) (with_unrealized_pnl x (trade r))
  | None => r
  end.

(** A row with the [unrealized_pnl] column blanked. *)
Definition without_unrealized (r : Row) : Row :=
  mkRow (idx r) (with_unrealized_pnl 0 (trade r)).

(** A map over the rows that changes [unrealized_pnl] only. *)
Definition revaluation (f : Row → Row) : Prop :=
  ∀ r, without_unrealized (f r) = without_unrealized r.

(** ** The entries of [calculate_risk_metrics] *)

(** [max_shares]: the whole units whose stop-loss distance fits in one
    percent of the account. *)
Definition max_shares_of (account_value p stop_loss_pct : Qc) : Z :=
  if decide (0 < p * stop_loss_pct)
  then pyint (account_value * dec 1 100 / (p * stop_loss_pct)) else 0%Z.

(** ** [DatabaseManager.get_trade_stats] *)

Definition get_trade_stats (l : Ledger) : result (gmap string pyval) :=
  let df := get_trades l None in
  match df with
  | [] =>
      Ok (list_to_map
            [ ("total_trades"%string, PyInt 0); ("total_pnl"%string, PyInt 0);
              ("win_rate"%string, PyInt 0); ("avg_win"%string, PyInt 0);
              ("avg_loss"%string, PyInt 0); ("max_drawdown"%string, PyInt 0) ])
  | _ =>
      let total_trades := Z.of_nat (length df) in
      let total_pnl := sum_list (realized_col df) + sum_list (unrealized_col df) in
      let winning_trades := filter (λ r, 0 < realized_pnl (trade r)) df in
      let losing_trades := filter (λ r, realized_pnl (trade r) < 0) df in
      win_rate ← (if decide (0 < total_trades)%Z
                  then ratio ← pydiv (Qc_of_Z (Z.of_nat (length winning_trades)))
                                     (Qc_of_Z total_trades);
                       Ok (PyFloat (ratio * Qc_of_Z 100))
                  else Ok (PyInt 0));
      let avg_win :=
        if decide (0 < length winning_trades)%nat
        then series_mean (realized_col winning_trades) else PyInt 0 in
      let avg_loss :=
        if decide (0 < length losing_trades)%nat
        then series_mean (realized_col losing_trades) else PyInt 0 in
      let max_drawdown := series_min (drawdown df) in
      Ok (list_to_map
            [ ("total_trades"%string, PyInt total_trades);
              ("total_pnl"%string, PyFloat total_pnl);
              ("win_rate"%string, win_rate);
              ("avg_win"%string, avg_win);
              ("avg_loss"%string, avg_loss);
              ("max_drawdown"%string, max_drawdown) ])
  end.

(** ** The session of [app.py]

    The two entries of the session state the handlers work on: the ledger
    behind [db] and the cached frame [trades_df]. *)

Record Session := mkSession {
  db : Ledger;
  trades_df : DataFrame
}.

(** What a handler shows: [st.success] with the id of the new trade, or
    [st.error]. *)
Inductive notice :=
| Success (trade_id : Z)
| Failure.

(** The fields of the stock form. *)
Record StockForm := mkStockForm {
  sf_date : datetime;
  sf_ticker : string;
  sf_trade_type : string;
  sf_price : Qc;
  sf_quantity : Qc;
  sf_fees : Qc;
  sf_notes : string
}.

(** The submit branch of the stock form; [upper] is [str.upper]. *)
Definition submit_stock_trade (upper : string → string) (s : Session)
    (f : StockForm) : Session * notice :=
  if decide (sf_ticker f ≠ ""%string ∧ 0 < sf_price f ∧ 0 < sf_quantity f) then
    let trade_data :=
      mkTradeData (sf_date f) (upper (sf_ticker f)) "Stock" (sf_trade_type f)
                  (sf_price f) (sf_quantity f) (Some (sf_fees f))
                  (Some (sf_notes f)) no_option in
    match add_trade (db s) trade_data with
    | (Ok trade_id, l') => (mkSession l' (get_trades l' None), Success trade_id)
    | (Raise _, l') => (mkSession l' (trades_df s), Failure)
    end
  else (s, Failure).

(** The fields of the options form. *)
Record OptionForm := mkOptionForm {
  of_date : datetime;
  of_ticker : string;
  of_trade_type : string;
  of_option_type : string;
  of_strike_price : Qc;
  of_premium : Qc;
  of_contracts : Z;
  of_expiration : datetime;
  of_strategy : string;
  of_fees : Qc;
  of_notes : string
}.

Definition submit_option_trade (upper : string → string) (s : Session)
    (f : OptionForm) : Session * notice :=
  if decide (of_ticker f ≠ ""%string ∧ 0 < of_premium f
             ∧ (0 < of_contracts f)%Z ∧ 0 < of_strike_price f) then
    let trade_data :=
      mkTradeData (of_date f) (upper (of_ticker f)) "Option" (of_trade_type f)
                  (of_premium f) (Qc_of_Z (of_contracts f)) (Some (of_fees f))
                  (Some (of_notes f))
                  (mkOption (Some (of_option_type f)) (Some (of_strike_price f))
                            (Some (of_expiration f)) (Some (of_premium f))
                            (Some (of_strategy f))) in
    match add_trade (db s) trade_data with
    | (Ok trade_id, l') => (mkSession l' (get_trades l' None), Success trade_id)
    | (Raise _, l') => (mkSession l' (trades_df s), Failure)
    end
  else (s, Failure).

(** "Refresh Data". *)
Definition refresh_data (s : Session) : Session :=
  mkSession (db s) (get_trades (db s) None).

(** "Import CSV": the counts shown and the session afterwards, where the
    import has an outcome. *)
Definition import_csv (s : Session) (file : option (list CsvRow))
  : option (Session * (Z * Z)) :=
  '(successful, failed, l') ← import_from_csv (db s) file;
  Some (mkSession l' (get_trades l' None), (successful, failed)).

(** "Reset Database": [reset_database] has no [return], so the call yields
    [None] and the handler takes its [else] branch. *)
Definition reset_button (s : Session) : Session * notice :=
  let l' := reset_database (db s) in
  let returned : option bool := None in
  match returned with
  | Some true => (mkSession l' (get_trades l' None), Success 0)
  | _ => (mkSession l' (trades_df s), Failure)
  end.

(** The handlers of the entry forms and of the quick actions as one
    transition function. *)
Inductive action :=
| SubmitStock (f : StockForm)
| SubmitOption (f : OptionForm)
| RefreshData
| ResetDatabase.

Definition handle (upper : string → string) (s : Session) (a : action)
  : Session :=
  match a with
  | SubmitStock f => (submit_stock_trade upper s f).1
  | SubmitOption f => (submit_option_trade upper s f).1
  | RefreshData => refresh_data s
  | ResetDatabase => (reset_button s).1
  end.

(** The cached frame shows the ledger. *)
Definition coherent (s : Session) : Prop :=
  trades_df s = get_trades (db s) None.

(** The record [add_trade] builds from its dictionary. *)
Definition new_record (l : Ledger) (trade_data : TradeData) : Trade :=
  mkTrade (next_id l) (td_date trade_data) (td_ticker trade_data)
          (td_asset_type trade_data) (td_trade_type trade_data)
          (td_price trade_data) (td_quantity trade_data)
          (default 0 (td_fees trade_data))
          (default ""%string (td_notes trade_data))
          (td_details trade_data)
          (td_price trade_data * td_quantity trade_data
           + default 0 (td_fees trade_data))
          0 0
          (if ends_with ".HK" (td_ticker trade_data)
           then "HKD"%string else "USD"%string)
          (if ends_with ".HK" (td_ticker trade_data)
           then "HK"%string else "US"%string).

(** ** Invariants of the ledger *)

(** The primary key. *)
Definition unique_ids (l : Ledger) : Prop := NoDup (id <$> l).

(** [total_cost] is the stored price times quantity plus fees. *)
Definition costs_consistent (l : Ledger) : Prop :=
  Forall (λ t, total_cost t = price t * quantity t + fees t) l.

(** No P&L has been persisted. *)
Definition never_replayed (l : Ledger) : Prop :=
  Forall (λ t, realized_pnl t = 0 ∧ unrealized_pnl t = 0) l.

(** Every stored price and quantity is positive. *)
Definition positive_entries (l : Ledger) : Prop :=
  Forall (λ t, 0 < price t ∧ 0 < quantity t) l.

(** The timestamp of a cell that is not empty and reads as one. *)
Definition as_date (c : cell) : option datetime :=
  match c with
  | NA => None
  | Value _ _ d => d
  end.

(** The rows of a CSV file that [import_from_csv] stores: the five required
    columns are there, the date, price and quantity cells are filled in and
    read as a date and as numbers, and so does the fees cell where the file
    has the column; the expiration_date cell, where the file has the column,
    is empty or reads as a date. *)
Definition importable (row : CsvRow) : Prop :=
  is_Some (row !! "date"%string ≫= as_date)
  ∧ is_Some (row !! "ticker"%string)
  ∧ is_Some (row !! "trade_type"%string)
  ∧ is_Some (row !! "price"%string ≫= as_float)
  ∧ is_Some (row !! "quantity"%string ≫= as_float)
  ∧ (∀ c, row !! "fees"%string = Some c → is_Some (as_float c))
  ∧ (∀ c, row !! "expiration_date"%string = Some c →
       c = NA ∨ is_Some (as_date c)).

(** No row of the file has an empty date or fees cell. *)
Definition dated_and_charged (rows : list CsvRow) : Prop :=
  Forall (λ row, row !! "date"%string ≠ Some NA
               ∧ row !! "fees"%string ≠ Some NA) rows.

(** The trade data of the update leave the primary key alone. *)
Definition keeps_id (trade_data : list assignment) : Prop :=
  Forall (λ a, ∀ v, a ≠ SetId v) trade_data.

(** ** More concrete inputs *)

(** The replayed Scenario B frame with stale P&L persisted on its rows. *)
Definition stale_B : DataFrame :=
  (λ r, mkRow (idx r)
          (with_unrealized_pnl (Qc_of_Z 7)
             (with_realized_pnl (Qc_of_Z 99) (trade r))))
    <$> get_trades scenario_B None.

(** Three Buys of one instrument. *)
Definition three_buys : list Row :=
  [ mkRow 0 (stock 1 (jan 2) "ACME" "Buy" 100 10 5);
    mkRow 1 (stock 2 (jan 3) "ACME" "Buy" 110 5 5);
    mkRow 2 (stock 3 (jan 4) "ACME" "Buy" 90 5 0) ].

(** A long position of 6 units bought at 100 and 110. *)
Definition long_position : DataFrame :=
  [ mkRow 0 (stock 1 (jan 2) "ACME" "Buy" 100 5 0);
    mkRow 1 (stock 2 (jan 3) "ACME" "Buy" 110 5 0);
    mkRow 2 (stock 3 (jan 4) "ACME" "Sell" 120 4 0) ].

Definition quote_115 (t : string) : option Qc :=
  if decide (t = "ACME"%string) then Some (Qc_of_Z 115) else None.

Definition no_quotes (t : string) : option Qc := None.

(** A stand-in for [str.upper] on text already in upper case. *)
Definition id_string (s : string) : string := s.

(** A stock form filled in for 10 units at 100. *)
Definition acme_form : StockForm :=
  mkStockForm (jan 2) "ACME" "Buy" (Qc_of_Z 100) (Qc_of_Z 10) 0 "".


(** ** The order of dates, and the stable sort as a kind of sort *)

Lemma lex_leb_total a b : lex_leb a b = false → lex_leb b a = true.
Proof.
  revert b. induction a as [|x a IH]; intros [|y b]; simpl; try done.
  repeat case_decide; try done; try lia. apply IH.
Qed.

Lemma lex_leb_trans a b c :
  length a = length b → length b = length c →
  lex_leb a b = true → lex_leb b c = true → lex_leb a c = true.
Proof.
  revert b c. induction a as [|x a IH]; intros [|y b] [|z c]; simpl; try done.
  intros [= Hab] [= Hbc].
  repeat case_decide; try done; try lia. by apply IH.
Qed.

Lemma lex_leb_antisym a b :
  length a = length b → lex_leb a b = true → lex_leb b a = true → a = b.
Proof.
  revert b. induction a as [|x a IH]; intros [|y b]; simpl; try done.
  intros [= Hab].
  repeat case_decide; try done; try lia.
  intros H1 H2. f_equal; [lia|by apply IH].
Qed.

Lemma date_leb_total a b : date_leb a b = false → date_leb b a = true.
Proof. apply lex_leb_total. Qed.

Lemma date_leb_trans a b c :
  date_leb a b = true → date_leb b c = true → date_leb a c = true.
Proof. by apply lex_leb_trans. Qed.

Lemma date_leb_antisym a b :
  date_leb a b = true → date_leb b a = true → a = b.
Proof.
  intros H1 H2.
  assert (E : datetime_key a = datetime_key b) by by apply lex_leb_antisym.
  destruct a, b. by injection E as -> -> -> -> -> ->.
Qed.

Global Instance date_le_trans : Transitive date_le.
Proof. intros a b c. apply date_leb_trans. Qed.

Lemma insert_by_date_perm r l : insert_by_date r l ≡ₚ r :: l.
Proof.
  induction l as [|x l IH]; [done|].
  simpl. destruct (date_leb (date (trade r)) (date (trade x))); [done|].
  rewrite IH. apply Permutation_swap.
Qed.

Lemma insert_by_date_sorted r l :
  Sorted date_le l → Sorted date_le (insert_by_date r l).
Proof.
  induction 1 as [|x l Hl IH Hhd]; simpl.
  - by repeat constructor.
  - destruct (date_leb (date (trade r)) (date (trade x))) eqn:E.
    + constructor; [by constructor|]. by constructor.
    + constructor; [done|].
      destruct Hhd as [|y l' Hy]; simpl.
      * constructor. by apply date_leb_total.
      * destruct (date_leb (date (trade r)) (date (trade y))); constructor;
          [by apply date_leb_total|done].
Qed.

Lemma insert_by_date_fmap (f : Row → Row) r l :
  (∀ r, date (trade (f r)) = date (trade r)) →
  insert_by_date (f r) (f <$> l) = f <$> insert_by_date r l.
Proof.
  intros Hf. induction l as [|x l IH]; [done|].
  csimpl. rewrite !Hf.
  destruct (date_leb (date (trade r)) (date (trade x))); [done|].
  csimpl. by rewrite IH.
Qed.

Lemma stable_sort_values_perm (df : DataFrame) : stable_sort_values df ≡ₚ df.
Proof.
  induction df as [|r df IH]; [done|].
  unfold stable_sort_values in *. simpl. by rewrite insert_by_date_perm, IH.
Qed.

Lemma stable_sort_values_sorted (df : DataFrame) :
  Sorted date_le (stable_sort_values df).
Proof.
  induction df as [|r df IH]; [constructor|].
  by apply insert_by_date_sorted.
Qed.

Lemma stable_sort_values_by_date (f : Row → Row) (df : DataFrame) :
  (∀ r, date (trade (f r)) = date (trade r)) →
  stable_sort_values (f <$> df) = f <$> stable_sort_values df.
Proof.
  intros Hf. induction df as [|r df IH]; [done|].
  unfold stable_sort_values in *. csimpl. rewrite IH.
  by apply insert_by_date_fmap.
Qed.

Definition stable_sort : SortKind :=
  Build_SortKind stable_sort_values stable_sort_values_perm
                 stable_sort_values_sorted stable_sort_values_by_date.

(** Where no two rows have the same date there is one ascending order, and
    every kind of sort arrives at it. *)
Lemma ascending_unique (l1 l2 : list Row) :
  NoDup ((date ∘ trade) <$> l1) →
  Sorted date_le l1 → Sorted date_le l2 → l1 ≡ₚ l2 → l1 = l2.
Proof.
  intros Hnd H1 H2 Hp. apply (Sorted_unique_strong date_le); [|done..].
  intros x1 x2 Hx1 Hx2 H12 H21.
  assert (Hd : date (trade x1) = date (trade x2)) by by apply date_leb_antisym.
  rewrite <-Hp in Hx2.
  apply list_elem_of_lookup_1 in Hx1 as [i Hi].
  apply list_elem_of_lookup_1 in Hx2 as [j Hj].
  assert (i = j) as ->; [|congruence].
  apply (NoDup_lookup _ i j (date (trade x1)) Hnd).
  - by rewrite list_lookup_fmap, Hi.
  - by rewrite list_lookup_fmap, Hj, Hd.
Qed.

Lemma sort_values_tie_free (k1 k2 : SortKind) (df : DataFrame) :
  NoDup ((date ∘ trade) <$> df) →
  @sort_values k1 df = @sort_values k2 df.
Proof.
  intros Hnd. apply ascending_unique.
  - by rewrite sort_values_perm.
  - apply sort_values_sorted.
  - apply sort_values_sorted.
  - by rewrite !sort_values_perm.
Qed.

Lemma sort_values_ascending {kind : SortKind} (df : DataFrame) :
  NoDup ((date ∘ trade) <$> df) → Sorted date_le df → sort_values df = df.
Proof.
  intros Hnd Hs. apply ascending_unique.
  - by rewrite sort_values_perm.
  - apply sort_values_sorted.
  - done.
  - apply sort_values_perm.
Qed.

(** ** Proof steps for closed goals

    Two canonical rationals are equal when their fractions are: the proofs of
    canonicity they carry need not be compared. *)

Ltac qc_eq := apply Qc_is_canon; vm_compute; reflexivity.

Ltac qc_neq :=
  let H := fresh in
  intros H; apply (f_equal this) in H; vm_compute in H; discriminate.

Ltac qc_struct :=
  first [ reflexivity
        | apply Qc_is_canon; vm_compute; reflexivity
        | f_equal; qc_struct ].

Ltac nonempty :=
  let H := fresh in
  intros H; apply (f_equal length) in H; vm_compute in H; discriminate.

Ltac unique_labels := apply (bool_decide_unpack _); vm_compute; reflexivity.
(** * Properties *)

Section replay.
Context {kind : SortKind}.

(** ** The replay never raises *)

Lemma step_advance st r : step st (trade r) = Ok (advance st r).
Proof.
  unfold step, advance, trade_pnl. set (trade := trade r).
  destruct (is_buy trade); [done|].
  destruct (decide (0 < position st)) as [Hpos|]; [|done].
  unfold pydiv.
  destruct (decide (position st = 0)) as [E|_].
  { rewrite E in Hpos. by apply Qclt_not_eq in Hpos. }
  simpl.
  destruct (decide (0 < position st - quantity trade)); [|done].
  replace (position st - quantity trade + quantity trade) with (position st) by ring.
  destruct (decide (position st = 0)) as [E|_]; [|done].
  rewrite E in Hpos. by apply Qclt_not_eq in Hpos.
Qed.

Lemma realized_advance st r :
  realized (advance st r) = realized st + trade_pnl st (trade r).
Proof.
  unfold advance, trade_pnl.
  destruct (is_buy (trade r)); simpl; [ring|].
  destruct (decide (0 < position st)); simpl; [done|ring].
Qed.

(** *** The inner loop is its list of writes *)

Lemma replay_writes rows st df :
  replay rows st df = Ok (apply_writes (writes rows st) df).
Proof.
  revert st df. induction rows as [|r rest IH]; intros st df; [done|].
  simpl. rewrite step_advance. simpl. apply IH.
Qed.

Lemma stamp_stamp v w r : stamp v (stamp w r) = stamp v r.
Proof. done. Qed.

Lemma idx_stamp v r : idx (stamp v r) = idx r.
Proof. done. Qed.

Lemma loc_set_both j v df :
  loc_set j (with_unrealized_pnl 0) (loc_set j (with_realized_pnl v) df)
  = (λ r, if decide (idx r = j) then stamp v r else r) <$> df.
Proof.
  unfold loc_set. rewrite <-list_fmap_compose.
  apply list_fmap_ext. intros _ r _. unfold compose.
  destruct (decide (idx r = j)) as [E|Hne].
  - by rewrite decide_True.
  - by rewrite decide_False.
Qed.

Lemma apply_writes_fmap W df : apply_writes W df = written W <$> df.
Proof.
  revert df. induction W as [|[j v] W IH]; intros df.
  - simpl. unfold written. simpl. by rewrite list_fmap_id.
  - simpl. rewrite loc_set_both, IH, <-list_fmap_compose.
    apply list_fmap_ext. intros _ r _. unfold written, compose. simpl.
    destruct (decide (idx r = j)) as [E|Hne].
    + rewrite idx_stamp, (decide_True (P := j = idx r)) by done.
      by destruct (last_write (idx r) W).
    + rewrite (decide_False (P := j = idx r)) by done.
      by destruct (last_write (idx r) W).
Qed.

(** *** What the replay reads is never written *)

Lemma inputs_written W r : inputs (written W r) = inputs r.
Proof. unfold written. by destruct (last_write (idx r) W). Qed.

Lemma inputs_fmap_written W (df : DataFrame) : inputs <$> (written W <$> df) = inputs <$> df.
Proof.
  rewrite <-list_fmap_compose. apply list_fmap_ext. intros _ r _.
  apply inputs_written.
Qed.

Lemma advance_inputs st r : advance st (inputs r) = advance st r.
Proof. done. Qed.

Lemma writes_inputs (rows : list Row) st : writes (inputs <$> rows) st = writes rows st.
Proof.
  revert st. induction rows as [|r rows IH]; intros st; [done|].
  simpl. rewrite advance_inputs. f_equal. apply IH.
Qed.

Lemma ticker_rows_inputs t (df : DataFrame) :
  ticker_rows t (inputs <$> df) = inputs <$> ticker_rows t df.
Proof.
  unfold ticker_rows. induction df as [|r df IH]; [done|].
  csimpl. rewrite !filter_cons. simpl.
  destruct (decide (ticker (trade r) = t)); csimpl; by rewrite IH.
Qed.

Lemma sort_values_inputs (df : DataFrame) :
  sort_values (inputs <$> df) = inputs <$> sort_values df.
Proof. by apply sort_values_by_date. Qed.

Lemma group_writes_inputs t (df df0 : DataFrame) :
  inputs <$> df = inputs <$> df0 →
  writes (sort_values (ticker_rows t df)) flat
  = writes (sort_values (ticker_rows t df0)) flat.
Proof.
  intros E.
  rewrite <-(writes_inputs (sort_values (ticker_rows t df))).
  rewrite <-(writes_inputs (sort_values (ticker_rows t df0))).
  by rewrite <-!sort_values_inputs, <-!ticker_rows_inputs, E.
Qed.

Lemma apply_writes_app W1 W2 df :
  apply_writes (W1 ++ W2) df = apply_writes W2 (apply_writes W1 df).
Proof. unfold apply_writes. apply fold_left_app. Qed.

Lemma replay_tickers_writes tickers (df0 df : DataFrame) :
  inputs <$> df = inputs <$> df0 →
  replay_tickers tickers df = Ok (apply_writes (all_writes tickers df0) df).
Proof.
  revert df. induction tickers as [|t rest IH]; intros df E; [done|].
  simpl. rewrite replay_writes. simpl.
  unfold all_writes. simpl. fold (all_writes rest df0).
  rewrite apply_writes_app, <-(group_writes_inputs t df df0 E).
  apply IH. rewrite apply_writes_fmap, inputs_fmap_written. exact E.
Qed.

Lemma calculate_pnl_nil : calculate_pnl [] = Raise (KeyError "ticker").
Proof. done. Qed.

(** On a frame with rows [calculate_pnl] returns, and what it returns is the
    frame with each row stamped with the last value written under its
    label. *)
Lemma calculate_pnl_written (df : DataFrame) :
  df ≠ [] →
  calculate_pnl df
  = Ok (written (all_writes (unique ((ticker ∘ trade) <$> df)) df) <$> df).
Proof.
  intros Hdf. unfold calculate_pnl. destruct df as [|r df]; [done|].
  rewrite (replay_tickers_writes _ (r :: df) (r :: df) eq_refl).
  by rewrite apply_writes_fmap.
Qed.

Lemma calculate_pnl_cases (df : DataFrame) :
  (df = [] ∧ calculate_pnl df = Raise (KeyError "ticker"))
  ∨ (df ≠ []
     ∧ calculate_pnl df
       = Ok (written (all_writes (unique ((ticker ∘ trade) <$> df)) df) <$> df)).
Proof.
  destruct df as [|r df]; [by left|].
  right. split; [done|]. by apply calculate_pnl_written.
Qed.

(** *** Sorting and grouping *)

Lemma elem_of_group r t (df : DataFrame) :
  r ∈ sort_values (ticker_rows t df) ↔ r ∈ df ∧ ticker (trade r) = t.
Proof.
  rewrite sort_values_perm. unfold ticker_rows.
  rewrite list_elem_of_filter. tauto.
Qed.

Lemma unique_from_elem {A} `{EqDecision A} (x : A) seen l :
  x ∈ unique_from seen l ↔ x ∈ l ∧ x ∉ seen.
Proof.
  revert seen. induction l as [|y l IH]; intros seen; simpl.
  - rewrite elem_of_nil. tauto.
  - destruct (decide (y ∈ seen)) as [Hy|Hy].
    + rewrite IH, elem_of_cons. split; [tauto|].
      intros [[->|?] ?]; tauto.
    + rewrite elem_of_cons, IH, !elem_of_cons.
      destruct (decide (x = y)) as [->|Hne]; [tauto|]. tauto.
Qed.

Lemma elem_of_unique {A} `{EqDecision A} (x : A) l : x ∈ unique l ↔ x ∈ l.
Proof.
  unfold unique. rewrite unique_from_elem, elem_of_nil. tauto.
Qed.

Lemma label_inj (df : DataFrame) r r' :
  NoDup (idx <$> df) → r ∈ df → r' ∈ df → idx r = idx r' → r = r'.
Proof.
  induction df as [|x df IH]; intros Hnd Hr Hr' E.
  - by apply elem_of_nil in Hr.
  - csimpl in Hnd. apply NoDup_cons in Hnd as [Hx Hnd].
    apply elem_of_cons in Hr as [->|Hr]; apply elem_of_cons in Hr' as [->|Hr'].
    + done.
    + exfalso. apply Hx. rewrite E. by apply list_elem_of_fmap_2.
    + exfalso. apply Hx. rewrite <-E. by apply list_elem_of_fmap_2.
    + by apply IH.
Qed.

Lemma filter_none {A} (P : A → Prop) `{∀ x, Decision (P x)} (l : list A) :
  (∀ y, y ∈ l → ¬ P y) → filter P l = [].
Proof.
  induction l as [|x l IH]; intros Hl; [done|].
  rewrite filter_cons_False by (apply Hl; by left).
  apply IH. intros y Hy. apply Hl. by right.
Qed.

Lemma filter_label (df : DataFrame) r :
  NoDup (idx <$> df) → r ∈ df → filter (λ x, idx x = idx r) df = [r].
Proof.
  induction df as [|x df IH]; intros Hnd Hr.
  - by apply elem_of_nil in Hr.
  - pose proof Hnd as Hnd'. csimpl in Hnd'.
    apply NoDup_cons in Hnd' as [Hx Hnd'].
    rewrite filter_cons.
    destruct (decide (idx x = idx r)) as [E|Hne].
    + assert (x = r) as ->.
      { apply (label_inj (x :: df)); [done|by left|done|done]. }
      f_equal. apply filter_none. intros y Hy Ey.
      apply Hx. rewrite <-Ey. by apply list_elem_of_fmap_2.
    + apply elem_of_cons in Hr as [->|Hr]; [done|]. by apply IH.
Qed.

(** *** Reading the writes back *)

Lemma writes_labels (rows : list Row) st : (writes rows st).*1 = idx <$> rows.
Proof.
  revert st. induction rows as [|r rows IH]; intros st; [done|].
  csimpl. by rewrite IH.
Qed.

Lemma last_write_None i W : last_write i W = None ↔ i ∉ W.*1.
Proof.
  induction W as [|[j v] W IH]; simpl.
  - rewrite elem_of_nil. tauto.
  - rewrite not_elem_of_cons, <-IH.
    destruct (last_write i W); [intuition congruence|].
    destruct (decide (j = i)); intuition congruence.
Qed.

Lemma last_write_app i W1 W2 :
  last_write i (W1 ++ W2)
  = match last_write i W2 with
    | Some v => Some v
    | None => last_write i W1
    end.
Proof.
  induction W1 as [|w W1 IH]; simpl.
  - by destruct (last_write i W2).
  - rewrite IH. by destruct (last_write i W2).
Qed.

Lemma run_snoc rows r st : run (rows ++ [r]) st = advance (run rows st) r.
Proof. unfold run. by rewrite fold_left_app. Qed.

Lemma last_write_group (pre post : list Row) r st :
  NoDup (idx <$> (pre ++ r :: post)) →
  last_write (idx r) (writes (pre ++ r :: post) st)
  = Some (realized (run (pre ++ [r]) st)).
Proof.
  revert st. induction pre as [|x pre IH]; intros st Hnd.
  - csimpl in *. apply NoDup_cons in Hnd as [Hr _].
    rewrite <-(writes_labels post (advance st r)) in Hr.
    apply last_write_None in Hr. rewrite Hr. by rewrite decide_True.
  - csimpl in Hnd. apply NoDup_cons in Hnd as [_ Hnd].
    simpl. by rewrite (IH _ Hnd).
Qed.

Lemma group_NoDup t (df : DataFrame) :
  NoDup (idx <$> df) → NoDup (idx <$> sort_values (ticker_rows t df)).
Proof.
  intros Hnd. rewrite sort_values_perm. unfold ticker_rows.
  induction df as [|x df IH]; [done|].
  csimpl in Hnd. apply NoDup_cons in Hnd as [Hx Hnd].
  rewrite filter_cons. destruct (decide (ticker (trade x) = t)); [|by apply IH].
  csimpl. apply NoDup_cons. split; [|by apply IH].
  intros [y [E Hy]]%list_elem_of_fmap_1.
  apply Hx. rewrite E. apply list_elem_of_fmap_2.
  by apply list_elem_of_filter in Hy as [_ Hy].
Qed.

(** The value written under a row's label depends on the row's own ticker
    group only. *)
Lemma last_write_own_group tickers (df : DataFrame) r :
  NoDup (idx <$> df) → r ∈ df → ticker (trade r) ∈ tickers →
  last_write (idx r) (all_writes tickers df)
  = last_write (idx r)
      (writes (sort_values (ticker_rows (ticker (trade r)) df)) flat).
Proof.
  intros Hnd Hr.
  assert (Hother : ∀ t, t ≠ ticker (trade r) →
    last_write (idx r) (writes (sort_values (ticker_rows t df)) flat) = None).
  { intros t Ht. apply last_write_None. rewrite writes_labels.
    intros [y [E Hy]]%list_elem_of_fmap_1.
    apply elem_of_group in Hy as [Hy Hty].
    apply Ht. rewrite <-Hty. by rewrite (label_inj df r y Hnd Hr Hy E). }
  assert (Hall : ∀ ts, ticker (trade r) ∉ ts → last_write (idx r) (all_writes ts df) = None).
  { induction ts as [|t ts IH]; intros Hts; [done|].
    apply not_elem_of_cons in Hts as [Hne Hts].
    unfold all_writes. csimpl. fold (all_writes ts df).
    rewrite last_write_app, (IH Hts). by apply Hother. }
  induction tickers as [|t ts IH]; intros Hin.
  - by apply elem_of_nil in Hin.
  - unfold all_writes. csimpl. fold (all_writes ts df).
    rewrite last_write_app.
    destruct (decide (ticker (trade r) ∈ ts)) as [Hts|Hts].
    + rewrite (IH Hts).
      destruct (last_write (idx r)
                  (writes (sort_values (ticker_rows (ticker (trade r)) df)) flat)) eqn:E;
        [done|].
      exfalso. apply last_write_None in E. apply E. rewrite writes_labels.
      apply list_elem_of_fmap_2. by apply elem_of_group.
    + rewrite (Hall ts Hts).
      apply elem_of_cons in Hin as [->|Hin]; [done|tauto].
Qed.

Lemma loc_fmap (f : Row → Row) (df : DataFrame) i :
  (∀ r, idx (f r) = idx r) → loc (f <$> df) i = f <$> loc df i.
Proof.
  intros Hf. unfold loc. induction df as [|x df IH]; [done|].
  csimpl. rewrite !filter_cons, Hf.
  destruct (decide (idx x = i)); [done|apply IH].
Qed.

Lemma idx_written W r : idx (written W r) = idx r.
Proof. unfold written. by destruct (last_write (idx r) W). Qed.

(** The row labelled like [r] after the replay of a frame with unique labels:
    [r] stamped with the cumulative realized P&L of its ticker group up to
    and including [r]. *)
Lemma calculate_pnl_loc (df : DataFrame) t pre r post :
  NoDup (idx <$> df) →
  sort_values (ticker_rows t df) = pre ++ r :: post →
  ∃ df', calculate_pnl df = Ok df'
       ∧ loc df' (idx r) = Some (stamp (realized (run (pre ++ [r]) flat)) r).
Proof.
  intros Hnd Hgroup.
  assert (r ∈ df ∧ ticker (trade r) = t) as [Hr Ht].
  { apply elem_of_group. rewrite Hgroup, elem_of_app, elem_of_cons. tauto. }
  eexists. split.
  { apply calculate_pnl_written. intros ->. by apply elem_of_nil in Hr. }
  rewrite loc_fmap by apply idx_written.
  unfold loc. rewrite (filter_label df r Hnd Hr). simpl. f_equal.
  unfold written. rewrite (last_write_own_group _ df r Hnd Hr).
  - rewrite Ht, Hgroup, last_write_group; [done|].
    rewrite <-Hgroup. by apply group_NoDup.
  - apply elem_of_unique. by apply (list_elem_of_fmap_2 (ticker ∘ trade)).
Qed.

(** The frames [get_trades] builds carry the labels 0, 1, 2, ...: unique. *)
Lemma range_index_labels_from (l : list Trade) (k : nat) :
  idx <$> imap (λ i t, mkRow (Z.of_nat (k + i)) t) l
  = Z.of_nat <$> seq k (length l).
Proof.
  revert k. induction l as [|t l IH]; intros k; [done|].
  csimpl. rewrite Nat.add_0_r. f_equal.
  rewrite <-(IH (S k)). f_equal. apply imap_ext. intros i x _. simpl.
  do 2 f_equal. lia.
Qed.

Lemma get_trades_labels (l : Ledger) limit : NoDup (idx <$> get_trades l limit).
Proof.
  unfold get_trades, range_index.
  rewrite (range_index_labels_from _ 0).
  apply (NoDup_fmap_2 _), NoDup_seq.
Qed.

(** ** Cumulative realized P&L *)

Lemma sum_list_app l1 l2 : sum_list (l1 ++ l2) = sum_list l1 + sum_list l2.
Proof.
  induction l1 as [|x l1 IH]; simpl; [ring|]. rewrite IH. ring.
Qed.

Lemma run_app rows1 rows2 st : run (rows1 ++ rows2) st = run rows2 (run rows1 st).
Proof. unfold run. apply fold_left_app. Qed.

Lemma contributions_app rows1 rows2 st :
  contributions (rows1 ++ rows2) st
  = contributions rows1 st ++ contributions rows2 (run rows1 st).
Proof.
  revert st. induction rows1 as [|r rows1 IH]; intros st; [done|].
  simpl. by rewrite IH.
Qed.

(** The running [realized_pnl] is the sum of the contributions so far. *)
Lemma realized_run rows st :
  realized (run rows st) = realized st + sum_list (contributions rows st).
Proof.
  revert st. induction rows as [|r rows IH]; intros st; simpl; [ring|].
  unfold run in *. rewrite IH, realized_advance. ring.
Qed.

Lemma trade_pnl_buy st t : trade_type t = "Buy"%string → trade_pnl st t = 0.
Proof.
  intros E. unfold trade_pnl, is_buy. by rewrite bool_decide_eq_true_2.
Qed.

Lemma advance_buy st r :
  trade_type (trade r) = "Buy"%string →
  advance st r = mkPosition (position st + quantity (trade r))
                            (cost st + total_cost (trade r))
                            (realized st).
Proof.
  intros E. unfold advance, is_buy. by rewrite bool_decide_eq_true_2.
Qed.

Lemma contributions_buys rows st :
  Forall (λ x, trade_type (trade x) = "Buy"%string) rows →
  sum_list (contributions rows st) = 0.
Proof.
  intros Hall. revert st. induction Hall as [|r rows Hr _ IH]; intros st; [done|].
  simpl. rewrite IH, trade_pnl_buy by done. ring.
Qed.

Lemma realized_run_flat rows :
  realized (run rows flat) = sum_list (contributions rows flat).
Proof. rewrite realized_run. simpl. ring. Qed.

(** ** [calculate_metrics] never raises *)

Lemma Qc_of_Z_eq_0 n : Qc_of_Z n = 0 → n = 0%Z.
Proof.
  intros E. apply (f_equal this) in E. simpl in E.
  by injection E.
Qed.

Lemma pydiv_ok a b : b ≠ 0 → pydiv a b = Ok (a / b).
Proof. intros Hb. unfold pydiv. by rewrite decide_False. Qed.

Lemma win_loss_returns (df : DataFrame) : returns (win_loss df).
Proof.
  unfold returns, win_loss.
  destruct (filter _ df) as [|x l] eqn:E; [by eexists|].
  rewrite pydiv_ok.
  - simpl. by eexists.
  - intros H%Qc_of_Z_eq_0. simpl in H. lia.
Qed.

Lemma calculate_metrics_returns (df : DataFrame) : returns (calculate_metrics df).
Proof.
  unfold returns, calculate_metrics. destruct df as [|r df]; [by eexists|].
  destruct (win_loss_returns (r :: df)) as [[[[w aw] al] pf] ->].
  simpl. by eexists.
Qed.

(** The entries of the returned dictionary that the claims read. *)
Lemma metrics_entries (df : DataFrame) m :
  calculate_metrics df = Ok m → df ≠ [] →
  ∃ w aw al pf,
    win_loss df = Ok (w, aw, al, pf)
    ∧ m !! "total_trades"%string = Some (PyInt (Z.of_nat (length df)))
    ∧ m !! "total_pnl"%string
      = Some (PyFloat (sum_list (realized_col df) + sum_list (unrealized_col df)))
    ∧ m !! "win_rate"%string = Some w
    ∧ m !! "profit_factor"%string = Some pf
    ∧ m !! "max_drawdown"%string = Some (series_min (drawdown df)).
Proof.
  unfold calculate_metrics. destruct df as [|r df]; [done|]. intros Hm _.
  destruct (win_loss (r :: df)) as [[[[w aw] al] pf]|e]; [|done].
  simpl in Hm. injection Hm as <-. exists w, aw, al, pf.
  split; [done|]. split; [by rewrite lookup_insert_eq|].
  split; [by rewrite lookup_insert_ne, lookup_insert_eq|].
  split; [by do 2 (rewrite lookup_insert_ne by done); rewrite lookup_insert_eq|].
  split; [by do 5 (rewrite lookup_insert_ne by done); rewrite lookup_insert_eq|].
  by do 6 (rewrite lookup_insert_ne by done); rewrite lookup_insert_eq.
Qed.

Lemma metrics_total_pnl (df : DataFrame) m :
  calculate_metrics df = Ok m → df ≠ [] →
  m !! "total_pnl"%string
  = Some (PyFloat (sum_list (realized_col df) + sum_list (unrealized_col df))).
Proof.
  intros Hm Hdf. by destruct (metrics_entries df m Hm Hdf) as (?&?&?&?&?&?&?&?).
Qed.

Lemma metrics_max_drawdown (df : DataFrame) m :
  calculate_metrics df = Ok m → df ≠ [] →
  m !! "max_drawdown"%string = Some (series_min (drawdown df)).
Proof.
  intros Hm Hdf.
  by destruct (metrics_entries df m Hm Hdf) as (?&?&?&?&?&?&?&?&?&?).
Qed.

(** ** The claims about the replay *)

Lemma written_own_group (df : DataFrame) r :
  NoDup (idx <$> df) → r ∈ df →
  written (all_writes (unique ((ticker ∘ trade) <$> df)) df) r
  = written (writes (sort_values (ticker_rows (ticker (trade r)) df)) flat) r.
Proof.
  intros Hnd Hr. unfold written. rewrite last_write_own_group; [done..|].
  apply elem_of_unique. by apply (list_elem_of_fmap_2 (ticker ∘ trade)).
Qed.

Lemma loc_perm (df df' : DataFrame) i :
  NoDup (idx <$> df) → df' ≡ₚ df → loc df' i = loc df i.
Proof.
  intros Hnd Hp.
  assert (Hnd' : NoDup (idx <$> df')) by by rewrite Hp.
  unfold loc.
  destruct (decide (i ∈ idx <$> df)) as [[r [-> Hr]]%list_elem_of_fmap_1|Hi].
  - rewrite (filter_label df r Hnd Hr), (filter_label df' r Hnd'); [done|].
    by rewrite Hp.
  - rewrite !filter_none; [done|..]; intros y Hy <-; apply Hi;
      apply list_elem_of_fmap_2; [done|by rewrite <-Hp].
Qed.

(** C9. Order-independence across instruments: on a frame with unique index
    labels, a permutation of the rows that keeps the rows of every
    instrument in their relative order leaves the replayed row of every
    label, hence every trade's realized_pnl, unchanged.  (The two replays
    return whenever the frame has a row; on the frame without rows both
    raise the same exception.) *)
Theorem replay_order_independent (df df' : DataFrame) :
  NoDup (idx <$> df) →
  df' ≡ₚ df →
  (∀ t, ticker_rows t df' = ticker_rows t df) →
  match calculate_pnl df, calculate_pnl df' with
  | Ok out, Ok out' => out' ≡ₚ out ∧ ∀ i, loc out' i = loc out i
  | Raise e, Raise e' => e = e'
  | _, _ => False
  end
  ∧ (df ≠ [] → returns (calculate_pnl df) ∧ returns (calculate_pnl df')).
Proof.
  intros Hnd Hp Hgroups.
  destruct (decide (length df = 0%nat)) as [Hlen|Hlen].
  { apply nil_length_inv in Hlen as ->. apply Permutation_nil_r in Hp as ->.
    by split. }
  assert (Hdf : df ≠ []) by by intros ->.
  assert (Hdf' : df' ≠ []).
  { intros ->. by apply Permutation_nil_l in Hp. }
  assert (Hnd' : NoDup (idx <$> df')) by by rewrite Hp.
  assert (Hsame : ∀ r, r ∈ df →
    written (all_writes (unique ((ticker ∘ trade) <$> df')) df') r
    = written (all_writes (unique ((ticker ∘ trade) <$> df)) df) r).
  { intros r Hr. rewrite (written_own_group df r Hnd Hr).
    rewrite (written_own_group df' r Hnd') by by rewrite Hp.
    by rewrite Hgroups. }
  rewrite (calculate_pnl_written df Hdf), (calculate_pnl_written df' Hdf').
  split; [|intros _; split; by eexists]. split.
  - etrans; [by apply fmap_Permutation|].
    erewrite list_fmap_ext; [done|].
    intros k r Hk. apply Hsame. by eapply list_elem_of_lookup_2.
  - intros i. rewrite !loc_fmap by apply idx_written.
    rewrite (loc_perm df df' i Hnd Hp).
    destruct (loc df i) as [r|] eqn:E; [|done]. simpl. f_equal.
    apply Hsame. unfold loc in E. apply head_Some_elem_of in E.
    by apply list_elem_of_filter in E as [_ E].
Qed.

(** C6. A Sell met while the instrument's open quantity is not positive
    (any row that is not a Buy is replayed as a Sell): the replay returns,
    the row contributes 0, position, cost basis and cumulative realized P&L
    stay as they were, and the metrics of the replayed frame are computed
    without an exception.  [pre], [r] and [post] are the rows of the
    instrument in the order in which the replay takes them, whatever the
    kind of sort. *)
Theorem sell_without_position (df : DataFrame) t pre r post :
  NoDup (idx <$> df) →
  sort_values (ticker_rows t df) = pre ++ r :: post →
  trade_type (trade r) ≠ "Buy"%string →
  position (run pre flat) ≤ 0 →
  ∃ df', calculate_pnl df = Ok df'
       ∧ step (run pre flat) (trade r) = Ok (run pre flat)
       ∧ trade_pnl (run pre flat) (trade r) = 0
       ∧ run (pre ++ [r]) flat = run pre flat
       ∧ loc df' (idx r) = Some (stamp (realized (run pre flat)) r)
       ∧ returns (calculate_metrics df').
Proof.
  intros Hnd Hgroup Hsell Hpos.
  assert (Hadv : advance (run pre flat) r = run pre flat).
  { unfold advance, is_buy. rewrite bool_decide_eq_false_2 by done.
    rewrite decide_False; [done|]. by apply Qcle_not_lt. }
  destruct (calculate_pnl_loc df t pre r post Hnd Hgroup) as (df' & Hdf & Hloc).
  exists df'. split; [done|]. split; [by rewrite step_advance, Hadv|].
  split; [|split; [|split]].
  - unfold trade_pnl, is_buy. rewrite bool_decide_eq_false_2 by done.
    rewrite decide_False; [done|]. by apply Qcle_not_lt.
  - by rewrite run_snoc.
  - by rewrite Hloc, run_snoc, Hadv.
  - apply calculate_metrics_returns.
Qed.

(** C2 (amended). A Buy adds its quantity to the open quantity and its
    total cost to the cost basis and realizes nothing; the realized_pnl
    written on its row is the instrument's cumulative realized P&L as it
    stood before the Buy, which is 0 when only Buys precede it.  [pre], [r]
    and [post] are the rows of the instrument in the order in which the
    replay takes them, whatever the kind of sort. *)
Theorem buy_keeps_cumulative (df : DataFrame) t pre r post :
  NoDup (idx <$> df) →
  sort_values (ticker_rows t df) = pre ++ r :: post →
  trade_type (trade r) = "Buy"%string →
  ∃ df', calculate_pnl df = Ok df'
       ∧ step (run pre flat) (trade r)
         = Ok (mkPosition (position (run pre flat) + quantity (trade r))
                          (cost (run pre flat) + total_cost (trade r))
                          (realized (run pre flat)))
       ∧ run (pre ++ [r]) flat
         = mkPosition (position (run pre flat) + quantity (trade r))
                      (cost (run pre flat) + total_cost (trade r))
                      (realized (run pre flat))
       ∧ trade_pnl (run pre flat) (trade r) = 0
       ∧ loc df' (idx r) = Some (stamp (realized (run pre flat)) r)
       ∧ (Forall (λ x, trade_type (trade x) = "Buy"%string) pre →
          loc df' (idx r) = Some (stamp 0 r)).
Proof.
  intros Hnd Hgroup Hbuy.
  destruct (calculate_pnl_loc df t pre r post Hnd Hgroup) as (df' & Hdf & Hloc).
  exists df'. split; [done|].
  split; [by rewrite step_advance, (advance_buy _ _ Hbuy)|].
  rewrite run_snoc, (advance_buy _ _ Hbuy) in Hloc |- *. simpl in Hloc.
  split; [done|]. split; [by apply trade_pnl_buy|]. split; [done|].
  intros Hpre. by rewrite Hloc, realized_run_flat, contributions_buys.
Qed.

(** C1 (amended). On the replayed frame, the realized_pnl of a row that no
    Sell of its instrument follows (in particular the instrument's last
    chronological Sell) is the sum of all close-out contributions of the
    instrument; and the total_pnl of [calculate_metrics] is the sum of the
    realized_pnl of all rows plus the sum of their unrealized_pnl.  [pre],
    [r] and [post] are the rows of the instrument in the order in which the
    replay takes them, whatever the kind of sort. *)
Theorem cumulative_and_total_pnl (df : DataFrame) t pre r post :
  NoDup (idx <$> df) →
  sort_values (ticker_rows t df) = pre ++ r :: post →
  Forall (λ x, trade_type (trade x) = "Buy"%string) post →
  ∃ df' r' m,
    calculate_pnl df = Ok df'
    ∧ loc df' (idx r) = Some r'
    ∧ realized_pnl (trade r')
      = sum_list (contributions (sort_values (ticker_rows t df)) flat)
    ∧ calculate_metrics df' = Ok m
    ∧ m !! "total_pnl"%string
      = Some (PyFloat (sum_list (realized_col df')
                       + sum_list (unrealized_col df'))).
Proof.
  intros Hnd Hgroup Hpost.
  destruct (calculate_pnl_loc df t pre r post Hnd Hgroup) as (df' & Hdf & Hloc).
  destruct (calculate_metrics_returns df') as [m Hm].
  exists df', (stamp (realized (run (pre ++ [r]) flat)) r), m.
  split; [done|]. split; [done|]. split; [|split; [done|]].
  - simpl. rewrite realized_run_flat, Hgroup.
    rewrite (cons_middle r pre post), app_assoc.
    rewrite (contributions_app (pre ++ [r]) post), sum_list_app.
    rewrite (contributions_buys post) by done. ring.
  - apply metrics_total_pnl; [done|]. intros ->. by apply head_Some_elem_of, elem_of_nil in Hloc.
Qed.

(** ** Drawdown *)

Lemma pymax_l a b : a ≤ pymax a b.
Proof.
  unfold pymax. destruct (decide (a < b)); [by apply Qclt_le_weak|done].
Qed.

Lemma pymax_r a b : b ≤ pymax a b.
Proof.
  unfold pymax. destruct (decide (a < b)); [done|by apply Qcnot_lt_le].
Qed.

Lemma pymax_cases a b : pymax a b = a ∨ pymax a b = b.
Proof. unfold pymax. destruct (decide (a < b)); auto. Qed.

Lemma pymin_l a b : pymin a b ≤ a.
Proof.
  unfold pymin. destruct (decide (b < a)); [by apply Qclt_le_weak|done].
Qed.

Lemma pymin_r a b : pymin a b ≤ b.
Proof.
  unfold pymin. destruct (decide (b < a)); [done|by apply Qcnot_lt_le].
Qed.

Lemma pymin_cases a b : pymin a b = a ∨ pymin a b = b.
Proof. unfold pymin. destruct (decide (b < a)); auto. Qed.

Lemma fold_pymin_spec l x :
  fold_left pymin l x ∈ x :: l ∧ ∀ y, y ∈ x :: l → fold_left pymin l x ≤ y.
Proof.
  revert x. induction l as [|z l IH]; intros x; simpl.
  - split; [by left|]. by intros y ->%list_elem_of_singleton.
  - destruct (IH (pymin x z)) as [Hin Hle]. split.
    + apply elem_of_cons in Hin as [->|Hin]; [|by do 2 right].
      destruct (pymin_cases x z) as [->| ->]; [by left|by right; left].
    + intros y [->|[->|Hy]%elem_of_cons]%elem_of_cons.
      * etrans; [apply Hle; by left|apply pymin_l].
      * etrans; [apply Hle; by left|apply pymin_r].
      * apply Hle. by right.
Qed.

Lemma cumsum_from_length acc l : length (cumsum_from acc l) = length l.
Proof. revert acc. induction l; intros acc; simpl; [done|]. by rewrite IHl. Qed.

Lemma cumsum_from_lookup acc l k :
  (k < length l)%nat →
  cumsum_from acc l !! k = Some (acc + prefix_sum l k).
Proof.
  revert acc k. induction l as [|x l IH]; intros acc k Hk; simpl in *; [lia|].
  destruct k as [|k]; simpl.
  - unfold prefix_sum. simpl. f_equal. ring.
  - rewrite IH by lia. unfold prefix_sum. simpl. f_equal. ring.
Qed.

Lemma cumsum_lookup l k :
  (k < length l)%nat → cumsum l !! k = Some (prefix_sum l k).
Proof.
  intros Hk. unfold cumsum. rewrite cumsum_from_lookup by done. f_equal. ring.
Qed.

Lemma expanding_max_from_lookup m l k :
  (k < length l)%nat →
  ∃ M, expanding_max_from m l !! k = Some M
     ∧ (M = m ∨ ∃ j, (j ≤ k)%nat ∧ l !! j = Some M)
     ∧ m ≤ M
     ∧ ∀ j x, (j ≤ k)%nat → l !! j = Some x → x ≤ M.
Proof.
  revert m k. induction l as [|y l IH]; intros m k Hk; simpl in *; [lia|].
  destruct k as [|k]; simpl.
  - exists (pymax m y). split; [done|]. split; [|split].
    + destruct (pymax_cases m y) as [->| ->]; [by left|].
      right. exists 0%nat. by split.
    + apply pymax_l.
    + intros [|j] x Hj Hx; [|lia]. simpl in Hx. injection Hx as <-.
      apply pymax_r.
  - destruct (IH (pymax m y) k) as (M & HM & Hin & Hle & Hall); [lia|].
    exists M. split; [done|]. split; [|split].
    + destruct Hin as [->|(j & Hj & Hjx)].
      * destruct (pymax_cases m y) as [->| ->]; [by left|].
        right. exists 0%nat. split; [lia|done].
      * right. exists (S j). split; [lia|done].
    + etrans; [apply pymax_l|done].
    + intros [|j] x Hj Hx; simpl in Hx.
      * injection Hx as <-. etrans; [apply pymax_r|done].
      * eapply Hall; [|done]. lia.
Qed.

Lemma expanding_max_lookup l k :
  (k < length l)%nat →
  ∃ M, expanding_max l !! k = Some M
     ∧ (∃ j, (j ≤ k)%nat ∧ l !! j = Some M)
     ∧ ∀ j x, (j ≤ k)%nat → l !! j = Some x → x ≤ M.
Proof.
  destruct l as [|y l]; simpl; [lia|]. intros Hk.
  destruct k as [|k]; simpl.
  - exists y. split; [done|]. split; [by exists 0%nat|].
    intros [|j] x Hj Hx; [|lia]. by injection Hx as <-.
  - destruct (expanding_max_from_lookup y l k) as (M & HM & Hin & Hle & Hall);
      [lia|].
    exists M. split; [done|]. split.
    + destruct Hin as [->|(j & Hj & Hjx)].
      * exists 0%nat. split; [lia|done].
      * exists (S j). split; [lia|done].
    + intros [|j] x Hj Hx; simpl in Hx.
      * by injection Hx as <-.
      * eapply Hall; [|done]. lia.
Qed.

Lemma drawdown_lookup (df : DataFrame) k :
  (k < length df)%nat →
  ∃ M, running_max_at (realized_col df) k M
     ∧ drawdown df !! k = Some (prefix_sum (realized_col df) k - M).
Proof.
  intros Hk. unfold drawdown. set (l := realized_col df).
  assert (Hl : length l = length df) by apply length_fmap.
  destruct (expanding_max_lookup (cumsum l) k) as (M & HM & (j & Hj & Hjx) & Hall).
  { unfold cumsum. rewrite cumsum_from_length. lia. }
  exists M. split; [split|].
  - exists j. split; [done|].
    rewrite cumsum_lookup in Hjx by lia. by injection Hjx.
  - intros i Hi. apply (Hall i); [done|]. apply cumsum_lookup. lia.
  - unfold series_sub. rewrite lookup_zip_with, cumsum_lookup, HM by lia. done.
Qed.

Lemma expanding_max_length l : length (expanding_max l) = length l.
Proof.
  destruct l as [|x l]; simpl; [done|]. f_equal.
  generalize x. induction l as [|y l IH]; intros m; simpl; [done|]. by f_equal.
Qed.

Lemma drawdown_length (df : DataFrame) : length (drawdown df) = length df.
Proof.
  unfold drawdown, series_sub, cumsum, realized_col.
  rewrite length_zip_with, expanding_max_length, cumsum_from_length, length_fmap.
  lia.
Qed.

Lemma drawdown_nonpos (df : DataFrame) x : x ∈ drawdown df → x ≤ 0.
Proof.
  intros [k Hk]%list_elem_of_lookup_1.
  assert (k < length df)%nat as Hlt.
  { rewrite <-drawdown_length. by eapply lookup_lt_Some. }
  destruct (drawdown_lookup df k Hlt) as (M & [_ Hmax] & Hdd).
  rewrite Hdd in Hk. injection Hk as <-.
  specialize (Hmax k (le_n k)).
  apply (Qcplus_le_mono_r _ _ (- M)) in Hmax.
  replace (M + - M) with 0 in Hmax by ring. done.
Qed.

(** C8 (amended). On a non-empty trade set whose rows stand in ascending
    order of timestamp, [calculate_metrics] builds the cumulative realized
    P&L over the rows, all instruments combined, takes its running maximum,
    subtracts it point by point (every drawdown is at most 0) and reports
    the least drawdown as max_drawdown; where no two rows have the same
    timestamp this is the drawdown of the specification.  For the empty
    trade set the returned dictionary is empty and holds no max_drawdown. *)
Theorem max_drawdown_of_rows (r : Row) (df : DataFrame) :
  Sorted date_le (r :: df) →
  calculate_metrics [] = Ok ∅
  ∧ ∃ m v,
      calculate_metrics (r :: df) = Ok m
      ∧ m !! "max_drawdown"%string = Some (PyFloat v)
      ∧ v ∈ drawdown (r :: df)
      ∧ (∀ x, x ∈ drawdown (r :: df) → v ≤ x ∧ x ≤ 0)
      ∧ (∀ k, (k < length (r :: df))%nat →
          ∃ M, running_max_at (realized_col (r :: df)) k M
             ∧ drawdown (r :: df) !! k
               = Some (prefix_sum (realized_col (r :: df)) k - M))
      ∧ (NoDup ((date ∘ trade) <$> r :: df) →
         spec_max_drawdown (r :: df) = PyFloat v).
Proof.
  intros Hasc. split; [done|].
  destruct (calculate_metrics_returns (r :: df)) as [m Hm].
  pose proof (metrics_max_drawdown (r :: df) m Hm) as Hdd.
  assert (Hspec : NoDup ((date ∘ trade) <$> r :: df) →
                  spec_max_drawdown (r :: df) = series_min (drawdown (r :: df))).
  { intros Hnd. unfold spec_max_drawdown.
    by rewrite (sort_values_ascending (r :: df) Hnd Hasc). }
  destruct (drawdown (r :: df)) as [|x l] eqn:E.
  { apply (f_equal length) in E. rewrite drawdown_length in E. done. }
  destruct (fold_pymin_spec l x) as [Hin Hle].
  exists m, (fold_left pymin l x). split; [done|]. split; [by apply Hdd|].
  split; [done|]. split; [|split; [|done]].
  - intros y Hy. split; [by apply Hle|].
    apply (drawdown_nonpos (r :: df)). by rewrite E.
  - intros k Hk. rewrite <-E. by apply drawdown_lookup.
Qed.

(** ** Evaluation on concrete inputs *)


Lemma scenario_A_on (df : DataFrame) (sell : Z) out r :
  calculate_pnl df = Ok out →
  loc out sell = Some r →
  trade_type (trade r) = "Sell"%string →
  realized_pnl (trade r) = Qc_of_Z 200 →
  win_loss out = Ok (PyFloat (Qc_of_Z 100), PyFloat (Qc_of_Z 200), PyInt 0, PyInf) →
  scenario_A_outcome df sell.
Proof.
  intros Hout Hloc Hsell Hpnl Hwl.
  destruct (calculate_metrics_returns out) as [m Hm].
  exists out, r, m. do 4 (split; [done|]). split; [done|].
  destruct (metrics_entries out m Hm) as (w & aw & al & pf & Hwl' & _ & _ & Hw & Hpf & _).
  { intros ->. by apply head_Some_elem_of, elem_of_nil in Hloc. }
  rewrite Hwl in Hwl'. injection Hwl' as <- <- <- <-. done.
Qed.

End replay.

(** *** Frames without ties

    Where no two rows of an instrument have the same date, every kind of
    sort replays the frame alike. *)

Lemma ticker_rows_tie_free (df : DataFrame) :
  Forall (λ t, NoDup ((date ∘ trade) <$> ticker_rows t df))
         (unique ((ticker ∘ trade) <$> df)) →
  ∀ t, NoDup ((date ∘ trade) <$> ticker_rows t df).
Proof.
  intros Hall t.
  destruct (decide (t ∈ unique ((ticker ∘ trade) <$> df))) as [Ht|Ht].
  - by apply (proj1 (Forall_forall _ _) Hall).
  - unfold ticker_rows. rewrite filter_none; [constructor|].
    intros r Hr E. apply Ht, elem_of_unique. rewrite <-E.
    by apply (list_elem_of_fmap_2 (ticker ∘ trade)).
Qed.

Lemma all_writes_tie_free (k1 k2 : SortKind) tickers (df : DataFrame) :
  (∀ t, NoDup ((date ∘ trade) <$> ticker_rows t df)) →
  @all_writes k1 tickers df = @all_writes k2 tickers df.
Proof.
  intros Hnd. induction tickers as [|t ts IH]; [done|].
  unfold all_writes in *. csimpl. rewrite IH.
  by rewrite (sort_values_tie_free k1 k2 _ (Hnd t)).
Qed.

Lemma calculate_pnl_tie_free (k1 k2 : SortKind) (df : DataFrame) :
  (∀ t, NoDup ((date ∘ trade) <$> ticker_rows t df)) →
  @calculate_pnl k1 df = @calculate_pnl k2 df.
Proof.
  intros Hnd. destruct df as [|r df]; [done|].
  rewrite !calculate_pnl_written by done.
  by rewrite (all_writes_tie_free k1 k2 _ _ Hnd).
Qed.
(** No two rows of an instrument of the (closed) frame have the same
    date. *)
Ltac tie_free :=
  apply ticker_rows_tie_free, (bool_decide_unpack _); vm_compute; reflexivity.

(** C7. Scenario A: Buy 10 at 100 then Sell 10 at 120 without fees. The
    replay writes 200 on the Sell row, and the metrics of the replayed frame
    have win_rate 100 and the unbounded profit_factor; both on the frame as
    [get_trades] returns it (latest first) and on the frame in order of
    entry, and whatever the kind of sort (the two dates differ). *)
Theorem scenario_A_replay (kind : SortKind) :
  scenario_A_outcome (get_trades scenario_A None) 0
  ∧ scenario_A_outcome (range_index scenario_A) 1.
Proof.
  split.
  - eapply scenario_A_on.
    + rewrite (calculate_pnl_tie_free kind stable_sort) by tie_free.
      vm_compute. reflexivity.
    + vm_compute. reflexivity.
    + reflexivity.
    + qc_eq.
    + vm_compute; qc_struct.
  - eapply scenario_A_on.
    + rewrite (calculate_pnl_tie_free kind stable_sort) by tie_free.
      vm_compute. reflexivity.
    + vm_compute. reflexivity.
    + reflexivity.
    + qc_eq.
    + vm_compute; qc_struct.
Qed.

(** *** The examples

    The frames of the examples have no two rows of an instrument with the
    same date: every kind of sort replays them alike.  They are evaluated
    with the stable sort. *)

Lemma examples_replay_alike (kind : SortKind) :
  calculate_pnl (get_trades scenario_B None)
  = calculate_pnl (kind := stable_sort) (get_trades scenario_B None)
  ∧ calculate_pnl (get_trades buy_after_sell None)
    = calculate_pnl (kind := stable_sort) (get_trades buy_after_sell None)
  ∧ calculate_pnl (get_trades oversold None)
    = calculate_pnl (kind := stable_sort) (get_trades oversold None)
  ∧ calculate_pnl two_instruments
    = calculate_pnl (kind := stable_sort) two_instruments
  ∧ calculate_pnl two_instruments_shuffled
    = calculate_pnl (kind := stable_sort) two_instruments_shuffled
  ∧ calculate_pnl stale_B = calculate_pnl (kind := stable_sort) stale_B.
Proof.
  repeat split; apply calculate_pnl_tie_free; tie_free.
Qed.

(** C1 (the claim as stated fails). Scenario B: the replayed rows hold 0,
    -50 and 0; [calculate_metrics] reports their sum, -50, while the final
    cumulative realized P&L of the instrument is 0. *)
Lemma total_pnl_sums_every_row :
  ∃ out m x,
    calculate_pnl (kind := stable_sort) (get_trades scenario_B None) = Ok out
    ∧ calculate_metrics out = Ok m
    ∧ m !! "total_pnl"%string = Some (PyFloat x)
    ∧ x = Qc_of_Z (-50)
    ∧ spec_total_pnl (kind := stable_sort) out = 0
    ∧ x ≠ spec_total_pnl (kind := stable_sort) out.
Proof.
  pose (df := get_trades scenario_B None).
  pose (out := written (all_writes (kind := stable_sort)
                          (unique ((ticker ∘ trade) <$> df)) df) <$> df).
  destruct (calculate_metrics_returns out) as [m Hm].
  exists out, m, (sum_list (realized_col out) + sum_list (unrealized_col out)).
  split; [apply calculate_pnl_written; nonempty|]. split; [done|].
  split; [apply metrics_total_pnl; [done|nonempty]|].
  split; [qc_eq|]. split; [qc_eq|]. qc_neq.
Qed.

(** C1, at Scenario B: the second Sell is the last row of its instrument;
    its realized_pnl after the replay is the sum of the contributions. *)
Lemma cumulative_and_total_pnl_witness :
  NoDup (idx <$> get_trades scenario_B None)
  ∧ @sort_values stable_sort (ticker_rows "ACME" (get_trades scenario_B None))
    = [ mkRow 2 (stock 1 (jan 2) "ACME" "Buy" 100 10 0);
        mkRow 1 (stock 2 (jan 3) "ACME" "Sell" 90 5 0) ]
      ++ mkRow 0 (stock 3 (jan 4) "ACME" "Sell" 110 5 0) :: []
  ∧ ∃ df' r' m,
      calculate_pnl (kind := stable_sort) (get_trades scenario_B None) = Ok df'
      ∧ loc df' 0 = Some r'
      ∧ realized_pnl (trade r')
        = sum_list (contributions
                      (@sort_values stable_sort
                         (ticker_rows "ACME" (get_trades scenario_B None)))
                      flat)
      ∧ calculate_metrics df' = Ok m
      ∧ m !! "total_pnl"%string
        = Some (PyFloat (sum_list (realized_col df')
                         + sum_list (unrealized_col df'))).
Proof.
  assert (Hnd : NoDup (idx <$> get_trades scenario_B None))
    by unique_labels.
  assert (Hgroup : @sort_values stable_sort
                     (ticker_rows "ACME" (get_trades scenario_B None))
    = [ mkRow 2 (stock 1 (jan 2) "ACME" "Buy" 100 10 0);
        mkRow 1 (stock 2 (jan 3) "ACME" "Sell" 90 5 0) ]
      ++ mkRow 0 (stock 3 (jan 4) "ACME" "Sell" 110 5 0) :: [])
    by (vm_compute; reflexivity).
  split; [exact Hnd|]. split; [exact Hgroup|].
  exact (cumulative_and_total_pnl (get_trades scenario_B None) "ACME" _ _ []
           Hnd Hgroup (Forall_nil_2 _)).
Defined.

(** C2 (the claim as stated fails). After a round trip that realized 200, a
    new Buy of the same instrument is stamped with realized_pnl 200. *)
Lemma buy_after_sell_carries_pnl :
  ∃ out r,
    calculate_pnl (kind := stable_sort) (get_trades buy_after_sell None) = Ok out
    ∧ loc out 0 = Some r
    ∧ trade_type (trade r) = "Buy"%string
    ∧ realized_pnl (trade r) = Qc_of_Z 200
    ∧ realized_pnl (trade r) ≠ 0.
Proof.
  eexists _, _. split; [vm_compute; reflexivity|].
  split; [vm_compute; reflexivity|]. split; [reflexivity|].
  split; [qc_eq|qc_neq].
Qed.

(** C2, at the same frame: the Buy that follows the round trip. *)
Lemma buy_keeps_cumulative_witness :
  NoDup (idx <$> get_trades buy_after_sell None)
  ∧ @sort_values stable_sort (ticker_rows "ACME" (get_trades buy_after_sell None))
    = [ mkRow 2 (stock 1 (jan 2) "ACME" "Buy" 100 10 0);
        mkRow 1 (stock 2 (jan 3) "ACME" "Sell" 120 10 0) ]
      ++ mkRow 0 (stock 3 (jan 5) "ACME" "Buy" 100 1 0) :: []
  ∧ ∃ df',
      calculate_pnl (kind := stable_sort) (get_trades buy_after_sell None) = Ok df'
      ∧ loc df' 0
        = Some (stamp
                  (realized
                     (run [ mkRow 2 (stock 1 (jan 2) "ACME" "Buy" 100 10 0);
                            mkRow 1 (stock 2 (jan 3) "ACME" "Sell" 120 10 0) ]
                          flat))
                  (mkRow 0 (stock 3 (jan 5) "ACME" "Buy" 100 1 0))).
Proof.
  assert (Hnd : NoDup (idx <$> get_trades buy_after_sell None))
    by unique_labels.
  assert (Hgroup : @sort_values stable_sort
                     (ticker_rows "ACME" (get_trades buy_after_sell None))
    = [ mkRow 2 (stock 1 (jan 2) "ACME" "Buy" 100 10 0);
        mkRow 1 (stock 2 (jan 3) "ACME" "Sell" 120 10 0) ]
      ++ mkRow 0 (stock 3 (jan 5) "ACME" "Buy" 100 1 0) :: [])
    by (vm_compute; reflexivity).
  split; [exact Hnd|]. split; [exact Hgroup|].
  destruct (buy_keeps_cumulative (get_trades buy_after_sell None) "ACME" _ _ []
              Hnd Hgroup eq_refl) as (df' & Hdf & _ & _ & _ & Hloc & _).
  exists df'. split; [exact Hdf|exact Hloc].
Defined.

(** C6, at the over-sold ledger: the third row is a Sell met at position
    -5. *)
Lemma sell_without_position_witness :
  NoDup (idx <$> get_trades oversold None)
  ∧ position (run [ mkRow 2 (stock 1 (jan 2) "ACME" "Buy" 100 5 0);
                    mkRow 1 (stock 2 (jan 3) "ACME" "Sell" 110 10 0) ] flat) ≤ 0
  ∧ ∃ df',
      calculate_pnl (kind := stable_sort) (get_trades oversold None) = Ok df'
      ∧ run ([ mkRow 2 (stock 1 (jan 2) "ACME" "Buy" 100 5 0);
               mkRow 1 (stock 2 (jan 3) "ACME" "Sell" 110 10 0) ]
             ++ [mkRow 0 (stock 3 (jan 4) "ACME" "Sell" 120 3 0)]) flat
        = run [ mkRow 2 (stock 1 (jan 2) "ACME" "Buy" 100 5 0);
                mkRow 1 (stock 2 (jan 3) "ACME" "Sell" 110 10 0) ] flat
      ∧ returns (calculate_metrics df').
Proof.
  assert (Hnd : NoDup (idx <$> get_trades oversold None))
    by unique_labels.
  assert (Hgroup : @sort_values stable_sort
                     (ticker_rows "ACME" (get_trades oversold None))
    = [ mkRow 2 (stock 1 (jan 2) "ACME" "Buy" 100 5 0);
        mkRow 1 (stock 2 (jan 3) "ACME" "Sell" 110 10 0) ]
      ++ mkRow 0 (stock 3 (jan 4) "ACME" "Sell" 120 3 0) :: [])
    by (vm_compute; reflexivity).
  assert (Hpos : position (run [ mkRow 2 (stock 1 (jan 2) "ACME" "Buy" 100 5 0);
                    mkRow 1 (stock 2 (jan 3) "ACME" "Sell" 110 10 0) ] flat) ≤ 0)
    by (vm_compute; discriminate).
  assert (Hsell : trade_type (trade (mkRow 0 (stock 3 (jan 4) "ACME" "Sell" 120 3 0)))
                  ≠ "Buy"%string) by discriminate.
  split; [exact Hnd|]. split; [exact Hpos|].
  destruct (sell_without_position (get_trades oversold None) "ACME" _ _ []
              Hnd Hgroup Hsell Hpos) as (df' & Hdf & _ & _ & Hrun & _ & Hm).
  exists df'. split; [exact Hdf|]. split; [exact Hrun|exact Hm].
Defined.

(** C9, at two interleaved instruments and a shuffle of them. *)
Lemma replay_order_independent_witness :
  NoDup (idx <$> two_instruments)
  ∧ two_instruments_shuffled ≡ₚ two_instruments
  ∧ ∃ out out',
      calculate_pnl (kind := stable_sort) two_instruments = Ok out
      ∧ calculate_pnl (kind := stable_sort) two_instruments_shuffled = Ok out'
      ∧ out' ≡ₚ out
      ∧ ∀ i, loc out' i = loc out i.
Proof.
  assert (Hnd : NoDup (idx <$> two_instruments))
    by unique_labels.
  assert (Hp : two_instruments_shuffled ≡ₚ two_instruments).
  { unfold two_instruments_shuffled, two_instruments.
    etrans; [apply perm_swap|]. do 2 apply perm_skip. apply perm_swap. }
  assert (Hgroups : ∀ t, ticker_rows t two_instruments_shuffled
                         = ticker_rows t two_instruments).
  { intros t. unfold ticker_rows, two_instruments_shuffled, two_instruments.
    rewrite !filter_cons, !filter_nil.
    change (ticker (trade (mkRow ?i (stock ?j ?dt ?tk ?ty ?p ?q ?f)))) with tk.
    destruct (decide ("ACME"%string = t)) as [<-|]; [done|].
    by destruct (decide ("INIT"%string = t)). }
  split; [exact Hnd|]. split; [exact Hp|].
  destruct (replay_order_independent (kind := stable_sort) _ _ Hnd Hp Hgroups)
    as [Hsame Hret].
  destruct Hret as [[out Hout] [out' Hout']]; [discriminate|].
  rewrite Hout, Hout' in Hsame.
  exists out, out'. split; [exact Hout|]. split; [exact Hout'|exact Hsame].
Defined.

(** ** Risk sizing *)

Lemma kelly_percentage_zero_win win_rate avg_loss :
  avg_loss ≠ 0 → kelly_percentage win_rate 0 avg_loss = Raise ZeroDivisionError.
Proof.
  intros Hl. unfold kelly_percentage, pydiv.
  rewrite decide_True by done. by rewrite decide_True.
Qed.

Lemma kelly_percentage_bounds win_rate avg_win avg_loss k :
  kelly_percentage win_rate avg_win avg_loss = Ok k → 0 ≤ k ∧ k ≤ dec 25 100.
Proof.
  unfold kelly_percentage.
  destruct (decide (avg_loss ≠ 0)).
  - destruct (pydiv _ avg_win) as [x|e]; [|done]. simpl.
    intros [= <-]. split; [apply pymax_l|].
    unfold pymax. destruct (decide (0 < pymin x (dec 25 100))).
    + apply pymin_r.
    + by vm_compute.
  - intros [= <-]. split; [done|by vm_compute].
Qed.

(** C3 (the code at the failing input). With [avg_loss = 50] and no
    [avg_win] in the dictionary (it defaults to 0), the guard [avg_loss != 0]
    lets the division by [avg_win] run: [ZeroDivisionError]. *)
Theorem kelly_divides_by_zero_avg_win :
  calculate_risk_metrics (Qc_of_Z 10000) no_wins = Raise ZeroDivisionError.
Proof. vm_compute. reflexivity. Qed.

(** ** The empty trade set *)

(** C4 (the claim as stated fails). The dictionary returned for the empty
    trade set has no [total_trades] (nor any other) field. *)
Lemma empty_metrics_have_no_field :
  ∃ m, calculate_metrics [] = Ok m ∧ m !! "total_trades"%string = None.
Proof. exists ∅. split; [done|]. apply lookup_empty. Qed.

(** C4 (amended). For the empty trade set [calculate_metrics] returns,
    without raising, the empty dictionary: no metric field is present, and
    every field reads as 0 through [get] with default 0, the way the callers
    read them. *)
Theorem empty_metrics :
  ∃ m, calculate_metrics [] = Ok m
     ∧ m = ∅
     ∧ ∀ key, m !! key = None ∧ dict_get m key (PyInt 0) = PyInt 0.
Proof.
  exists ∅. split; [done|]. split; [done|]. intros key.
  unfold dict_get. by rewrite lookup_empty.
Qed.

(** C8 (the claim as stated fails). For the empty trade set no max_drawdown
    is reported at all, where the claim has 0. *)
Lemma empty_series_has_no_max_drawdown :
  ∃ m, calculate_metrics [] = Ok m
     ∧ m !! "max_drawdown"%string = None
     ∧ m !! "max_drawdown"%string ≠ Some (PyFloat 0)
     ∧ m !! "max_drawdown"%string ≠ Some (PyInt 0).
Proof. exists ∅. by rewrite lookup_empty. Qed.

(** C8, at a gain of 100 followed the day after by a loss of 50, in order of
    entry: the max_drawdown is -50. *)
Lemma max_drawdown_of_rows_witness :
  Sorted date_le (range_index gain_then_loss)
  ∧ ∃ m, calculate_metrics (range_index gain_then_loss) = Ok m
       ∧ m !! "max_drawdown"%string = Some (PyFloat (Qc_of_Z (-50))).
Proof.
  assert (Hasc : Sorted date_le (range_index gain_then_loss))
    by (repeat constructor).
  split; [exact Hasc|].
  destruct (max_drawdown_of_rows (kind := stable_sort) _ _ Hasc)
    as (_ & m & v & Hm & _).
  exists m. split; [exact Hm|].
  rewrite (metrics_max_drawdown _ m Hm) by nonempty.
  vm_compute. qc_struct.
Defined.

(** [calculate_metrics] takes the rows as they stand and does not sort them
    (the charts sort by date before the same computation).  On the frame
    [get_trades] returns, latest first, the reported max_drawdown of a gain
    of 100 followed in time by a loss of 50 is 0, where the series in
    ascending order of timestamp gives -50. *)
Lemma max_drawdown_in_frame_order :
  ∃ m, calculate_metrics (get_trades gain_then_loss None) = Ok m
     ∧ m !! "max_drawdown"%string = Some (PyFloat 0)
     ∧ spec_max_drawdown (kind := stable_sort) (get_trades gain_then_loss None)
       = PyFloat (Qc_of_Z (-50))
     ∧ m !! "max_drawdown"%string
       ≠ Some (spec_max_drawdown (kind := stable_sort)
                 (get_trades gain_then_loss None)).
Proof.
  destruct (calculate_metrics_returns (get_trades gain_then_loss None)) as [m Hm].
  exists m. split; [done|].
  assert (Hdd : m !! "max_drawdown"%string = Some (PyFloat 0)).
  { rewrite (metrics_max_drawdown _ m Hm) by nonempty.
    vm_compute. qc_struct. }
  assert (Hspec : spec_max_drawdown (kind := stable_sort)
                    (get_trades gain_then_loss None)
                  = PyFloat (Qc_of_Z (-50))).
  { vm_compute. qc_struct. }
  split; [done|]. split; [done|].
  rewrite Hdd, Hspec. by intros [= H].
Qed.

(** ** The ledger *)

Lemma find_trade_missing (l : Ledger) trade_id :
  trade_id ∉ (id <$> l) → find_trade l trade_id = None.
Proof.
  intros Hid. unfold find_trade. rewrite filter_none; [done|].
  intros t Ht <-. apply Hid. by apply list_elem_of_fmap_2.
Qed.

(** C10. For an id that no record of the ledger holds, [update_trade] and
    [delete_trade] return [False] without raising and leave the ledger as it
    was. *)
Theorem update_delete_missing_id (l : Ledger) trade_id trade_data :
  trade_id ∉ (id <$> l) →
  update_trade l trade_id trade_data = (Ok false, l)
  ∧ delete_trade l trade_id = (Ok false, l).
Proof.
  intros Hid. unfold update_trade, delete_trade.
  by rewrite (find_trade_missing l trade_id Hid).
Qed.

Lemma update_delete_missing_id_witness :
  (7%Z ∉ (id <$> scenario_A))
  ∧ update_trade scenario_A 7 [SetPrice (Qc_of_Z 1); SetNotes "x"] = (Ok false, scenario_A)
  ∧ delete_trade scenario_A 7 = (Ok false, scenario_A).
Proof.
  assert (H : 7%Z ∉ (id <$> scenario_A))
    by (apply (bool_decide_unpack _); vm_compute; reflexivity).
  split; [exact H|].
  exact (update_delete_missing_id scenario_A 7 _ H).
Defined.

(** *** Bulk import *)

Lemma import_row_parsed successful failed (l : Ledger) row rd trade_data :
  parse_row row = Ok rd →
  trade_data_of rd = Some trade_data →
  import_row (successful, failed, l) row
  = Some ((successful + 1)%Z, failed, (add_trade l trade_data).2).
Proof. intros E Etd. unfold import_row. by rewrite E, Etd. Qed.

Lemma parse_csv_row dt tk ty p q :
  parse_row (csv_row dt tk ty p q)
  = Ok (mkRowData (Some dt) tk "Stock" ty (Finite (Qc_of_Z p))
          (Finite (Qc_of_Z q)) (Finite 0) "" no_option).
Proof.
  unfold parse_row, csv_row, dict_item.
  repeat (rewrite ?lookup_insert_eq, ?lookup_insert_ne, ?lookup_empty by done;
          simpl).
  done.
Qed.

Lemma import_csv_row successful failed (l : Ledger) dt tk ty p q :
  import_row (successful, failed, l) (csv_row dt tk ty p q)
  = Some ((successful + 1)%Z, failed, (add_trade l (parsed dt tk ty p q)).2).
Proof. by apply (import_row_parsed _ _ _ _ _ _ (parse_csv_row _ _ _ _ _)). Qed.

Lemma import_row_counts s f (l : Ledger) row s' f' l' :
  import_row (s, f, l) row = Some (s', f', l') →
  (s' + f')%Z = (s + f + 1)%Z.
Proof.
  unfold import_row. destruct (parse_row row) as [rd|e].
  - destruct (trade_data_of rd) as [td|].
    + destruct (add_trade l td) as [[i|e] l1]; intros [= <- <- <-]; lia.
    + destruct (not_null_violated rd); [|done]. intros [= <- <- <-]. lia.
  - intros [= <- <- <-]. lia.
Qed.

(** Every row is counted once, as a success or as a failure: the batch is
    never aborted as a whole. *)
Lemma import_counts (rows : list CsvRow) (l : Ledger) successful failed l' :
  import_from_csv l (Some rows) = Some (successful, failed, l') →
  (successful + failed)%Z = Z.of_nat (length rows).
Proof.
  unfold import_from_csv.
  assert (H : ∀ s f l0,
    import_rows (s, f, l0) rows = Some (successful, failed, l') →
    (successful + failed)%Z = (s + f + Z.of_nat (length rows))%Z).
  { induction rows as [|row rows IH]; intros s f l0.
    - intros [= <- <- <-]. simpl. lia.
    - cbn [import_rows]. destruct (import_row (s, f, l0) row)
        as [[[s1 f1] l1]|] eqn:E; [|done]. cbn [mbind option_bind].
      intros Hrest. apply IH in Hrest.
      apply import_row_counts in E.
      rewrite length_cons, Nat2Z.inj_succ. lia. }
  intros E. apply H in E. lia.
Qed.

(** C5 (the code at the failing input). Importing the five rows of
    Scenario E, the third with quantity -5, into any ledger: all five are
    counted as successful, none as failed, and the ledger gains five
    records, the third of them with the negative quantity. *)
Theorem import_keeps_negative_quantity (l : Ledger) :
  ∃ t1 t2 t3 t4 t5,
    import_from_csv l (Some scenario_E)
    = Some (5%Z, 0%Z, l ++ [t1; t2; t3; t4; t5])
    ∧ quantity t3 = Qc_of_Z (-5)
    ∧ quantity t3 < 0.
Proof.
  unfold import_from_csv, scenario_E. cbn [import_rows].
  repeat (rewrite import_csv_row; cbn [mbind option_bind]).
  unfold add_trade. simpl. rewrite <-!app_assoc. simpl.
  eexists _, _, _, _, _. split; [reflexivity|]. simpl.
  split; [done|]. by vm_compute.
Qed.

(** * Further properties *)

(** ** The replay as a function of its inputs *)

Section replay_inputs.
Context {kind : SortKind}.

Lemma row_is_written (df : DataFrame) r :
  r ∈ df →
  is_Some (last_write (idx r) (all_writes (unique ((ticker ∘ trade) <$> df)) df)).
Proof.
  intros Hr. apply not_eq_None_Some. rewrite last_write_None.
  intros Hno. apply Hno. unfold all_writes.
  rewrite list_elem_of_fmap. setoid_rewrite list_elem_of_bind.
  assert (Hin : idx r ∈ (writes (sort_values (ticker_rows (ticker (trade r)) df)) flat).*1).
  { rewrite writes_labels. apply list_elem_of_fmap_2. by apply elem_of_group. }
  apply list_elem_of_fmap in Hin as (w & Hw & Hin).
  exists w. split; [done|]. exists (ticker (trade r)). split; [done|].
  apply elem_of_unique. by apply (list_elem_of_fmap_2 (ticker ∘ trade)).
Qed.

Lemma all_writes_inputs tickers (df df0 : DataFrame) :
  inputs <$> df = inputs <$> df0 → all_writes tickers df = all_writes tickers df0.
Proof.
  intros E. unfold all_writes. induction tickers as [|t ts IH]; [done|].
  csimpl. by rewrite IH, (group_writes_inputs t df df0 E).
Qed.

Lemma tickers_inputs (df : DataFrame) :
  (ticker ∘ trade) <$> (inputs <$> df) = (ticker ∘ trade) <$> df.
Proof. rewrite <-list_fmap_compose. by apply list_fmap_ext. Qed.

Lemma written_of_inputs (df : DataFrame) :
  written (all_writes (unique ((ticker ∘ trade) <$> df)) df) <$> df
  = written (all_writes (unique ((ticker ∘ trade) <$> df)) df) <$> (inputs <$> df).
Proof.
  rewrite <-list_fmap_compose. apply list_fmap_ext. intros k r Hk.
  destruct (row_is_written df r) as [v Hv]; [by eapply list_elem_of_lookup_2|].
  set (W := all_writes _ df) in *.
  unfold compose, written. change (idx (inputs r)) with (idx r). by rewrite Hv.
Qed.

Lemma replay_of_inputs (df df' : DataFrame) :
  inputs <$> df = inputs <$> df' →
  calculate_pnl df = calculate_pnl df'.
Proof.
  intros E. destruct df as [|r df].
  { symmetry in E. by apply fmap_nil_inv in E as ->. }
  destruct df' as [|r' df']; [done|].
  rewrite !calculate_pnl_written by done. f_equal.
  rewrite (written_of_inputs (r :: df)), (written_of_inputs (r' :: df')).
  rewrite <-(tickers_inputs (r :: df)), <-(tickers_inputs (r' :: df')), E.
  by rewrite (all_writes_inputs _ (r :: df) (r' :: df') E).
Qed.

(** X2. The replay reads nothing of the two derived columns: two frames that
    differ only in realized_pnl and unrealized_pnl are replayed to the same
    frame, so persisted P&L is always overwritten. *)
Theorem replay_ignores_stale_pnl (df df' : DataFrame) :
  inputs <$> df = inputs <$> df' →
  calculate_pnl df = calculate_pnl df'.
Proof. apply replay_of_inputs. Qed.

Lemma replay_inputs (df : DataFrame) out :
  calculate_pnl df = Ok out → inputs <$> out = inputs <$> df.
Proof.
  destruct (calculate_pnl_cases df) as [[-> ->]|[_ ->]]; [done|].
  intros [= <-]. apply inputs_fmap_written.
Qed.

(** X1. Idempotence: on a frame with rows the replay returns, and replaying
    the frame it returns gives that frame again.  (The replay raises on the
    frame without rows only.) *)
Theorem replay_idempotent (df : DataFrame) :
  match calculate_pnl df with
  | Ok out => calculate_pnl out = Ok out
  | Raise _ => df = []
  end.
Proof.
  destruct (calculate_pnl_cases df) as [[-> ->]|[Hdf E]]; [done|].
  rewrite E. erewrite replay_of_inputs; [exact E|].
  apply inputs_fmap_written.
Qed.

(** X3. The replay returns the rows in their order and under their labels,
    changed in the two derived columns only, and resets unrealized_pnl to 0
    on every row.  (It raises on the frame without rows only.) *)
Theorem replay_touches_derived_columns_only (df : DataFrame) :
  match calculate_pnl df with
  | Ok out =>
      inputs <$> out = inputs <$> df
      ∧ idx <$> out = idx <$> df
      ∧ Forall (λ r, unrealized_pnl (trade r) = 0) out
  | Raise _ => df = []
  end.
Proof.
  destruct (calculate_pnl_cases df) as [[-> ->]|[_ ->]]; [done|].
  split; [apply inputs_fmap_written|]. split.
  - rewrite <-list_fmap_compose. apply list_fmap_ext. intros k r _.
    apply idx_written.
  - apply Forall_fmap, Forall_forall. intros r Hr.
    destruct (row_is_written df r Hr) as [v Hv].
    set (W := all_writes _ df) in *.
    unfold compose, written. by rewrite Hv.
Qed.

(** X4. On a frame with unique labels, the realized_pnl written on any row
    is cumulative: the sum of the close-out contributions of its instrument
    up to and including the row, in the order in which the replay takes the
    rows of the instrument ([pre], then [r], then [post]), whatever the kind
    of sort. *)
Theorem realized_pnl_is_cumulative (df : DataFrame) t pre r post :
  NoDup (idx <$> df) →
  sort_values (ticker_rows t df) = pre ++ r :: post →
  ∃ out r', calculate_pnl df = Ok out
          ∧ loc out (idx r) = Some r'
          ∧ inputs r' = inputs r
          ∧ realized_pnl (trade r') = sum_list (contributions (pre ++ [r]) flat).
Proof.
  intros Hnd Hgroup.
  destruct (calculate_pnl_loc df t pre r post Hnd Hgroup) as (out & Hout & Hloc).
  exists out, (stamp (realized (run (pre ++ [r]) flat)) r).
  split; [done|]. split; [done|]. split; [done|].
  simpl. apply realized_run_flat.
Qed.

End replay_inputs.

Lemma replay_ignores_stale_pnl_witness :
  inputs <$> stale_B = inputs <$> get_trades scenario_B None
  ∧ calculate_pnl (kind := stable_sort) stale_B
    = calculate_pnl (kind := stable_sort) (get_trades scenario_B None).
Proof.
  assert (E : inputs <$> stale_B = inputs <$> get_trades scenario_B None)
    by (vm_compute; reflexivity).
  split; [exact E|]. exact (replay_ignores_stale_pnl _ _ E).
Defined.

Lemma realized_pnl_is_cumulative_witness :
  NoDup (idx <$> get_trades scenario_B None)
  ∧ ∃ out r',
      calculate_pnl (kind := stable_sort) (get_trades scenario_B None) = Ok out
      ∧ loc out 1 = Some r'
      ∧ realized_pnl (trade r')
        = sum_list (contributions
                      ([mkRow 2 (stock 1 (jan 2) "ACME" "Buy" 100 10 0)]
                       ++ [mkRow 1 (stock 2 (jan 3) "ACME" "Sell" 90 5 0)]) flat).
Proof.
  assert (Hnd : NoDup (idx <$> get_trades scenario_B None)) by unique_labels.
  assert (Hgroup : @sort_values stable_sort
                     (ticker_rows "ACME" (get_trades scenario_B None))
    = [mkRow 2 (stock 1 (jan 2) "ACME" "Buy" 100 10 0)]
      ++ mkRow 1 (stock 2 (jan 3) "ACME" "Sell" 90 5 0)
         :: [mkRow 0 (stock 3 (jan 4) "ACME" "Sell" 110 5 0)])
    by (vm_compute; reflexivity).
  split; [exact Hnd|].
  destruct (realized_pnl_is_cumulative _ "ACME" _ _ _ Hnd Hgroup)
    as (out & r' & Hout & Hloc & _ & Hpnl).
  exists out, r'. split; [exact Hout|]. split; [exact Hloc|exact Hpnl].
Defined.

(** ** The position state machine *)

(** X5. After Buys only, the open quantity is the sum of the quantities and
    the cost basis the sum of the total costs (fees included), so the
    average cost is the volume-weighted average; nothing is realized. *)
Theorem buys_accumulate (rows : list Row) (st : Position) :
  Forall (λ r, trade_type (trade r) = "Buy"%string) rows →
  run rows st
  = mkPosition (position st + sum_list (quantity_col rows))
               (cost st + sum_list (total_cost_col rows))
               (realized st).
Proof.
  intros Hall. revert st.
  induction Hall as [|r rows Hr _ IH]; intros st.
  - simpl. destruct st as [p c z]. simpl. f_equal; ring.
  - change (run (r :: rows) st) with (run rows (advance st r)).
    rewrite IH, (advance_buy _ _ Hr). simpl. f_equal; ring.
Qed.

Lemma buys_accumulate_witness :
  Forall (λ r, trade_type (trade r) = "Buy"%string) three_buys
  ∧ run three_buys flat
    = mkPosition (position flat + sum_list (quantity_col three_buys))
                 (cost flat + sum_list (total_cost_col three_buys))
                 (realized flat).
Proof.
  assert (H : Forall (λ r, trade_type (trade r) = "Buy"%string) three_buys)
    by (repeat constructor).
  split; [exact H|]. exact (buys_accumulate three_buys flat H).
Defined.

Lemma positive_nonzero (x : Qc) : 0 < x → x ≠ 0.
Proof. intros H ->. by apply Qclt_not_eq in H. Qed.

(** X6. A Sell of exactly the open quantity closes the position: open
    quantity and cost basis are 0 afterwards, and the proceeds less the whole
    cost basis less the fees are realized. *)
Theorem sell_entire_position (st : Position) (trade : Trade) :
  trade_type trade ≠ "Buy"%string →
  0 < position st →
  quantity trade = position st →
  step st trade
  = Ok (mkPosition 0 0
          (realized st
           + (price trade * quantity trade - cost st - fees trade))).
Proof.
  intros Hsell Hpos Hq.
  pose proof (positive_nonzero _ Hpos) as Hne.
  unfold step, is_buy. rewrite bool_decide_eq_false_2 by done.
  destruct (decide (0 < position st)); [|done].
  rewrite (pydiv_ok (cost st) (position st)) by done. simpl.
  rewrite Hq. replace (position st - position st) with 0 by ring.
  destruct (decide (0 < 0)) as [H%Qclt_not_eq|_]; [done|].
  simpl. do 2 f_equal. field. done.
Qed.

Lemma sell_entire_position_witness :
  0 < position (mkPosition (Qc_of_Z 10) (Qc_of_Z 1000) 0)
  ∧ step (mkPosition (Qc_of_Z 10) (Qc_of_Z 1000) 0)
         (stock 2 (jan 3) "ACME" "Sell" 120 10 0)
    = Ok (mkPosition 0 0
            (0 + (Qc_of_Z 120 * Qc_of_Z 10 - Qc_of_Z 1000 - Qc_of_Z 0))).
Proof.
  assert (Hpos : 0 < position (mkPosition (Qc_of_Z 10) (Qc_of_Z 1000) 0))
    by (by vm_compute).
  split; [exact Hpos|].
  exact (sell_entire_position (mkPosition (Qc_of_Z 10) (Qc_of_Z 1000) 0)
           (stock 2 (jan 3) "ACME" "Sell" 120 10 0)
           ltac:(discriminate) Hpos eq_refl).
Defined.

(** X7. A Sell of part of the open quantity leaves the average cost per
    unit as it was: the cost basis shrinks in proportion to the quantity
    kept, and the difference between price and average cost on the quantity
    sold, less the fees, is realized. *)
Theorem partial_sell_keeps_average_cost (st : Position) (trade : Trade) :
  trade_type trade ≠ "Buy"%string →
  0 < quantity trade →
  quantity trade < position st →
  ∃ st', step st trade = Ok st'
       ∧ position st' = position st - quantity trade
       ∧ 0 < position st'
       ∧ cost st' / position st' = cost st / position st
       ∧ realized st'
         = realized st
           + ((price trade - cost st / position st) * quantity trade
              - fees trade).
Proof.
  intros Hsell Hq Hlt.
  assert (Hpos : 0 < position st) by by etrans.
  assert (Hrest : 0 < position st - quantity trade).
  { apply (Qcplus_lt_mono_r _ _ (quantity trade)).
    by replace (position st - quantity trade + quantity trade)
      with (position st) by ring; rewrite Qcplus_0_l. }
  pose proof (positive_nonzero _ Hpos) as Hne.
  pose proof (positive_nonzero _ Hrest) as Hne'.
  eexists. split.
  - unfold step, is_buy. rewrite bool_decide_eq_false_2 by done.
    destruct (decide (0 < position st)); [|by exfalso].
    rewrite (pydiv_ok (cost st) (position st)) by done. simpl.
    destruct (decide (0 < position st - quantity trade)); [|by exfalso].
    rewrite pydiv_ok; [done|].
    by replace (position st - quantity trade + quantity trade)
      with (position st) by ring.
  - simpl. split; [done|]. split; [done|]. split; [|done].
    replace (position st - quantity trade + quantity trade)
      with (position st) by ring.
    field. by split.
Qed.

Lemma partial_sell_keeps_average_cost_witness :
  0 < quantity (stock 2 (jan 3) "ACME" "Sell" 90 5 0)
  ∧ quantity (stock 2 (jan 3) "ACME" "Sell" 90 5 0)
    < position (mkPosition (Qc_of_Z 10) (Qc_of_Z 1000) 0)
  ∧ ∃ st', step (mkPosition (Qc_of_Z 10) (Qc_of_Z 1000) 0)
                (stock 2 (jan 3) "ACME" "Sell" 90 5 0) = Ok st'
         ∧ cost st' / position st' = Qc_of_Z 1000 / Qc_of_Z 10.
Proof.
  assert (Hq : 0 < quantity (stock 2 (jan 3) "ACME" "Sell" 90 5 0))
    by (by vm_compute).
  assert (Hlt : quantity (stock 2 (jan 3) "ACME" "Sell" 90 5 0)
                < position (mkPosition (Qc_of_Z 10) (Qc_of_Z 1000) 0))
    by (by vm_compute).
  split; [exact Hq|]. split; [exact Hlt|].
  destruct (partial_sell_keeps_average_cost
              (mkPosition (Qc_of_Z 10) (Qc_of_Z 1000) 0)
              (stock 2 (jan 3) "ACME" "Sell" 90 5 0)
              ltac:(discriminate) Hq Hlt) as (st' & Hst & _ & _ & Havg & _).
  exists st'. split; [exact Hst|exact Havg].
Defined.

(** ** Unrealized P&L *)

Section valuation.
Context {kind : SortKind}.

Lemma sum_list_perm l l' : l ≡ₚ l' → sum_list l = sum_list l'.
Proof.
  induction 1 as [|x l l' _ IH|x y l|l l' l'' _ IH1 _ IH2]; simpl.
  - done.
  - by rewrite IH.
  - ring.
  - by rewrite IH1.
Qed.

Lemma fmap_filter_fmap {A B} (f : A → A) (g : A → B) (P : A → Prop)
    `{∀ x, Decision (P x)} (l : list A) :
  (∀ x, g (f x) = g x) → (∀ x, P (f x) ↔ P x) →
  g <$> filter P (f <$> l) = g <$> filter P l.
Proof.
  intros Hg HP. induction l as [|x l IH]; [done|].
  csimpl. rewrite !filter_cons.
  pose proof (HP x) as Hiff.
  destruct (decide (P (f x))) as [Hx|Hx], (decide (P x)) as [Hx'|Hx'];
    try tauto.
  csimpl. by rewrite Hg, IH.
Qed.

Lemma revaluation_fields f r :
  revaluation f →
  idx (f r) = idx r
  ∧ ticker (trade (f r)) = ticker (trade r)
  ∧ trade_type (trade (f r)) = trade_type (trade r)
  ∧ quantity (trade (f r)) = quantity (trade r)
  ∧ total_cost (trade (f r)) = total_cost (trade r).
Proof.
  intros Hf. specialize (Hf r).
  split; [exact (f_equal idx Hf)|].
  split; [exact (f_equal (ticker ∘ trade) Hf)|].
  split; [exact (f_equal (trade_type ∘ trade) Hf)|].
  split; [exact (f_equal (quantity ∘ trade) Hf)|].
  exact (f_equal (total_cost ∘ trade) Hf).
Qed.

Lemma typed_column_fmap {B} (g : Row → B) f ty t (df : DataFrame) :
  revaluation f → (∀ r, g (f r) = g r) →
  g <$> of_type ty (ticker_rows t (f <$> df))
  = g <$> of_type ty (ticker_rows t df).
Proof.
  intros Hf Hg. unfold of_type, ticker_rows. rewrite !list_filter_filter.
  apply fmap_filter_fmap; [done|]. intros r.
  destruct (revaluation_fields f r Hf) as (_ & -> & -> & _). done.
Qed.

Lemma open_position_fmap f (df : DataFrame) t :
  revaluation f → open_position (f <$> df) t = open_position df t.
Proof.
  intros Hf. unfold open_position, quantity_col.
  rewrite !(typed_column_fmap (quantity ∘ trade) f _ t df Hf); [done|..];
    intros r; by destruct (revaluation_fields f r Hf) as (_ & _ & _ & ? & _).
Qed.

Lemma average_buy_cost_fmap f (df : DataFrame) t :
  revaluation f → average_buy_cost (f <$> df) t = average_buy_cost df t.
Proof.
  intros Hf. unfold average_buy_cost, quantity_col, total_cost_col.
  rewrite (typed_column_fmap (quantity ∘ trade) f _ t df Hf),
          (typed_column_fmap (total_cost ∘ trade) f _ t df Hf); [done|..];
    intros r; by destruct (revaluation_fields f r Hf) as (_ & _ & _ & ? & ?).
Qed.

Lemma valuation_fmap get f (df : DataFrame) t :
  revaluation f → valuation get (f <$> df) t = valuation get df t.
Proof.
  intros Hf. unfold valuation.
  by rewrite open_position_fmap, average_buy_cost_fmap.
Qed.

Lemma typed_column_sorted (g : Row → Qc) ty (rows : list Row) :
  sum_list (g <$> of_type ty (sort_values rows))
  = sum_list (g <$> of_type ty rows).
Proof.
  apply sum_list_perm, fmap_Permutation. unfold of_type.
  by rewrite sort_values_perm.
Qed.

(** The loop body, by what it writes. *)
Lemma unrealized_ticker_revalue get (df : DataFrame) t df' :
  unrealized_ticker get df t = Some df' →
  df' = (λ r, if decide (ticker (trade r) = t)
              then revalue (valuation get df t) r else r) <$> df.
Proof.
  unfold unrealized_ticker, valuation, open_position, average_buy_cost,
    quantity_col, total_cost_col.
  rewrite !typed_column_sorted.
  set (p := sum_list _ - sum_list _).
  assert (Hid : df = (λ r, if decide (ticker (trade r) = t) then r else r) <$> df).
  { rewrite <-(list_fmap_id df) at 1. apply list_fmap_ext. intros _ r _.
    by destruct (decide _). }
  destruct (decide (0 < p)); [|by intros [= <-]].
  destruct (get t) as [live|]; [|by intros [= <-]].
  destruct (decide (live = 0)); [by intros [= <-]|].
  destruct (decide (sum_list _ = 0)); [done|].
  by intros [= <-].
Qed.

Lemma revalue_revaluation v : revaluation (revalue v).
Proof. intros r. by destruct v. Qed.

Lemma unrealized_tickers_revalue get (df0 : DataFrame) tickers seen out :
  unrealized_tickers get tickers
    ((λ r, if decide (ticker (trade r) ∈ seen)
           then revalue (valuation get df0 (ticker (trade r))) r else r) <$> df0)
  = Some out →
  out = (λ r, if decide (ticker (trade r) ∈ seen ++ tickers)
              then revalue (valuation get df0 (ticker (trade r))) r else r)
        <$> df0.
Proof.
  revert seen. induction tickers as [|t ts IH]; intros seen.
  - simpl. rewrite app_nil_r. by intros [= <-].
  - simpl. set (f := λ r, if decide (ticker (trade r) ∈ seen) then _ else r).
    assert (Hf : revaluation f).
    { intros r. unfold f. destruct (decide _); [apply revalue_revaluation|done]. }
    destruct (unrealized_ticker get (f <$> df0) t) as [df'|] eqn:E; [|done].
    simpl. apply unrealized_ticker_revalue in E.
    rewrite (valuation_fmap get f df0 t Hf), <-list_fmap_compose in E.
    intros Hout. rewrite (cons_middle t seen ts), app_assoc.
    apply IH. rewrite <-Hout, E. f_equal.
    apply list_fmap_ext. intros _ r _. unfold compose, f.
    destruct (decide (ticker (trade r) ∈ seen)) as [Hs|Hs].
    + rewrite decide_True by (apply elem_of_app; by left).
      destruct (valuation get df0 (ticker (trade r))) as [v|] eqn:Ev; simpl.
      * destruct (decide (ticker (trade r) = t)) as [<-|]; [|done].
        by rewrite Ev.
      * destruct (decide (ticker (trade r) = t)) as [<-|]; [|done].
        by rewrite Ev.
    + destruct (decide (ticker (trade r) = t)) as [<-|Hne].
      * rewrite decide_True; [done|]. apply elem_of_app. right. by left.
      * rewrite decide_False; [done|].
        rewrite elem_of_app, list_elem_of_singleton. tauto.
Qed.

(** X10. What a valuation pass writes: on every row of an instrument whose
    position (Buys less Sells) is long and for which a non-zero price is
    quoted, unrealized_pnl becomes (price - average cost of the Buys) times
    the position; every other row, and every other column, is returned as it
    was. *)
Theorem unrealized_pnl_written (get : string → option Qc) (df out : DataFrame) :
  calculate_unrealized_pnl get df = Ok (Some out) →
  out = (λ r, revalue (valuation get df (ticker (trade r))) r) <$> df.
Proof.
  intros H.
  assert (H' : unrealized_tickers get (unique ((ticker ∘ trade) <$> df)) df
               = Some out).
  { unfold calculate_unrealized_pnl in H. destruct df; [done|]. by injection H. }
  clear H. rename H' into H.
  assert (Hstart : df = (λ r, if decide (ticker (trade r) ∈ [])
      then revalue (valuation get df (ticker (trade r))) r else r) <$> df).
  { rewrite <-(list_fmap_id df) at 1. apply list_fmap_ext. intros _ r _.
    rewrite decide_False; [done|]. apply not_elem_of_nil. }
  rewrite Hstart in H at 2. apply unrealized_tickers_revalue in H.
  rewrite H. apply list_fmap_ext. intros k r Hk. simpl.
  rewrite decide_True; [done|]. apply elem_of_unique.
  apply (list_elem_of_fmap_2 (ticker ∘ trade)). by eapply list_elem_of_lookup_2.
Qed.

Lemma unrealized_tickers_without_quotes get ts (df : DataFrame) :
  (∀ t, get t = None ∨ get t = Some 0) →
  unrealized_tickers get ts df = Some df.
Proof.
  intros Hget. induction ts as [|t ts IH]; [done|].
  simpl. replace (unrealized_ticker get df t) with (Some df); [exact IH|].
  unfold unrealized_ticker.
  destruct (decide (0 < _)); [|done].
  destruct (Hget t) as [-> | ->]; [done|]. by rewrite decide_True.
Qed.

(** X9. Without a quote (the price service fails, or returns 0) the
    valuation pass returns the frame unchanged.  (It raises on the frame
    without rows only.) *)
Theorem unrealized_pnl_without_quotes (get : string → option Qc)
    (df : DataFrame) :
  (∀ t, get t = None ∨ get t = Some 0) →
  match calculate_unrealized_pnl get df with
  | Ok out => out = Some df
  | Raise _ => df = []
  end.
Proof.
  intros Hget. unfold calculate_unrealized_pnl.
  destruct df as [|r df]; [done|].
  by apply unrealized_tickers_without_quotes.
Qed.

Lemma sum_list_nonneg l : Forall (λ x, 0 ≤ x) l → 0 ≤ sum_list l.
Proof.
  induction 1 as [|x l Hx _ IH]; simpl; [done|].
  by apply Qcplus_nonneg_nonneg.
Qed.

Lemma unrealized_ticker_finite get (df : DataFrame) t :
  Forall (λ r, 0 ≤ quantity (trade r)) df →
  ∃ df', unrealized_ticker get df t = Some df'
       ∧ Forall (λ r, 0 ≤ quantity (trade r)) df'.
Proof.
  intros Hq.
  destruct (unrealized_ticker get df t) as [df'|] eqn:E.
  - exists df'. split; [done|]. apply unrealized_ticker_revalue in E as ->.
    apply Forall_fmap. eapply Forall_impl; [exact Hq|]. intros r Hr. simpl.
    destruct (decide _); [|done]. by destruct (valuation get df t).
  - exfalso. revert E. unfold unrealized_ticker.
    set (rows := sort_values (ticker_rows t df)).
    destruct (decide (0 < _)) as [Hpos|]; [|done].
    destruct (get t) as [live|]; [|done].
    destruct (decide (live = 0)); [done|].
    destruct (decide (sum_list _ = 0)) as [Hb|]; [|done]. intros _.
    rewrite Hb in Hpos.
    assert (Hsold : 0 ≤ sum_list (quantity_col (of_type "Sell" rows))).
    { apply sum_list_nonneg, Forall_fmap, Forall_forall. intros r Hr. simpl.
      apply list_elem_of_filter in Hr as [_ Hr].
      apply elem_of_group in Hr as [Hr _].
      by apply (proj1 (Forall_forall _ _) Hq). }
    apply (Qcplus_lt_mono_r _ _ (sum_list (quantity_col (of_type "Sell" rows))))
      in Hpos.
    replace (0 - sum_list (quantity_col (of_type "Sell" rows))
             + sum_list (quantity_col (of_type "Sell" rows))) with 0 in Hpos
      by ring.
    rewrite Qcplus_0_l in Hpos. by apply Qclt_not_le in Hpos.
Qed.

Lemma unrealized_tickers_finite get ts (df : DataFrame) :
  Forall (λ r, 0 ≤ quantity (trade r)) df →
  is_Some (unrealized_tickers get ts df).
Proof.
  revert df. induction ts as [|t ts IH]; intros df Hq; [by eexists|].
  simpl. destruct (unrealized_ticker_finite get df t Hq) as (df' & -> & Hq').
  simpl. by apply IH.
Qed.

(** X8. When no quantity is negative, the average cost of a long position is
    never a division by zero: the valuation pass writes finite values only
    and returns a frame, whatever the quotes.  (It raises on the frame
    without rows only.) *)
Theorem unrealized_pnl_finite (get : string → option Qc) (df : DataFrame) :
  Forall (λ r, 0 ≤ quantity (trade r)) df →
  match calculate_unrealized_pnl get df with
  | Ok out => is_Some out
  | Raise _ => df = []
  end.
Proof.
  intros Hq. unfold calculate_unrealized_pnl.
  destruct df as [|r df]; [done|].
  by apply unrealized_tickers_finite.
Qed.

End valuation.

Lemma unrealized_pnl_written_witness :
  calculate_unrealized_pnl (kind := stable_sort) quote_115 long_position
  = Ok (Some ((λ r, revalue (valuation quote_115 long_position
                               (ticker (trade r))) r)
                <$> long_position))
  ∧ valuation quote_115 long_position "ACME" = Some (Qc_of_Z 60).
Proof.
  assert (H : ∃ out, calculate_unrealized_pnl (kind := stable_sort)
                       quote_115 long_position = Ok (Some out))
    by (eexists; vm_compute; reflexivity).
  destruct H as [out H]. split.
  - rewrite H. do 2 f_equal.
    exact (unrealized_pnl_written (kind := stable_sort) _ _ _ H).
  - vm_compute. f_equal. apply Qc_is_canon. reflexivity.
Defined.

Lemma unrealized_pnl_without_quotes_witness :
  (∀ t, no_quotes t = None ∨ no_quotes t = Some 0)
  ∧ calculate_unrealized_pnl (kind := stable_sort) no_quotes long_position
    = Ok (Some long_position).
Proof.
  assert (H : ∀ t, no_quotes t = None ∨ no_quotes t = Some 0) by (by left).
  split; [exact H|].
  pose proof (unrealized_pnl_without_quotes (kind := stable_sort)
                no_quotes long_position H) as Hq.
  destruct (calculate_unrealized_pnl (kind := stable_sort) no_quotes
              long_position) as [out|e]; [by rewrite Hq|discriminate].
Defined.

Lemma unrealized_pnl_finite_witness :
  Forall (λ r, 0 ≤ quantity (trade r)) long_position
  ∧ ∃ out, calculate_unrealized_pnl (kind := stable_sort) quote_115
             long_position = Ok (Some out).
Proof.
  assert (H : Forall (λ r, 0 ≤ quantity (trade r)) long_position)
    by (repeat constructor; by vm_compute).
  split; [exact H|].
  pose proof (unrealized_pnl_finite (kind := stable_sort)
                quote_115 long_position H) as Hq.
  destruct (calculate_unrealized_pnl (kind := stable_sort) quote_115
              long_position) as [[out|]|e].
  - by exists out.
  - by destruct Hq.
  - discriminate.
Defined.

(** ** The metrics dictionary *)

Lemma metrics_dictionary (r : Row) (df : DataFrame) :
  ∃ w aw al pf,
    win_loss (r :: df) = Ok (w, aw, al, pf)
    ∧ calculate_metrics (r :: df)
      = Ok (list_to_map
              [ ("total_trades"%string, PyInt (Z.of_nat (length (r :: df))));
                ("total_pnl"%string,
                  PyFloat (sum_list (realized_col (r :: df))
                           + sum_list (unrealized_col (r :: df))));
                ("win_rate"%string, w);
                ("avg_win"%string, aw);
                ("avg_loss"%string, al);
                ("profit_factor"%string, pf);
                ("max_drawdown"%string, series_min (drawdown (r :: df)));
                ("sharpe_ratio"%string, sharpe_ratio (r :: df));
                ("largest_win"%string, series_max (realized_col (r :: df)));
                ("largest_loss"%string, series_min (realized_col (r :: df)));
                ("best_month"%string, series_max (monthly_pnl (r :: df)));
                ("worst_month"%string, series_min (monthly_pnl (r :: df)));
                ("total_volume"%string,
                  PyFloat (sum_list (total_cost_col (r :: df))));
                ("avg_trade_size"%string,
                  series_mean (total_cost_col (r :: df))) ]).
Proof.
  destruct (win_loss_returns (r :: df)) as [[[[w aw] al] pf] E].
  exists w, aw, al, pf. split; [done|].
  unfold calculate_metrics. by rewrite E.
Qed.

(** X11. For every non-empty trade set the returned dictionary holds exactly
    the fourteen metric fields. *)
Theorem metrics_fields (r : Row) (df : DataFrame) :
  ∃ m, calculate_metrics (r :: df) = Ok m
     ∧ ∀ key, is_Some (m !! key)
         ↔ key ∈ [ "total_trades"; "total_pnl"; "win_rate"; "avg_win";
                   "avg_loss"; "profit_factor"; "max_drawdown";
                   "sharpe_ratio"; "largest_win"; "largest_loss";
                   "best_month"; "worst_month"; "total_volume";
                   "avg_trade_size" ]%string.
Proof.
  destruct (metrics_dictionary r df) as (w & aw & al & pf & _ & ->).
  eexists. split; [done|]. intros key.
  rewrite <-elem_of_dom, dom_list_to_map_L, elem_of_list_to_set. done.
Qed.

Lemma Qc_of_Z_100_pos : 0 < Qc_of_Z 100.
Proof. by vm_compute. Qed.

Lemma percentage_bounds (a b : Z) :
  (0 ≤ a ≤ b)%Z → (0 < b)%Z →
  0 ≤ Qc_of_Z a / Qc_of_Z b * Qc_of_Z 100
  ∧ Qc_of_Z a / Qc_of_Z b * Qc_of_Z 100 ≤ Qc_of_Z 100.
Proof.
  intros [Ha Hab] Hb.
  pose proof (proj1 (Z2Qc_inj_lt 0 b) Hb) as Hb'.
  pose proof (proj1 (Z2Qc_inj_le 0 a) Ha) as Ha'.
  pose proof (proj1 (Z2Qc_inj_le a b) Hab) as Hab'.
  rewrite Z2Qc_inj_0 in Hb', Ha'.
  pose proof (Qcinv_pos _ Hb') as Hinv.
  assert (H0 : 0 ≤ Qc_of_Z a / Qc_of_Z b).
  { apply Qcmult_nonneg_nonneg; [done|by apply Qclt_le_weak]. }
  assert (H1 : Qc_of_Z a / Qc_of_Z b ≤ 1).
  { rewrite <-(Qcmult_inv_r (Qc_of_Z b)) by by apply positive_nonzero.
    apply Qcmult_le_mono_nonneg_r; [by apply Qclt_le_weak|done]. }
  split.
  - apply Qcmult_nonneg_nonneg; [done|]. apply Qclt_le_weak, Qc_of_Z_100_pos.
  - rewrite <-(Qcmult_1_l (Qc_of_Z 100)) at 2.
    apply Qcmult_le_mono_nonneg_r; [|done].
    apply Qclt_le_weak, Qc_of_Z_100_pos.
Qed.

(** X12. The win rate is a percentage: between 0 and 100 when some row has
    a non-zero realized_pnl, and the integer 0 exactly when none has. *)
Theorem win_rate_is_percentage (r : Row) (df : DataFrame) :
  ∃ m w, calculate_metrics (r :: df) = Ok m
       ∧ m !! "win_rate"%string = Some w
       ∧ match w with
         | PyFloat x =>
             0 ≤ x ∧ x ≤ Qc_of_Z 100
             ∧ Exists (λ r, realized_pnl (trade r) ≠ 0) (r :: df)
         | PyInt n =>
             n = 0%Z ∧ Forall (λ r, realized_pnl (trade r) = 0) (r :: df)
         | _ => False
         end.
Proof.
  destruct (calculate_metrics_returns (r :: df)) as [m Hm].
  destruct (metrics_entries _ m Hm) as (w & aw & al & pf & Hwl & _ & _ & Hw & _);
    [done|].
  exists m, w. split; [done|]. split; [done|].
  revert Hwl. unfold win_loss.
  destruct (filter _ (r :: df)) as [|x R] eqn:E.
  - intros [= <- _ _ _]. split; [done|].
    apply Forall_forall. intros y Hy.
    destruct (decide (realized_pnl (trade y) = 0)) as [|Hne]; [done|].
    assert (y ∈ filter (λ r, realized_pnl (trade r) ≠ 0) (r :: df))
      by by apply list_elem_of_filter.
    rewrite E in H. by apply elem_of_nil in H.
  - set (W := filter _ (x :: R)).
    assert (Hlen : (length W ≤ length (x :: R))%nat) by apply length_filter.
    rewrite pydiv_ok.
    2:{ intros H%Qc_of_Z_eq_0. simpl in H. lia. }
    simpl. intros [= <- _ _ _].
    destruct (percentage_bounds (Z.of_nat (length W)) (Z.of_nat (length (x :: R))))
      as [H0 H1]; [lia|simpl; lia|].
    split; [done|]. split; [done|].
    apply Exists_exists. exists x.
    assert (Hx : x ∈ filter (λ r, realized_pnl (trade r) ≠ 0) (r :: df))
      by (rewrite E; by left).
    apply list_elem_of_filter in Hx as [Hx1 Hx2]. done.
Qed.

Lemma losing_of_realized (df : DataFrame) :
  filter (λ r, realized_pnl (trade r) < 0)
         (filter (λ r, realized_pnl (trade r) ≠ 0) df)
  = filter (λ r, realized_pnl (trade r) < 0) df.
Proof.
  rewrite list_filter_filter. apply list_filter_iff. intros r. split.
  - tauto.
  - intros H. split; [done|]. by apply Qclt_not_eq.
Qed.

Lemma winning_of_realized (df : DataFrame) :
  filter (λ r, 0 < realized_pnl (trade r))
         (filter (λ r, realized_pnl (trade r) ≠ 0) df)
  = filter (λ r, 0 < realized_pnl (trade r)) df.
Proof.
  rewrite list_filter_filter. apply list_filter_iff. intros r. split.
  - tauto.
  - intros H. split; [done|]. intros E. rewrite E in H.
    by apply Qclt_not_eq in H.
Qed.

Lemma sum_list_neg l : l ≠ [] → Forall (λ x, x < 0) l → sum_list l < 0.
Proof.
  intros Hne Hall. destruct Hall as [|x l Hx Hl]; [done|]. simpl.
  apply Qcplus_neg_nonpos; [done|]. clear Hne.
  induction Hl as [|y l Hy _ IH]; simpl; [done|].
  apply Qcplus_nonpos_nonpos; [by apply Qclt_le_weak|done].
Qed.

Lemma pyabs_ratio (W L : Qc) :
  0 ≤ W → L < 0 → 0 ≤ pyabs (W / L) ∧ pyabs (W / L) * - L = W.
Proof.
  intros HW HL.
  assert (HL' : L ≠ 0) by (by apply Qclt_not_eq).
  assert (HnL : 0 < - L).
  { apply (Qcplus_lt_mono_r _ _ L). by replace (- L + L) with 0 by ring;
      rewrite Qcplus_0_l. }
  unfold pyabs. destruct (decide (W / L < 0)) as [Hneg|Hpos].
  - split; [|field; done].
    apply Qclt_le_weak, (Qcplus_lt_mono_r _ _ (W / L)).
    by replace (- (W / L) + W / L) with 0 by ring; rewrite Qcplus_0_l.
  - apply Qcnot_lt_le in Hpos. split; [done|].
    assert (H0 : 0 ≤ W / L * - L)
      by (apply Qcmult_nonneg_nonneg; [done|by apply Qclt_le_weak]).
    replace (W / L * - L) with (- W) in H0 |- * by (field; done).
    assert (HW0 : W ≤ 0).
    { apply (Qcplus_le_mono_r _ _ W) in H0.
      by replace (- W + W) with 0 in H0 by ring; rewrite Qcplus_0_l in H0. }
    assert (W = 0) as -> by by apply Qcle_antisym.
    ring.
Qed.

(** X13. The profit factor has three cases: the integer 0 when no row has a
    non-zero realized_pnl; the unbounded value when some row has and none is
    a loss; and otherwise the non-negative ratio of the sum of the winning
    rows to the absolute sum of the losing rows, whose divisor is then never
    zero. *)
Theorem profit_factor_cases (r : Row) (df : DataFrame) :
  ∃ m pf, calculate_metrics (r :: df) = Ok m
        ∧ m !! "profit_factor"%string = Some pf
        ∧ (Forall (λ r, realized_pnl (trade r) = 0) (r :: df) → pf = PyInt 0)
        ∧ (Exists (λ r, realized_pnl (trade r) ≠ 0) (r :: df) →
           Forall (λ r, 0 ≤ realized_pnl (trade r)) (r :: df) → pf = PyInf)
        ∧ (Exists (λ r, realized_pnl (trade r) < 0) (r :: df) →
           ∃ x, pf = PyFloat x
              ∧ 0 ≤ x
              ∧ sum_list (realized_col
                            (filter (λ r, realized_pnl (trade r) < 0) (r :: df))) < 0
              ∧ x * - sum_list (realized_col
                                  (filter (λ r, realized_pnl (trade r) < 0) (r :: df)))
                = sum_list (realized_col
                              (filter (λ r, 0 < realized_pnl (trade r)) (r :: df)))).
Proof.
  destruct (calculate_metrics_returns (r :: df)) as [m Hm].
  destruct (metrics_entries _ m Hm) as (w & aw & al & pf & Hwl & _ & _ & _ & Hpf & _);
    [done|].
  exists m, pf. split; [done|]. split; [done|].
  revert Hwl. unfold win_loss.
  rewrite losing_of_realized, winning_of_realized.
  set (all := r :: df).
  set (L := filter (λ r, realized_pnl (trade r) < 0) all).
  set (W := filter (λ r, 0 < realized_pnl (trade r)) all).
  destruct (filter (λ r, realized_pnl (trade r) ≠ 0) all) as [|x R] eqn:E.
  - intros [= _ _ _ <-]. split; [done|]. split.
    + intros (y & Hy & Hne)%Exists_exists. exfalso.
      assert (y ∈ filter (λ r, realized_pnl (trade r) ≠ 0) all)
        by by apply list_elem_of_filter.
      rewrite E in H. by apply elem_of_nil in H.
    + intros (y & Hy & Hneg)%Exists_exists. exfalso.
      assert (y ∈ filter (λ r, realized_pnl (trade r) ≠ 0) all).
      { apply list_elem_of_filter. split; [|done]. by apply Qclt_not_eq. }
      rewrite E in H. by apply elem_of_nil in H.
  - rewrite pydiv_ok.
    2:{ intros H%Qc_of_Z_eq_0. simpl in H. lia. }
    simpl. intros [= _ _ _ <-].
    assert (Hx : realized_pnl (trade x) ≠ 0 ∧ x ∈ all).
    { apply (list_elem_of_filter (λ r, realized_pnl (trade r) ≠ 0)).
      rewrite E. by left. }
    split; [|split].
    + intros Hall. exfalso. destruct Hx as [Hx Hin]. apply Hx.
      by apply (proj1 (Forall_forall _ _) Hall).
    + intros _ Hnonneg. rewrite decide_False; [done|]. intros [Hlen _].
      destruct L as [|y L'] eqn:EL; [simpl in Hlen; lia|].
      assert (Hy : y ∈ L) by (rewrite EL; by left).
      apply list_elem_of_filter in Hy as [Hy Hin].
      apply (proj1 (Forall_forall _ _) Hnonneg) in Hin.
      by apply Qclt_not_le in Hy.
    + intros (y & Hy & Hneg)%Exists_exists.
      assert (HyL : y ∈ L) by by apply list_elem_of_filter.
      assert (HL : sum_list (realized_col L) < 0).
      { apply sum_list_neg.
        - intros EL%fmap_nil_inv. rewrite EL in HyL. by apply elem_of_nil in HyL.
        - apply Forall_fmap, Forall_forall. intros z Hz.
          by apply list_elem_of_filter in Hz as [Hz _]. }
      assert (HW : 0 ≤ sum_list (realized_col W)).
      { apply sum_list_nonneg.
        apply Forall_fmap, Forall_forall. intros z Hz.
        apply list_elem_of_filter in Hz as [Hz _]. by apply Qclt_le_weak. }
      destruct (pyabs_ratio _ _ HW HL) as [H0 Hprod].
      eexists. rewrite decide_True.
      * split; [done|]. split; [done|]. split; [done|]. exact Hprod.
      * split; [|by apply Qclt_not_eq].
        destruct L; [by apply elem_of_nil in HyL|simpl; lia].
Qed.

(** ** Risk sizing, continued *)

Lemma kelly_percentage_returns win_rate avg_win avg_loss :
  returns (kelly_percentage win_rate avg_win avg_loss)
  ↔ avg_loss = 0 ∨ avg_win ≠ 0.
Proof.
  unfold returns, kelly_percentage, pydiv.
  destruct (decide (avg_loss ≠ 0)) as [Hl|Hl].
  - destruct (decide (avg_win = 0)) as [Hw|Hw]; simpl.
    + split; [by intros [k ?]|]. intros [?|?]; done.
    + split; [by right|]. intros _. by eexists.
  - split; [|intros _; by eexists]. intros _. left.
    by destruct (decide (avg_loss = 0)).
Qed.

Lemma kelly_percentage_raises win_rate avg_win avg_loss k e :
  kelly_percentage win_rate avg_win avg_loss = Raise e →
  e = ZeroDivisionError ∧ ¬ kelly_percentage win_rate avg_win avg_loss = Ok k.
Proof.
  intros E. rewrite E. split; [|done]. revert E.
  unfold kelly_percentage, pydiv.
  destruct (decide (avg_loss ≠ 0)); [|done].
  destruct (decide (avg_win = 0)); simpl; [|done]. by intros [= <-].
Qed.

Lemma max_shares_step account_value p stop :
  (if decide (0 < p * stop)
   then q ← pydiv (account_value * dec 1 100) (p * stop); Ok (pyint q)
   else Ok 0%Z)
  = Ok (max_shares_of account_value p stop).
Proof.
  unfold max_shares_of. destruct (decide (0 < p * stop)) as [H|]; [|done].
  by rewrite pydiv_ok by by apply positive_nonzero.
Qed.

(** The dictionary returned when nothing raises. *)
Lemma risk_metrics_dictionary account_value (trade_data : gmap string Qc) p k :
  trade_data !! "price"%string = Some p → p ≠ 0 →
  kelly_percentage (dict_get trade_data "win_rate" (dec 5 10))
                   (dict_get trade_data "avg_win" 0)
                   (dict_get trade_data "avg_loss" 0) = Ok k →
  calculate_risk_metrics account_value trade_data
  = Ok (list_to_map
          [ ("one_percent_risk"%string, PyFloat (account_value * dec 1 100));
            ("max_shares_1pct"%string,
              PyInt (max_shares_of account_value p
                       (dict_get trade_data "stop_loss_pct" (dec 2 100))));
            ("kelly_percentage"%string, PyFloat k);
            ("recommended_position_size"%string,
              PyInt (Z.min (max_shares_of account_value p
                              (dict_get trade_data "stop_loss_pct" (dec 2 100)))
                           (pyint (account_value * k / p)))) ]).
Proof.
  intros Hp Hne Hk. unfold calculate_risk_metrics, dict_item.
  rewrite Hp. simpl. rewrite max_shares_step. simpl. rewrite Hk. simpl.
  by rewrite pydiv_ok.
Qed.

Lemma risk_metrics_outcome (account_value : Qc)
    (trade_data : gmap string Qc) :
  (trade_data !! "price"%string = None →
   calculate_risk_metrics account_value trade_data = Raise (KeyError "price"))
  ∧ (∀ p, trade_data !! "price"%string = Some p →
       (p = 0 ∨ (dict_get trade_data "avg_loss" 0 ≠ 0
                 ∧ dict_get trade_data "avg_win" 0 = 0)) →
       calculate_risk_metrics account_value trade_data = Raise ZeroDivisionError)
  ∧ (returns (calculate_risk_metrics account_value trade_data)
     ↔ ∃ p, trade_data !! "price"%string = Some p
          ∧ p ≠ 0
          ∧ (dict_get trade_data "avg_loss" 0 = 0
             ∨ dict_get trade_data "avg_win" 0 ≠ 0)).
Proof.
  assert (Hraise : ∀ p, trade_data !! "price"%string = Some p →
       (p = 0 ∨ (dict_get trade_data "avg_loss" 0 ≠ 0
                 ∧ dict_get trade_data "avg_win" 0 = 0)) →
       calculate_risk_metrics account_value trade_data = Raise ZeroDivisionError).
  { intros p Hp Hbad. unfold calculate_risk_metrics, dict_item.
    rewrite Hp. simpl. rewrite max_shares_step. simpl.
    destruct (kelly_percentage _ _ _) as [k|e] eqn:Ek; simpl.
    - destruct Hbad as [->|[Hl Hw]].
      + unfold pydiv. by rewrite decide_True.
      + exfalso. assert (Hr : returns (kelly_percentage
            (dict_get trade_data "win_rate" (dec 5 10))
            (dict_get trade_data "avg_win" 0)
            (dict_get trade_data "avg_loss" 0))) by by exists k.
        apply kelly_percentage_returns in Hr. tauto.
    - by destruct (kelly_percentage_raises _ _ _ 0 e Ek) as [-> _]. }
  split; [|split; [exact Hraise|]].
  - intros Hp. unfold calculate_risk_metrics, dict_item. by rewrite Hp.
  - split.
    + intros [m Hm]. destruct (trade_data !! "price"%string) as [p|] eqn:Hp.
      * exists p. split; [done|].
        destruct (decide (p = 0)) as [->|Hne].
        { rewrite (Hraise 0) in Hm; [done|done|by left]. }
        split; [done|].
        destruct (decide (dict_get trade_data "avg_loss" 0 = 0)); [by left|].
        destruct (decide (dict_get trade_data "avg_win" 0 = 0)); [|by right].
        rewrite (Hraise p) in Hm; [done|done|by right].
      * unfold calculate_risk_metrics, dict_item in Hm. by rewrite Hp in Hm.
    + intros (p & Hp & Hne & Hk).
      apply (kelly_percentage_returns (dict_get trade_data "win_rate" (dec 5 10)))
        in Hk as [k Hk].
      eexists. by apply (risk_metrics_dictionary _ _ p k).
Qed.

(** X15. [calculate_risk_metrics] raises KeyError when the price is missing
    and ZeroDivisionError when the price is 0 or when avg_win is 0 while
    avg_loss is not; in every other case it returns. *)
Theorem risk_metrics_returns_iff (account_value : Qc)
    (trade_data : gmap string Qc) :
  (trade_data !! "price"%string = None →
   calculate_risk_metrics account_value trade_data = Raise (KeyError "price"))
  ∧ (∀ p, trade_data !! "price"%string = Some p →
       (p = 0 ∨ (dict_get trade_data "avg_loss" 0 ≠ 0
                 ∧ dict_get trade_data "avg_win" 0 = 0)) →
       calculate_risk_metrics account_value trade_data = Raise ZeroDivisionError)
  ∧ (returns (calculate_risk_metrics account_value trade_data)
     ↔ ∃ p, trade_data !! "price"%string = Some p
          ∧ p ≠ 0
          ∧ (dict_get trade_data "avg_loss" 0 = 0
             ∨ dict_get trade_data "avg_win" 0 ≠ 0)).
Proof. apply risk_metrics_outcome. Qed.

Lemma Qc_nonneg_num (x : Qc) : 0 ≤ x → (0 ≤ Qnum (this x))%Z.
Proof.
  unfold Qcle, Qle. simpl. rewrite Z.mul_1_r. done.
Qed.

Lemma pyint_nonneg (x : Qc) : 0 ≤ x → (0 ≤ pyint x)%Z.
Proof.
  intros H%Qc_nonneg_num. unfold pyint. apply Z.quot_pos; lia.
Qed.

Lemma Qcdiv_nonneg (x y : Qc) : 0 ≤ x → 0 < y → 0 ≤ x / y.
Proof.
  intros Hx Hy. apply Qcmult_nonneg_nonneg; [done|].
  by apply Qclt_le_weak, Qcinv_pos.
Qed.

Lemma dec_1_100_nonneg : 0 ≤ dec 1 100.
Proof. by vm_compute. Qed.

Lemma max_shares_nonneg account_value p stop :
  0 ≤ account_value → (0 ≤ max_shares_of account_value p stop)%Z.
Proof.
  intros Ha. unfold max_shares_of. destruct (decide _) as [H|]; [|done].
  apply pyint_nonneg, Qcdiv_nonneg; [|done].
  apply Qcmult_nonneg_nonneg; [done|apply dec_1_100_nonneg].
Qed.

(** X16. Whenever [calculate_risk_metrics] returns, the Kelly fraction lies
    in [0, 0.25], and the recommended position size never exceeds the number
    of units allowed by the one-percent rule; for a non-negative account and
    a positive price neither number of units is negative. *)
Theorem risk_metrics_bounds (account_value : Qc) (trade_data : gmap string Qc) m :
  calculate_risk_metrics account_value trade_data = Ok m →
  ∃ p max_shares k size,
    trade_data !! "price"%string = Some p
    ∧ m !! "one_percent_risk"%string = Some (PyFloat (account_value * dec 1 100))
    ∧ m !! "max_shares_1pct"%string = Some (PyInt max_shares)
    ∧ m !! "kelly_percentage"%string = Some (PyFloat k)
    ∧ m !! "recommended_position_size"%string = Some (PyInt size)
    ∧ 0 ≤ k ∧ k ≤ dec 25 100
    ∧ (size ≤ max_shares)%Z
    ∧ (0 ≤ account_value → (0 ≤ max_shares)%Z)
    ∧ (0 ≤ account_value → 0 < p → (0 ≤ size)%Z).
Proof.
  intros Hm.
  destruct (proj1 (proj2 (proj2 (risk_metrics_outcome account_value trade_data))))
    as (p & Hp & Hne & Hk); [by exists m|].
  apply (kelly_percentage_returns (dict_get trade_data "win_rate" (dec 5 10)))
    in Hk as [k Hk].
  rewrite (risk_metrics_dictionary _ _ p k Hp Hne Hk) in Hm. injection Hm as <-.
  destruct (kelly_percentage_bounds _ _ _ _ Hk) as [Hk0 Hk1].
  eexists p, _, k, _. split; [done|].
  split; [by rewrite lookup_insert_eq|].
  split; [by rewrite lookup_insert_ne, lookup_insert_eq|].
  split; [by do 2 (rewrite lookup_insert_ne by done); rewrite lookup_insert_eq|].
  split; [by do 3 (rewrite lookup_insert_ne by done); rewrite lookup_insert_eq|].
  split; [done|]. split; [done|]. split; [apply Z.le_min_l|].
  split; [apply max_shares_nonneg|].
  intros Ha Hpos. apply Z.min_glb; [by apply max_shares_nonneg|].
  apply pyint_nonneg, Qcdiv_nonneg; [|done].
  by apply Qcmult_nonneg_nonneg.
Qed.

Lemma risk_metrics_bounds_witness :
  ∃ m, calculate_risk_metrics (Qc_of_Z 10000)
         (list_to_map [ ("price"%string, Qc_of_Z 50) ]) = Ok m
     ∧ ∃ k, m !! "kelly_percentage"%string = Some (PyFloat k)
          ∧ 0 ≤ k ∧ k ≤ dec 25 100.
Proof.
  destruct (proj2 (proj2 (proj2 (risk_metrics_outcome (Qc_of_Z 10000)
              (list_to_map [ ("price"%string, Qc_of_Z 50) ])))))
    as [m Hm].
  { exists (Qc_of_Z 50). split; [reflexivity|]. split; [qc_neq|]. by left. }
  exists m. split; [exact Hm|].
  destruct (risk_metrics_bounds _ _ m Hm)
    as (p & ms & k & size & _ & _ & _ & Hk & _ & H0 & H1 & _).
  exists k. split; [exact Hk|]. split; [exact H0|exact H1].
Defined.

(** X17. With no average loss on record ([avg_loss] absent or 0) the Kelly
    fraction is 0, and for a non-negative account the recommended position
    size is 0 whatever the other parameters. *)
Theorem no_loss_recommends_nothing (account_value : Qc)
    (trade_data : gmap string Qc) p :
  trade_data !! "price"%string = Some p →
  p ≠ 0 →
  dict_get trade_data "avg_loss" 0 = 0 →
  0 ≤ account_value →
  ∃ m, calculate_risk_metrics account_value trade_data = Ok m
     ∧ m !! "kelly_percentage"%string = Some (PyFloat 0)
     ∧ m !! "recommended_position_size"%string = Some (PyInt 0).
Proof.
  intros Hp Hne Hl Ha.
  assert (Hk : kelly_percentage (dict_get trade_data "win_rate" (dec 5 10))
                 (dict_get trade_data "avg_win" 0)
                 (dict_get trade_data "avg_loss" 0) = Ok 0).
  { unfold kelly_percentage. rewrite Hl. by rewrite decide_False by tauto. }
  eexists. split; [by apply (risk_metrics_dictionary _ _ p 0)|].
  rewrite !list_to_map_cons.
  split; [by do 2 (rewrite lookup_insert_ne by done); rewrite lookup_insert_eq|].
  do 3 (rewrite lookup_insert_ne by done). rewrite lookup_insert_eq.
  do 2 f_equal.
  replace (account_value * 0 / p) with (Q2Qc 0) by (field; done).
  change (pyint 0) with 0%Z.
  apply Z.min_r. by apply max_shares_nonneg.
Qed.

Lemma no_loss_recommends_nothing_witness :
  ∃ m, calculate_risk_metrics (Qc_of_Z 10000)
         (list_to_map [ ("price"%string, Qc_of_Z 50) ]) = Ok m
     ∧ m !! "recommended_position_size"%string = Some (PyInt 0).
Proof.
  destruct (no_loss_recommends_nothing (Qc_of_Z 10000)
              (list_to_map [ ("price"%string, Qc_of_Z 50) ]) (Qc_of_Z 50))
    as (m & Hm & _ & Hsize).
  - reflexivity.
  - qc_neq.
  - reflexivity.
  - by vm_compute.
  - exists m. split; [exact Hm|exact Hsize].
Defined.

(** ** The ledger: adding, finding, deleting, updating *)

Lemma fold_max_ge (xs : list Z) (x : Z) :
  (x ≤ fold_left Z.max xs x)%Z ∧ ∀ y, y ∈ xs → (y ≤ fold_left Z.max xs x)%Z.
Proof.
  revert x. induction xs as [|z xs IH]; intros x; simpl.
  - split; [lia|]. by intros y Hy%elem_of_nil.
  - destruct (IH (Z.max x z)) as [H1 H2]. split; [lia|].
    intros y [->|Hy]%elem_of_cons; [lia|by apply H2].
Qed.

Lemma next_id_fresh (l : Ledger) t : t ∈ l → (id t < next_id l)%Z.
Proof.
  intros Ht. unfold next_id.
  assert (Hin : id t ∈ id <$> l) by by apply list_elem_of_fmap_2.
  destruct (id <$> l) as [|x xs]; [by apply elem_of_nil in Hin|].
  destruct (fold_max_ge xs x) as [H1 H2].
  apply elem_of_cons in Hin as [->|Hin]; [lia|].
  specialize (H2 _ Hin). lia.
Qed.

Lemma next_id_not_in (l : Ledger) : next_id l ∉ (id <$> l).
Proof.
  intros (t & E & Ht)%list_elem_of_fmap_1.
  apply next_id_fresh in Ht. lia.
Qed.

Lemma add_trade_record (l : Ledger) trade_data :
  add_trade l trade_data = (Ok (next_id l), l ++ [new_record l trade_data]).
Proof. done. Qed.

Lemma find_trade_app_new (l : Ledger) t :
  id t ∉ (id <$> l) → find_trade (l ++ [t]) (id t) = Some t.
Proof.
  intros Hid. unfold find_trade. rewrite filter_app, filter_none.
  - rewrite filter_cons_True by done. done.
  - intros y Hy E. apply Hid. rewrite <-E. by apply list_elem_of_fmap_2.
Qed.

Lemma filter_other_ids (l : Ledger) i :
  i ∉ (id <$> l) → filter (λ t, id t ≠ i) l = l.
Proof.
  induction l as [|x l IH]; intros Hi; [done|].
  csimpl in Hi. apply not_elem_of_cons in Hi as [Hx Hi].
  rewrite filter_cons_True by done. by rewrite IH.
Qed.

(** X18. [add_trade] stores the trade at the end of the ledger under an id
    that no record holds yet, with total_cost = price × quantity + fees and
    no P&L, and the record is then found under the returned id. *)
Theorem add_trade_then_find (l : Ledger) (trade_data : TradeData) :
  ∃ trade_id t,
    add_trade l trade_data = (Ok trade_id, l ++ [t])
    ∧ (trade_id ∉ (id <$> l))
    ∧ find_trade (l ++ [t]) trade_id = Some t
    ∧ id t = trade_id
    ∧ price t = td_price trade_data
    ∧ quantity t = td_quantity trade_data
    ∧ fees t = default 0 (td_fees trade_data)
    ∧ total_cost t = price t * quantity t + fees t
    ∧ realized_pnl t = 0 ∧ unrealized_pnl t = 0.
Proof.
  exists (next_id l), (new_record l trade_data).
  split; [apply add_trade_record|].
  split; [apply next_id_not_in|].
  split; [apply (find_trade_app_new l (new_record l trade_data)), next_id_not_in|].
  done.
Qed.

(** X22. Deleting the trade that was just added gives the ledger back. *)
Theorem add_then_delete (l : Ledger) (trade_data : TradeData) :
  ∃ trade_id l',
    add_trade l trade_data = (Ok trade_id, l')
    ∧ delete_trade l' trade_id = (Ok true, l).
Proof.
  eexists _, _. split; [apply add_trade_record|].
  unfold delete_trade.
  pose proof (find_trade_app_new l (new_record l trade_data) (next_id_not_in l))
    as Hfind.
  change (id (new_record l trade_data)) with (next_id l) in Hfind.
  rewrite Hfind. f_equal. rewrite filter_app, filter_cons_False by (simpl; tauto).
  rewrite filter_nil, app_nil_r. apply filter_other_ids, next_id_not_in.
Qed.

Lemma find_trade_Some (l : Ledger) i :
  i ∈ id <$> l → ∃ t, find_trade l i = Some t ∧ t ∈ l ∧ id t = i.
Proof.
  intros (t & -> & Ht)%list_elem_of_fmap_1. unfold find_trade.
  destruct (filter (λ x, id x = id t) l) as [|y ys] eqn:E.
  - exfalso. assert (t ∈ filter (λ x, id x = id t) l)
      by by apply list_elem_of_filter.
    rewrite E in H. by apply elem_of_nil in H.
  - exists y. split; [done|].
    assert (Hy : y ∈ filter (λ x, id x = id t) l) by (rewrite E; by left).
    by apply list_elem_of_filter in Hy as [? ?].
Qed.

Lemma length_filter_one (l : Ledger) i :
  unique_ids l → i ∈ id <$> l →
  length l = S (length (filter (λ t, id t ≠ i) l)).
Proof.
  unfold unique_ids. induction l as [|x l IH]; intros Hnd Hi.
  - by apply elem_of_nil in Hi.
  - csimpl in *. apply NoDup_cons in Hnd as [Hx Hnd].
    destruct (decide (id x = i)) as [<-|Hne].
    + rewrite filter_cons_False by tauto. by rewrite filter_other_ids.
    + rewrite filter_cons_True by done. simpl. f_equal. apply IH; [done|].
      apply elem_of_cons in Hi as [?|?]; [congruence|done].
Qed.

(** X21. Deleting an id that a record holds (ids being unique) returns True
    and removes exactly that record: the ledger is one shorter, the id is
    gone, every other record stays in its place, and deleting the same id
    once more returns False and changes nothing. *)
Theorem delete_present_id (l : Ledger) trade_id :
  unique_ids l →
  trade_id ∈ id <$> l →
  ∃ l', delete_trade l trade_id = (Ok true, l')
      ∧ l' = filter (λ t, id t ≠ trade_id) l
      ∧ (trade_id ∉ (id <$> l'))
      ∧ length l = S (length l')
      ∧ unique_ids l'
      ∧ delete_trade l' trade_id = (Ok false, l').
Proof.
  intros Hnd Hin.
  destruct (find_trade_Some l trade_id Hin) as (t & Hfind & _).
  eexists. split; [unfold delete_trade; by rewrite Hfind|].
  split; [done|].
  assert (Hgone : trade_id ∉ (id <$> filter (λ t, id t ≠ trade_id) l)).
  { intros (y & -> & Hy)%list_elem_of_fmap_1.
    by apply list_elem_of_filter in Hy as [? _]. }
  split; [done|]. split; [by apply length_filter_one|].
  split.
  - unfold unique_ids in *. eapply sublist_NoDup; [exact Hnd|].
    apply fmap_sublist, sublist_filter.
  - unfold delete_trade. by rewrite find_trade_missing.
Qed.

Lemma delete_present_id_witness :
  unique_ids scenario_B
  ∧ (2%Z ∈ id <$> scenario_B)
  ∧ ∃ l', delete_trade scenario_B 2 = (Ok true, l')
        ∧ length scenario_B = S (length l')
        ∧ delete_trade l' 2 = (Ok false, l').
Proof.
  assert (Hnd : unique_ids scenario_B) by unique_labels.
  assert (Hin : 2%Z ∈ id <$> scenario_B) by unique_labels.
  split; [exact Hnd|]. split; [exact Hin|].
  destruct (delete_present_id scenario_B 2 Hnd Hin)
    as (l' & Hdel & _ & _ & Hlen & _ & Hagain).
  exists l'. split; [exact Hdel|]. split; [exact Hlen|exact Hagain].
Defined.

Lemma setattr_keeps_id t a : (∀ v, a ≠ SetId v) → id (setattr_trade t a) = id t.
Proof. intros Ha. destruct a; try done. by destruct (Ha v). Qed.

Lemma fold_setattr_keeps_id trade_data t :
  keeps_id trade_data → id (fold_left setattr_trade trade_data t) = id t.
Proof.
  intros Hk. revert t. induction Hk as [|a data Ha _ IH]; intros t; [done|].
  simpl. by rewrite IH, setattr_keeps_id.
Qed.

Lemma find_trade_replaced (l : Ledger) i j t2 :
  id t2 = i →
  find_trade ((λ t, if decide (id t = i) then t2 else t) <$> l) j
  = if decide (j = i)
    then (if decide (i ∈ id <$> l) then Some t2 else None)
    else find_trade l j.
Proof.
  intros Hid. unfold find_trade. induction l as [|x l IH].
  - simpl. by destruct (decide (j = i)).
  - csimpl. rewrite !filter_cons.
    destruct (decide (id x = i)) as [Hx|Hx]; simpl;
    destruct (decide (j = i)) as [Hj|Hj]; simpl;
    repeat (case_decide; simpl); subst; try congruence; try done.
    all: exfalso; match goal with
         | H : _ ∉ _ :: _ |- _ => apply not_elem_of_cons in H as [? ?]
         | H : _ ∈ _ :: _ |- _ => apply elem_of_cons in H as [?|?]
         end; congruence.
Qed.

Lemma replaced_ids_same (l : Ledger) i t2 :
  id t2 = i →
  id <$> ((λ t, if decide (id t = i) then t2 else t) <$> l) = id <$> l.
Proof.
  intros Hid. rewrite <-list_fmap_compose. apply list_fmap_ext.
  intros _ t _. simpl. destruct (decide (id t = i)); congruence.
Qed.

Lemma update_trade_found (l : Ledger) trade_id trade_data t :
  find_trade l trade_id = Some t →
  keeps_id trade_data →
  id t = trade_id →
  update_trade l trade_id trade_data
  = (Ok true,
     (λ x, if decide (id x = trade_id)
           then setattr_trade (fold_left setattr_trade trade_data t)
                  (SetTotalCost
                     (price (fold_left setattr_trade trade_data t)
                      * quantity (fold_left setattr_trade trade_data t)
                      + fees (fold_left setattr_trade trade_data t)))
           else x) <$> l).
Proof.
  intros Hfind Hk Hid. unfold update_trade. rewrite Hfind.
  rewrite decide_False; [done|]. simpl.
  rewrite (fold_setattr_keeps_id _ _ Hk), Hid.
  intros (y & -> & Hy)%list_elem_of_fmap_1.
  by apply list_elem_of_filter in Hy as [? _].
Qed.

(** X23. Updating a record that exists, with data that leave the id alone,
    returns True; the ids of the ledger and every other record are
    unchanged, and the updated record has total_cost = price × quantity +
    fees: the total cost is recomputed after the assignments, whatever was
    assigned to it. *)
Theorem update_present_id (l : Ledger) trade_id trade_data :
  trade_id ∈ id <$> l →
  keeps_id trade_data →
  ∃ l' t',
    update_trade l trade_id trade_data = (Ok true, l')
    ∧ id <$> l' = id <$> l
    ∧ find_trade l' trade_id = Some t'
    ∧ total_cost t' = price t' * quantity t' + fees t'
    ∧ ∀ j, j ≠ trade_id → find_trade l' j = find_trade l j.
Proof.
  intros Hin Hk.
  destruct (find_trade_Some l trade_id Hin) as (t & Hfind & _ & Hid).
  eexists _, _. split; [by apply (update_trade_found l trade_id trade_data t)|].
  set (t1 := fold_left setattr_trade trade_data t).
  set (t2 := setattr_trade t1 _).
  assert (Hid2 : id t2 = trade_id).
  { unfold t2, t1. simpl. by rewrite fold_setattr_keeps_id. }
  split; [by apply replaced_ids_same|].
  split; [by rewrite (find_trade_replaced l trade_id trade_id t2 Hid2),
            !decide_True|].
  split; [done|].
  intros j Hj. by rewrite (find_trade_replaced l trade_id j t2 Hid2), decide_False.
Qed.

Lemma update_present_id_witness :
  (2%Z ∈ id <$> scenario_A)
  ∧ keeps_id [SetQuantity (Qc_of_Z 4); SetTotalCost 0]
  ∧ ∃ l' t',
      update_trade scenario_A 2 [SetQuantity (Qc_of_Z 4); SetTotalCost 0]
      = (Ok true, l')
      ∧ find_trade l' 2 = Some t'
      ∧ total_cost t' = price t' * quantity t' + fees t'.
Proof.
  assert (Hin : 2%Z ∈ id <$> scenario_A) by unique_labels.
  assert (Hk : keeps_id [SetQuantity (Qc_of_Z 4); SetTotalCost 0])
    by (repeat constructor; discriminate).
  split; [exact Hin|]. split; [exact Hk|].
  destruct (update_present_id scenario_A 2 _ Hin Hk)
    as (l' & t' & Hup & _ & Hfind & Hcost & _).
  exists l', t'. split; [exact Hup|]. split; [exact Hfind|exact Hcost].
Defined.

(** *** Invariants *)

Lemma import_row_preserves (I : Ledger → Prop) s f l row s' f' l' :
  (∀ l trade_data, I l → I (add_trade l trade_data).2) →
  I l → import_row (s, f, l) row = Some (s', f', l') → I l'.
Proof.
  intros Hadd Hl. unfold import_row.
  destruct (parse_row row) as [rd|e]; [|by intros [= <- <- <-]].
  destruct (trade_data_of rd) as [td|].
  - specialize (Hadd l td Hl).
    destruct (add_trade l td) as [[i|e] l1]; by intros [= <- <- <-].
  - destruct (not_null_violated rd); [|done]. by intros [= <- <- <-].
Qed.

Lemma import_preserves (I : Ledger → Prop) :
  (∀ l trade_data, I l → I (add_trade l trade_data).2) →
  ∀ file l successful failed l',
    I l → import_from_csv l file = Some (successful, failed, l') → I l'.
Proof.
  intros Hadd [rows|] l successful failed l' Hl; unfold import_from_csv;
    [|by intros [= <- <- <-]].
  generalize 0%Z at 1. generalize 0%Z at 1. revert l Hl.
  induction rows as [|row rows IH]; intros l Hl f s.
  { by intros [= <- <- <-]. }
  cbn [import_rows].
  destruct (import_row (s, f, l) row) as [[[s1 f1] l1]|] eqn:E;
    cbn [mbind option_bind]; [|done].
  apply IH. by apply (import_row_preserves I s f l row s1 f1 l1).
Qed.

Lemma replaced_ids_NoDup (l : Ledger) i t2 :
  NoDup (id <$> l) →
  id t2 ∉ (id <$> filter (λ t, id t ≠ i) l) →
  NoDup (id <$> ((λ t, if decide (id t = i) then t2 else t) <$> l)).
Proof.
  induction l as [|x l IH]; intros Hnd Hnew; [done|].
  csimpl in Hnd. apply NoDup_cons in Hnd as [Hx Hnd]. csimpl.
  destruct (decide (id x = i)) as [Hxi|Hxi].
  - rewrite filter_cons_False in Hnew by tauto.
    assert (Hi : i ∉ (id <$> l)) by congruence.
    rewrite (filter_other_ids l i Hi) in Hnew.
    apply NoDup_cons. split.
    + intros (y & E & Hy)%list_elem_of_fmap_1.
      apply list_elem_of_fmap in Hy as (z & -> & Hz).
      destruct (decide (id z = i)) as [Hzi|Hzi].
      * apply Hi. rewrite <-Hzi. by apply list_elem_of_fmap_2.
      * apply Hnew. rewrite E. by apply list_elem_of_fmap_2.
    + rewrite <-list_fmap_compose.
      erewrite list_fmap_ext; [exact Hnd|].
      intros k z Hk. simpl. destruct (decide (id z = i)) as [Hzi|]; [|done].
      exfalso. apply Hi. rewrite <-Hzi.
      apply list_elem_of_fmap_2. by eapply list_elem_of_lookup_2.
  - rewrite filter_cons_True in Hnew by done. csimpl in Hnew.
    apply not_elem_of_cons in Hnew as [Hne Hnew].
    apply NoDup_cons. split; [|by apply IH].
    intros (y & E & Hy)%list_elem_of_fmap_1.
    apply list_elem_of_fmap in Hy as (z & -> & Hz).
    destruct (decide (id z = i)) as [Hzi|Hzi]; [congruence|].
    apply Hx. rewrite E. by apply list_elem_of_fmap_2.
Qed.

(** X19. The primary key: if the ids of the ledger are pairwise distinct,
    they still are after [add_trade], [update_trade], [delete_trade] and
    [import_from_csv], whatever their arguments and outcome. *)
Theorem unique_ids_preserved (l : Ledger) trade_data trade_id assignments file :
  unique_ids l →
  unique_ids (add_trade l trade_data).2
  ∧ unique_ids (update_trade l trade_id assignments).2
  ∧ unique_ids (delete_trade l trade_id).2
  ∧ ∀ successful failed l',
      import_from_csv l file = Some (successful, failed, l') → unique_ids l'.
Proof.
  assert (Hadd : ∀ l td, unique_ids l → unique_ids (add_trade l td).2).
  { intros l0 td Hnd. rewrite add_trade_record. unfold unique_ids in *. simpl.
    rewrite fmap_app. apply NoDup_app. split; [done|]. split.
    - intros x Hx [->|[]%elem_of_nil]%elem_of_cons.
      by apply (next_id_not_in l0).
    - apply NoDup_singleton. }
  intros Hnd. split; [by apply Hadd|]. split; [|split].
  - unfold update_trade. destruct (find_trade l trade_id); [|done].
    destruct (decide _) as [|Hnew]; [done|]. simpl.
    by apply replaced_ids_NoDup.
  - unfold delete_trade. destruct (find_trade l trade_id); [|done]. simpl.
    unfold unique_ids in *. eapply sublist_NoDup; [exact Hnd|].
    apply fmap_sublist, sublist_filter.
  - intros s f l'. by apply (import_preserves unique_ids).
Qed.

Lemma unique_ids_preserved_witness :
  unique_ids scenario_A
  ∧ unique_ids (add_trade scenario_A (parsed (jan 9) "ACME" "Buy" 100 1)).2
  ∧ unique_ids (update_trade scenario_A 1 [SetId 5]).2
  ∧ unique_ids (delete_trade scenario_A 1).2.
Proof.
  assert (H : unique_ids scenario_A) by unique_labels.
  split; [exact H|].
  destruct (unique_ids_preserved scenario_A (parsed (jan 9) "ACME" "Buy" 100 1)
              1 [SetId 5] None H) as (H1 & H2 & H3 & _).
  split; [exact H1|]. split; [exact H2|exact H3].
Defined.

(** X20. The stored total cost: if every record has total_cost = price ×
    quantity + fees, every record still has after [add_trade] (of a
    dictionary of numbers), [update_trade] and [delete_trade], and after an
    [import_from_csv] that stores no row with an empty date or fees cell
    (the ones whose records are none of the model). *)
Theorem costs_consistent_preserved (l : Ledger) trade_data trade_id assignments
    file :
  costs_consistent l →
  costs_consistent (add_trade l trade_data).2
  ∧ costs_consistent (update_trade l trade_id assignments).2
  ∧ costs_consistent (delete_trade l trade_id).2
  ∧ ∀ successful failed l',
      import_from_csv l file = Some (successful, failed, l') →
      costs_consistent l'.
Proof.
  assert (Hadd : ∀ l td, costs_consistent l → costs_consistent (add_trade l td).2).
  { intros l0 td Hc. rewrite add_trade_record. unfold costs_consistent in *.
    simpl. apply Forall_app. split; [done|]. by apply Forall_singleton. }
  intros Hc. split; [by apply Hadd|]. split; [|split].
  - unfold update_trade. destruct (find_trade l trade_id); [|done].
    destruct (decide _); [done|]. simpl. unfold costs_consistent in *.
    apply Forall_fmap. eapply Forall_impl; [exact Hc|]. intros x Hx. simpl.
    by destruct (decide (id x = trade_id)).
  - unfold delete_trade. destruct (find_trade l trade_id); [|done]. simpl.
    unfold costs_consistent in *. apply Forall_forall.
    intros x [_ Hx]%list_elem_of_filter.
    by apply (proj1 (Forall_forall _ _) Hc).
  - intros s f l'. by apply (import_preserves costs_consistent).
Qed.

Lemma costs_consistent_preserved_witness :
  costs_consistent scenario_A
  ∧ costs_consistent (update_trade scenario_A 1 [SetTotalCost 0]).2.
Proof.
  assert (H : costs_consistent scenario_A) by (repeat constructor).
  split; [exact H|].
  exact (proj1 (proj2 (costs_consistent_preserved scenario_A
           (parsed (jan 9) "ACME" "Buy" 100 1) 1 [SetTotalCost 0] None H))).
Defined.

(** ** Reading the ledger *)

Lemma insert_by_date_desc_perm t l : insert_by_date_desc t l ≡ₚ t :: l.
Proof.
  induction l as [|x l IH]; [done|].
  simpl. destruct (date_leb (date x) (date t)); [done|].
  rewrite IH. apply Permutation_swap.
Qed.

Lemma order_by_date_desc_perm (l : Ledger) : order_by_date_desc l ≡ₚ l.
Proof.
  induction l as [|t l IH]; [done|].
  unfold order_by_date_desc in *. simpl.
  by rewrite insert_by_date_desc_perm, IH.
Qed.

Lemma trade_imap (f : nat → Z) (l : list Trade) :
  trade <$> imap (λ i t, mkRow (f i) t) l = l.
Proof.
  revert f. induction l as [|t l IH]; intros f; [done|].
  csimpl. f_equal. apply (IH (f ∘ S)).
Qed.

Lemma trade_get_trades (l : Ledger) :
  trade <$> get_trades l None = order_by_date_desc l.
Proof. unfold get_trades, range_index. apply trade_imap. Qed.

Lemma insert_by_date_desc_sorted t l :
  Sorted (λ a b, date_leb (date b) (date a) = true) l →
  Sorted (λ a b, date_leb (date b) (date a) = true) (insert_by_date_desc t l).
Proof.
  induction 1 as [|x l Hl IH Hhd]; simpl.
  - by repeat constructor.
  - destruct (date_leb (date x) (date t)) eqn:E.
    + constructor; [by constructor|]. by constructor.
    + constructor; [done|].
      destruct Hhd as [|y l' Hy]; simpl.
      * constructor. by apply date_leb_total.
      * destruct (date_leb (date y) (date t)); constructor;
          [by apply date_leb_total|done].
Qed.

Lemma order_by_date_desc_sorted (l : Ledger) :
  Sorted (λ a b, date_leb (date b) (date a) = true) (order_by_date_desc l).
Proof.
  induction l as [|t l IH]; [constructor|].
  by apply insert_by_date_desc_sorted.
Qed.

(** X24. [get_trades] without a limit returns every record of the ledger
    exactly once, latest first (each row is dated no earlier than the next),
    under the labels 0, 1, 2, ... *)
Theorem get_trades_all_latest_first (l : Ledger) :
  trade <$> get_trades l None ≡ₚ l
  ∧ Sorted (λ a b, date_leb (date b) (date a) = true) (trade <$> get_trades l None)
  ∧ idx <$> get_trades l None = Z.of_nat <$> seq 0 (length l).
Proof.
  rewrite trade_get_trades.
  split; [apply order_by_date_desc_perm|].
  split; [apply order_by_date_desc_sorted|].
  unfold get_trades, range_index. simpl.
  rewrite (range_index_labels_from _ 0).
  by rewrite (Permutation_length (order_by_date_desc_perm l)).
Qed.

Lemma get_trades_nil (l : Ledger) : get_trades l None = [] ↔ l = [].
Proof.
  split; [|by intros ->].
  intros E. apply (f_equal (fmap trade)) in E. rewrite trade_get_trades in E.
  pose proof (Permutation_length (order_by_date_desc_perm l)) as Hlen.
  rewrite E in Hlen. by destruct l.
Qed.

(** ** [get_trade_stats] *)

Lemma six_fields (a b c d e f : pyval) (key : string) :
  is_Some ((list_to_map
              [ ("total_trades"%string, a); ("total_pnl"%string, b);
                ("win_rate"%string, c); ("avg_win"%string, d);
                ("avg_loss"%string, e); ("max_drawdown"%string, f) ]
            : gmap string pyval) !! key)
  ↔ key ∈ [ "total_trades"; "total_pnl"; "win_rate"; "avg_win";
            "avg_loss"; "max_drawdown" ]%string.
Proof.
  by rewrite <-elem_of_dom, dom_list_to_map_L, elem_of_list_to_set.
Qed.

(** X25. [get_trade_stats] returns for every ledger a dictionary of exactly
    six fields; on the empty ledger all six are 0 (where [calculate_metrics]
    returns the empty dictionary), and on any other ledger its total_trades,
    total_pnl and max_drawdown are those of [calculate_metrics] on the frame
    of [get_trades]. *)
Theorem trade_stats_fields (l : Ledger) :
  ∃ m, get_trade_stats l = Ok m
     ∧ (∀ key, is_Some (m !! key)
          ↔ key ∈ [ "total_trades"; "total_pnl"; "win_rate"; "avg_win";
                    "avg_loss"; "max_drawdown" ]%string)
     ∧ (l = [] → ∀ key, is_Some (m !! key) → m !! key = Some (PyInt 0))
     ∧ (l ≠ [] →
        ∃ m', calculate_metrics (get_trades l None) = Ok m'
            ∧ m !! "total_trades"%string = m' !! "total_trades"%string
            ∧ m !! "total_pnl"%string = m' !! "total_pnl"%string
            ∧ m !! "max_drawdown"%string = m' !! "max_drawdown"%string).
Proof.
  unfold get_trade_stats. destruct (get_trades l None) as [|r df] eqn:E.
  - eexists. split; [done|]. split; [apply six_fields|].
    split.
    + intros _ key. rewrite !list_to_map_cons.
      repeat (rewrite lookup_insert; case_decide; [done|]).
      rewrite list_to_map_nil, lookup_empty. by intros [? ?].
    + intros Hl. by apply get_trades_nil in E.
  - cbv zeta.
    destruct (decide (0 < Z.of_nat (length (r :: df)))%Z) as [_|Hn];
      [|simpl in Hn; lia].
    rewrite pydiv_ok.
    2:{ intros H%Qc_of_Z_eq_0. simpl in H. lia. }
    simpl. eexists. split; [done|]. split; [apply six_fields|].
    split; [by intros ->|].
    intros _. destruct (calculate_metrics_returns (r :: df)) as [m' Hm'].
    exists m'. split; [done|].
    destruct (metrics_entries _ m' Hm') as (w & aw & al & pf & _ & -> & -> & _ & _ & ->);
      [done|].
    split; [by rewrite lookup_insert_eq|].
    split; [by rewrite lookup_insert_ne, lookup_insert_eq|].
    by do 5 (rewrite lookup_insert_ne by done); rewrite lookup_insert_eq.
Qed.

(** ** A ledger that was never replayed *)

Lemma sum_list_zeros l : Forall (λ x, x = 0) l → sum_list l = 0.
Proof.
  induction 1 as [|x l -> _ IH]; simpl; [done|]. rewrite IH. ring.
Qed.

Lemma drawdown_of_zeros (df : DataFrame) :
  Forall (λ x, x = 0) (realized_col df) → Forall (λ x, x = 0) (drawdown df).
Proof.
  intros Hz. apply Forall_forall. intros x [k Hk]%list_elem_of_lookup_1.
  assert (Hlt : (k < length df)%nat).
  { rewrite <-drawdown_length. by eapply lookup_lt_Some. }
  assert (Hps : ∀ j, prefix_sum (realized_col df) j = 0).
  { intros j. unfold prefix_sum. apply sum_list_zeros.
    by apply Forall_take. }
  destruct (drawdown_lookup df k Hlt) as (M & [(j & _ & ->) _] & Hdd).
  rewrite Hdd in Hk. injection Hk as <-. rewrite !Hps. ring.
Qed.

Lemma never_replayed_frame (l : Ledger) :
  never_replayed l →
  Forall (λ x, x = 0) (realized_col (get_trades l None))
  ∧ Forall (λ x, x = 0) (unrealized_col (get_trades l None)).
Proof.
  intros Hn. unfold realized_col, unrealized_col.
  rewrite !list_fmap_compose, trade_get_trades.
  rewrite (order_by_date_desc_perm l).
  split; apply Forall_fmap; (eapply Forall_impl; [exact Hn|]); by intros t [? ?].
Qed.

(** X14. A ledger filled through [add_trade] and [import_from_csv] only
    carries no P&L: the two operations (and [delete_trade]) keep every
    realized_pnl and unrealized_pnl at 0, and on such a ledger the metrics
    report total_pnl 0, win_rate 0, profit_factor 0 and max_drawdown 0,
    whatever was traded. *)
Theorem never_replayed_metrics (l : Ledger) trade_data trade_id file :
  never_replayed l →
  never_replayed (add_trade l trade_data).2
  ∧ never_replayed (delete_trade l trade_id).2
  ∧ (∀ successful failed l',
       import_from_csv l file = Some (successful, failed, l') →
       never_replayed l')
  ∧ (l ≠ [] →
     ∃ m, calculate_metrics (get_trades l None) = Ok m
        ∧ m !! "total_pnl"%string = Some (PyFloat 0)
        ∧ m !! "win_rate"%string = Some (PyInt 0)
        ∧ m !! "profit_factor"%string = Some (PyInt 0)
        ∧ m !! "max_drawdown"%string = Some (PyFloat 0)).
Proof.
  assert (Hadd : ∀ l td, never_replayed l → never_replayed (add_trade l td).2).
  { intros l0 td Hn. rewrite add_trade_record. unfold never_replayed in *.
    simpl. apply Forall_app. split; [done|]. by apply Forall_singleton. }
  intros Hn. split; [by apply Hadd|]. split; [|split].
  - unfold delete_trade. destruct (find_trade l trade_id); [|done]. simpl.
    unfold never_replayed in *. apply Forall_forall.
    intros x [_ Hx]%list_elem_of_filter.
    by apply (proj1 (Forall_forall _ _) Hn).
  - intros s f l'. by apply (import_preserves never_replayed).
  - intros Hne. destruct (never_replayed_frame l Hn) as [Hr Hu].
    set (df := get_trades l None) in *.
    assert (Hdf : df ≠ []) by (intros E; by apply get_trades_nil in E).
    destruct (calculate_metrics_returns df) as [m Hm].
    destruct (metrics_entries df m Hm Hdf)
      as (w & aw & al & pf & Hwl & _ & Htot & Hw & Hpf & Hdd).
    exists m. split; [done|].
    assert (Hnone : filter (λ r, realized_pnl (trade r) ≠ 0) df = []).
    { apply filter_none. intros r Hr' Hne'. apply Hne'.
      apply (proj1 (Forall_forall _ _) Hr).
      by apply (list_elem_of_fmap_2 (realized_pnl ∘ trade)). }
    unfold win_loss in Hwl. rewrite Hnone in Hwl. injection Hwl as <- _ _ <-.
    split; [|split; [done|split; [done|]]].
    + rewrite Htot, (sum_list_zeros _ Hr), (sum_list_zeros _ Hu).
      by replace (0 + 0) with 0 by ring.
    + rewrite Hdd. pose proof (drawdown_of_zeros df Hr) as Hz.
      destruct (drawdown df) as [|x xs] eqn:E.
      { apply (f_equal length) in E. rewrite drawdown_length in E.
        by destruct df. }
      simpl. do 2 f_equal.
      destruct (fold_pymin_spec xs x) as [Hin _].
      by apply (proj1 (Forall_forall _ _) Hz).
Qed.

Lemma never_replayed_metrics_witness :
  never_replayed scenario_A
  ∧ ∃ m, calculate_metrics (get_trades scenario_A None) = Ok m
       ∧ m !! "total_pnl"%string = Some (PyFloat 0).
Proof.
  assert (H : never_replayed scenario_A) by (repeat constructor).
  split; [exact H|].
  destruct (proj2 (proj2 (proj2 (never_replayed_metrics scenario_A
              (parsed (jan 9) "ACME" "Buy" 100 1) 1 None H))))
    as (m & Hm & Htot & _); [discriminate|].
  exists m. split; [exact Hm|exact Htot].
Defined.

(** ** [import_from_csv] *)

Lemma import_row_outcome s f (l : Ledger) row :
  (∃ t, import_row (s, f, l) row = Some ((s + 1)%Z, f, l ++ [t]))
  ∨ import_row (s, f, l) row = Some (s, (f + 1)%Z, l)
  ∨ import_row (s, f, l) row = None.
Proof.
  unfold import_row. destruct (parse_row row) as [rd|e]; [|by right; left].
  destruct (trade_data_of rd) as [td|].
  - left. rewrite add_trade_record. by eexists.
  - destruct (not_null_violated rd); [by right; left|by right; right].
Qed.

Lemma import_rows_appends (rows : list CsvRow) s f (l : Ledger) s' f' l' :
  import_rows (s, f, l) rows = Some (s', f', l') →
  ∃ new,
    l' = l ++ new
    ∧ s' = (s + Z.of_nat (length new))%Z
    ∧ f' = (f + (Z.of_nat (length rows) - Z.of_nat (length new)))%Z
    ∧ (length new ≤ length rows)%nat.
Proof.
  revert s f l. induction rows as [|row rows IH]; intros s f l.
  - intros [= <- <- <-]. exists []. rewrite app_nil_r. simpl.
    repeat split; lia.
  - cbn [import_rows].
    destruct (import_row_outcome s f l row) as [[t ->]|[->| ->]];
      cbn [mbind option_bind]; [| |done].
    + intros (new & -> & -> & -> & Hlen)%IH.
      exists (t :: new). rewrite <-app_assoc, !length_cons.
      repeat split; [lia..].
    + intros (new & -> & -> & -> & Hlen)%IH.
      exists new. rewrite length_cons. repeat split; [lia..].
Qed.

(** An empty date or fees cell is what it takes for the import of a row to
    have no outcome. *)
Lemma import_row_none s f (l : Ledger) row :
  import_row (s, f, l) row = None →
  row !! "date"%string = Some NA ∨ row !! "fees"%string = Some NA.
Proof.
  unfold import_row, parse_row, dict_item, trade_data_of, not_null_violated.
  destruct (row !! "date"%string) as [[|? ? [?|]]|]; simpl; try done;
    try (by left).
  all: destruct (row !! "ticker"%string) as [?|]; simpl; try done.
  all: destruct (row !! "trade_type"%string) as [?|]; simpl; try done.
  all: destruct (row !! "price"%string) as [[|? [?|] ?]|]; simpl; try done.
  all: destruct (row !! "quantity"%string) as [[|? [?|] ?]|]; simpl; try done.
  all: destruct (row !! "fees"%string) as [[|? [?|] ?]|]; simpl; try done;
    try (by right).
  all: destruct (row !! "expiration_date"%string) as [[|? ? [?|]]|]; simpl;
    try done.
Qed.

Lemma import_rows_is_Some (rows : list CsvRow) acc :
  dated_and_charged rows → is_Some (import_rows acc rows).
Proof.
  intros Hrows. revert acc.
  induction Hrows as [|row rows [Hd Hf] _ IH]; intros [[s f] l]; [done|].
  cbn [import_rows].
  destruct (import_row (s, f, l) row) as [acc'|] eqn:E;
    cbn [mbind option_bind]; [apply IH|].
  by apply import_row_none in E as [?|?].
Qed.

(** X26. [import_from_csv] only appends: whenever the import has an outcome,
    the records held before stay as they are and in place, the successful
    count is the number of records appended, and the failed count is the
    number of remaining rows of the file; it has an outcome whenever no row
    has an empty date or fees cell.  When the file cannot be read the result
    is (0, 0) and the ledger is unchanged. *)
Theorem import_appends (l : Ledger) (rows : list CsvRow) :
  (∀ successful failed l',
     import_from_csv l (Some rows) = Some (successful, failed, l') →
     ∃ new,
       l' = l ++ new
       ∧ successful = Z.of_nat (length new)
       ∧ failed = (Z.of_nat (length rows) - Z.of_nat (length new))%Z
       ∧ (length new ≤ length rows)%nat)
  ∧ (dated_and_charged rows → is_Some (import_from_csv l (Some rows)))
  ∧ import_from_csv l None = Some (0%Z, 0%Z, l).
Proof.
  split; [|split; [|done]].
  - unfold import_from_csv. intros s f l'.
    intros (new & -> & -> & -> & Hlen)%import_rows_appends.
    exists new. repeat split; [lia..].
  - apply import_rows_is_Some.
Qed.

Ltac not_importable :=
  let H := fresh in
  intros H; unfold importable in H;
  repeat match goal with
         | E : _ !! _ = _ |- _ => rewrite E in H
         end;
  destruct H as (H1 & H2 & H3 & H4 & H5 & H6 & H7);
  first [ by destruct H1 as [? ?]
        | by destruct H2 as [? ?]
        | by destruct H3 as [? ?]
        | by destruct H4 as [? ?]
        | by destruct H5 as [? ?]
        | by destruct (H6 _ eq_refl) as [? ?]
        | by destruct (H7 _ eq_refl) as [?|[? ?]] ].

Ltac is_importable :=
  unfold importable;
  repeat match goal with
         | E : _ !! _ = _ |- _ => rewrite E
         end;
  repeat split; simpl; try done;
  try (by intros ? [= <-]; simpl; eauto);
  try (by intros ? [= <-]; right; simpl; eauto);
  try (by intros ? [= <-]; left).

(** X27. Which rows [import_from_csv] stores. A row is stored, and counted
    as successful, exactly when its five required columns are there, its
    date, price and quantity cells are filled in and convert, and so does
    its fees cell if it has one (an expiration_date cell may be empty); the
    stored price and quantity are the numbers read from the row, whatever
    their sign.  Any other row either is counted as failed and leaves the
    ledger as it was, or has an empty date or fees cell and is none of the
    model (the code stores an empty fees cell as NULL). *)
Theorem import_one_row (l : Ledger) (row : CsvRow) :
  (importable row
   ∧ ∃ t, import_from_csv l (Some [row]) = Some (1%Z, 0%Z, l ++ [t])
        ∧ row !! "price"%string ≫= as_float = Some (price t)
        ∧ row !! "quantity"%string ≫= as_float = Some (quantity t))
  ∨ (¬ importable row
     ∧ import_from_csv l (Some [row]) = Some (0%Z, 1%Z, l))
  ∨ (¬ importable row
     ∧ import_from_csv l (Some [row]) = None
     ∧ (row !! "date"%string = Some NA ∨ row !! "fees"%string = Some NA)).
Proof.
  unfold import_from_csv. cbn [import_rows].
  unfold import_row, parse_row, dict_item, trade_data_of, not_null_violated.
  destruct (row !! "date"%string) as [[|? ? [?|]]|] eqn:Hdate; simpl;
    try (by right; left; split; [not_importable|]).
  all: destruct (row !! "ticker"%string) as [?|] eqn:Hticker; simpl;
    try (by right; left; split; [not_importable|]).
  all: destruct (row !! "trade_type"%string) as [?|] eqn:Htype; simpl;
    try (by right; left; split; [not_importable|]).
  all: destruct (row !! "price"%string) as [[|? [?|] ?]|] eqn:Hprice; simpl;
    try (by right; left; split; [not_importable|]).
  all: destruct (row !! "quantity"%string) as [[|? [?|] ?]|] eqn:Hquantity;
    simpl; try (by right; left; split; [not_importable|]).
  all: destruct (row !! "fees"%string) as [[|? [?|] ?]|] eqn:Hfees; simpl;
    try (by right; left; split; [not_importable|]).
  all: destruct (row !! "expiration_date"%string) as [[|? ? [?|]]|] eqn:Hexp;
    simpl; try (by right; left; split; [not_importable|]).
  all: try (by right; right; split; [not_importable|split; [|by left]]).
  all: try (by right; right; split; [not_importable|split; [|by right]]).
  all: left; (split; [is_importable|]);
    eexists; (split; [reflexivity|]); by rewrite ?Hprice, ?Hquantity.
Qed.

(** ** The handlers of [app.py] *)

Lemma positive_entries_add (l : Ledger) trade_data :
  0 < td_price trade_data → 0 < td_quantity trade_data →
  positive_entries l → positive_entries (add_trade l trade_data).2.
Proof.
  intros Hp Hq Hl. rewrite add_trade_record. unfold positive_entries. simpl.
  apply Forall_app. split; [done|]. by apply Forall_singleton.
Qed.

(** X29. Both entry forms validate before they store: a ledger whose prices
    and quantities are all positive stays so under the two forms, the
    refresh and the reset (the CSV import is not among them), and the stock
    form stores a record (and shows its id) exactly when the ticker is
    non-empty and price and quantity are positive; otherwise it shows an
    error and leaves the session as it was. *)
Theorem forms_store_positive_trades (upper : string → string) (s : Session)
    (a : action) (f : StockForm) :
  positive_entries (db s) →
  positive_entries (db (handle upper s a))
  ∧ (sf_ticker f ≠ ""%string ∧ 0 < sf_price f ∧ 0 < sf_quantity f
     ↔ ∃ trade_id, (submit_stock_trade upper s f).2 = Success trade_id)
  ∧ ((submit_stock_trade upper s f).2 = Failure
     → (submit_stock_trade upper s f).1 = s).
Proof.
  intros Hpos. split; [|split].
  - destruct a as [g|g| |]; simpl.
    + unfold submit_stock_trade. case_decide as Hv; [|done].
      destruct Hv as (_ & Hp & Hq).
      rewrite add_trade_record. simpl.
      apply Forall_app. split; [done|]. by apply Forall_singleton.
    + unfold submit_option_trade. case_decide as Hv; [|done].
      destruct Hv as (_ & Hp & Hc & _).
      rewrite add_trade_record. simpl.
      apply Forall_app. split; [done|]. apply Forall_singleton. simpl.
      split; [done|].
      pose proof (proj1 (Z2Qc_inj_lt 0 _) Hc) as Hc'.
      by rewrite Z2Qc_inj_0 in Hc'.
    + done.
    + constructor.
  - unfold submit_stock_trade. case_decide as Hv.
    + rewrite add_trade_record. simpl. split; [by eexists|done].
    + simpl. split; [done|]. by intros [? ?].
  - unfold submit_stock_trade. case_decide as Hv; [|done].
    by rewrite add_trade_record.
Qed.

Lemma forms_store_positive_trades_witness :
  positive_entries (db (handle id_string (mkSession scenario_A [])
                          (SubmitStock acme_form)))
  ∧ ∃ trade_id,
      (submit_stock_trade id_string (mkSession scenario_A []) acme_form).2
      = Success trade_id.
Proof.
  assert (Hpos : positive_entries scenario_A).
  { repeat constructor. }
  destruct (forms_store_positive_trades id_string (mkSession scenario_A [])
              (SubmitStock acme_form) acme_form Hpos) as (H1 & H2 & _).
  split; [exact H1|]. apply H2. split; [done|split; reflexivity].
Defined.

(** X30. The cached frame follows the ledger under each of these handlers
    but one: when [trades_df] shows the ledger before a form submission, a
    refresh or an import (one that has an outcome), it does so afterwards.
    "Reset Database" empties the ledger, reports a failure (as
    [reset_database] returns nothing) and leaves the cached frame as it was,
    so that after resetting a non-empty ledger the session still shows the
    deleted trades. *)
Theorem session_shows_ledger (upper : string → string) (s : Session)
    (a : action) (file : option (list CsvRow)) :
  coherent s →
  (a ≠ ResetDatabase → coherent (handle upper s a))
  ∧ (∀ s' counts, import_csv s file = Some (s', counts) → coherent s')
  ∧ reset_button s = (mkSession [] (trades_df s), Failure)
  ∧ (db s ≠ [] → ¬ coherent (handle upper s ResetDatabase)).
Proof.
  intros Hs. split; [|split; [|split]].
  - intros Ha. destruct a as [g|g| |]; simpl.
    + unfold submit_stock_trade. case_decide; [|done].
      by rewrite add_trade_record.
    + unfold submit_option_trade. case_decide; [|done].
      by rewrite add_trade_record.
    + done.
    + done.
  - intros s' counts. unfold import_csv.
    destruct (import_from_csv (db s) file) as [[[? ?] ?]|]; [|done].
    by intros [= <- _].
  - done.
  - intros Hne Hc. unfold coherent in *. simpl in Hc.
    rewrite Hs in Hc. by apply get_trades_nil in Hc.
Qed.

Lemma session_shows_ledger_witness :
  coherent (mkSession scenario_A (get_trades scenario_A None))
  ∧ ¬ coherent (handle id_string
                  (mkSession scenario_A (get_trades scenario_A None))
                  ResetDatabase).
Proof.
  assert (H : coherent (mkSession scenario_A (get_trades scenario_A None)))
    by reflexivity.
  split; [exact H|].
  apply (proj2 (proj2 (proj2
           (session_shows_ledger id_string _ ResetDatabase None H)))).
  discriminate.
Defined.
